(** * Conjugate compound distributions of pyro: BetaBinomial and GammaPoisson

    A shallow embedding of [pyro/distributions/conjugate.py].  Tensors are
    a shape together with row-major storage; the element type and its
    arithmetic are an interface ([Scalar]), so that every general result
    holds for whatever floating-point arithmetic the tensor library uses.
    Python exceptions are values of [exn]; the [_unexpanded_params]
    dictionaries live in a store and instances hold references to them. *)

From Stdlib Require Import ZArith List Lia Bool.
From Stdlib Require Import Floats.SpecFloat.
From stdpp Require Import gmap strings list fin_maps.

Open Scope Z_scope.

(** ** Exceptions and fallible results *)

Inductive exn : Type :=
  | ValueError
  | TypeError
  | RuntimeError
  | KeyError
  | OverflowError
  | NotImplementedError.

Inductive result (A : Type) : Type :=
  | Ok (a : A)
  | Raise (e : exn).
Arguments Ok {A} a.
Arguments Raise {A} e.

#[global] Instance result_ret : MRet result := fun A a => Ok a.
#[global] Instance result_bind : MBind result := fun A B f m =>
  match m with
  | Ok a => f a
  | Raise e => Raise e
  end.
#[global] Instance result_fmap : FMap result := fun A B f m =>
  match m with
  | Ok a => Ok (f a)
  | Raise e => Raise e
  end.

Definition of_option {A} (e : exn) (o : option A) : result A :=
  match o with
  | Some a => Ok a
  | None => Raise e
  end.

(** ** The element type of tensors

    [add] .. [pow] are the element-wise operations of the tensor library
    ([torch.lgamma], [Tensor.log], [Tensor.pow]); [of_Z] converts a Python
    integer to the element type; [to_int] is Python's [int(x)] (it fails on
    infinities and NaN); [maximum] and [minimum] are the binary steps of the
    reductions [Tensor.max()] and [Tensor.min()]; [is_integer x] is
    [x % 1 == 0]. *)

Class Scalar : Type := {
  elt : Type;
  add : elt -> elt -> elt;
  sub : elt -> elt -> elt;
  mul : elt -> elt -> elt;
  div : elt -> elt -> elt;
  neg : elt -> elt;
  lgamma : elt -> elt;
  log : elt -> elt;
  pow : elt -> Z -> elt;
  of_Z : Z -> elt;
  to_int : elt -> result Z;
  ltb : elt -> elt -> bool;
  leb : elt -> elt -> bool;
  eqb : elt -> elt -> bool;
  maximum : elt -> elt -> elt;
  minimum : elt -> elt -> elt;
  is_integer : elt -> bool
}.

(** ** Shapes *)

Definition numel (sh : list nat) : nat := foldr Nat.mul 1%nat sh.

(** [pad n sh] aligns [sh] to the right in [n] dimensions, the missing
    leading dimensions having size 1 (the broadcasting convention). *)
Definition pad (n : nat) (sh : list nat) : list nat :=
  replicate (n - length sh)%nat 1%nat ++ sh.

Definition bdim (x y : nat) : option nat :=
  if decide (x = y) then Some x
  else if decide (x = 1%nat) then Some y
  else if decide (y = 1%nat) then Some x
  else None.

Fixpoint bdims (a b : list nat) : option (list nat) :=
  match a, b with
  | x :: a', y :: b' =>
      match bdim x y, bdims a' b' with
      | Some d, Some r => Some (d :: r)
      | _, _ => None
      end
  | _, _ => Some []
  end.

(** [torch.broadcast_shapes]: [None] when the shapes are incompatible. *)
Definition broadcast_shapes (a b : list nat) : option (list nat) :=
  let n := (length a `max` length b)%nat in
  bdims (pad n a) (pad n b).

(** A dimension of size [s] can be expanded to size [t]. *)
Definition expandable_dim (s t : nat) : bool :=
  bool_decide (s = t) || bool_decide (s = 1%nat).

Fixpoint expandable_dims (src tgt : list nat) : bool :=
  match src, tgt with
  | s :: src', t :: tgt' => expandable_dim s t && expandable_dims src' tgt'
  | [], [] => true
  | _, _ => false
  end.

Definition expandable (src tgt : list nat) : bool :=
  bool_decide (length src <= length tgt)%nat
  && expandable_dims (pad (length tgt) src) tgt.

(** ** Tensors *)

Record tensor (A : Type) : Type := Tensor {
  tshape : list nat;
  tdata : list A
}.
Arguments Tensor {A} tshape tdata.
Arguments tshape {A} t.
Arguments tdata {A} t.

Definition wf {A} (t : tensor A) : Prop :=
  length (tdata t) = numel (tshape t).

Definition scalar_tensor {A} (x : A) : tensor A := Tensor [] [x].

Definition ndim {A} (t : tensor A) : nat := length (tshape t).

Section Storage.
Context {A : Type}.

(** [chunks m n d]: the first [n] consecutive blocks of [m] elements. *)
Fixpoint chunks (m n : nat) (d : list A) : list (list A) :=
  match n with
  | O => []
  | S n' => take m d :: chunks m n' (drop m d)
  end.

(** Storage of a tensor of shape [src] expanded to shape [tgt]
    (both of the same length): a dimension of size 1 is repeated. *)
Fixpoint expand_data (src tgt : list nat) (d : list A) : list A :=
  match src, tgt with
  | s :: src', t :: tgt' =>
      if decide (s = t)
      then concat (map (expand_data src' tgt') (chunks (numel src') s d))
      else concat (replicate t (expand_data src' tgt' d))
  | _, _ => d
  end.

(** The tensor seen in shape [tgt]; [tgt] has at least as many
    dimensions as the tensor. *)
Definition expand_to (tgt : list nat) (t : tensor A) : tensor A :=
  Tensor tgt (expand_data (pad (length tgt) (tshape t)) tgt (tdata t)).

(** Sizes requested of [Tensor.expand]: [-1] keeps an existing
    dimension and is refused for a new leading one. *)
Fixpoint expand_sizes (lead : nat) (src : list nat) (sizes : list Z)
  : option (list nat) :=
  match sizes with
  | [] => match src with [] => Some [] | _ => None end
  | z :: zs =>
      match lead with
      | S lead' =>
          if 0 <=? z then (Z.to_nat z ::.) <$> expand_sizes lead' src zs
          else None
      | O =>
          match src with
          | [] => None
          | s :: src' =>
              if z =? -1 then (s ::.) <$> expand_sizes O src' zs
              else if (0 <=? z) && expandable_dim s (Z.to_nat z)
              then (Z.to_nat z ::.) <$> expand_sizes O src' zs
              else None
          end
      end
  end.

(** [Tensor.expand(sizes)]. *)
Definition texpand (t : tensor A) (sizes : list Z) : result (tensor A) :=
  if bool_decide (length sizes < ndim t)%nat then Raise RuntimeError
  else
    match expand_sizes (length sizes - ndim t) (tshape t) sizes with
    | Some tgt => Ok (expand_to tgt t)
    | None => Raise RuntimeError
    end.

(** [Tensor.expand_as(other)]. *)
Definition texpand_as {B} (t : tensor A) (other : tensor B)
  : result (tensor A) :=
  texpand t (map Z.of_nat (tshape other)).

(** [Tensor.view(sizes)] with at most one inferred ([-1]) dimension. *)
Definition tview (t : tensor A) (sizes : list Z) : result (tensor A) :=
  let n := length (tdata t) in
  let known := filter (fun z => z ≠ -1) sizes in
  let p := numel (map Z.to_nat known) in
  if bool_decide (Exists (fun z => z < -1) sizes) then Raise RuntimeError
  else if bool_decide (length sizes = length known) then
    if bool_decide (p = n) then Ok (Tensor (map Z.to_nat sizes) (tdata t))
    else Raise RuntimeError
  else if bool_decide (S (length known) = length sizes) then
    if bool_decide (p ≠ 0%nat) && bool_decide (n `mod` p = 0)%nat
    then Ok (Tensor
               (map (fun z => if z =? -1 then (n `div` p)%nat
                              else Z.to_nat z) sizes)
               (tdata t))
    else Raise RuntimeError
  else Raise RuntimeError.
End Storage.

Definition tmap {A B} (f : A -> B) (t : tensor A) : tensor B :=
  Tensor (tshape t) (map f (tdata t)).

(** An element-wise binary operation under broadcasting. *)
Definition tmap2 {A B C} (f : A -> B -> C) (a : tensor A) (b : tensor B)
  : result (tensor C) :=
  match broadcast_shapes (tshape a) (tshape b) with
  | Some sh =>
      Ok (Tensor sh (zip_with f (tdata (expand_to sh a))
                                (tdata (expand_to sh b))))
  | None => Raise RuntimeError
  end.

(** [Tensor.all()]. *)
Definition tall (t : tensor bool) : bool := forallb id (tdata t).

Section Tensors.
Context {Sc : Scalar}.

(** [Tensor.max()] and [Tensor.min()] over all elements; the tensor
    library refuses an empty tensor. *)
Definition tmax (t : tensor elt) : result elt :=
  match tdata t with
  | [] => Raise RuntimeError
  | x :: l => Ok (foldl maximum x l)
  end.

Definition tmin (t : tensor elt) : result elt :=
  match tdata t with
  | [] => Raise RuntimeError
  | x :: l => Ok (foldl minimum x l)
  end.

(** [torch.arange(n)]: the values [0, 1, .., n-1]. *)
Definition arange (n : Z) : result (tensor elt) :=
  if n <? 0 then Raise RuntimeError
  else Ok (Tensor [Z.to_nat n]
             (map (fun i => of_Z (Z.of_nat i)) (seq 0 (Z.to_nat n)))).

(** Sum of the rows of a matrix with [m] columns, column by column. *)
Definition sum_rows (m : nat) (rows : list (list elt)) : list elt :=
  match rows with
  | [] => replicate m (of_Z 0)
  | r :: rs => foldl (zip_with add) r rs
  end.

(** The sum over the [k] leading dimensions:
    [t.view(-1, *t.shape[k:]).sum(0)]. *)
Definition sum_leading (k : nat) (t : tensor elt) : tensor elt :=
  let rest := drop k (tshape t) in
  Tensor rest
    (sum_rows (numel rest)
       (chunks (numel rest) (numel (take k (tshape t))) (tdata t))).

(** Modelled from the spec: [sum_leftmost] of [pyro.distributions.util]
    is not part of the sources at hand.  Called with a negative [dim] it
    yields the spec's [Σobs], the sum over all but the [-dim] trailing
    dimensions; with a non-negative [dim] it sums out [dim] leading
    dimensions, as its name says, so that [dim = 0] leaves the tensor
    as it is. *)
Definition sum_leftmost (value : tensor elt) (dim : Z) : tensor elt :=
  let dim := if dim <? 0 then dim + Z.of_nat (ndim value) else dim in
  if dim <=? 0 then value
  else sum_leading (Z.to_nat dim `min` ndim value)%nat value.

(** [torch.distributions.utils.broadcast_all] on tensors: all of them
    expanded to their common shape. *)
Definition broadcast_all (l : list (tensor elt))
  : result (list (tensor elt)) :=
  sh ← of_option RuntimeError
         (foldl (fun acc t => acc ≫= broadcast_shapes (tshape t))
                (Some []) l);
  Ok (map (expand_to sh) l).

(** *** Constraints of [torch.distributions.constraints] *)

(** [constraints.positive.check]. *)
Definition positive_check (t : tensor elt) : tensor bool :=
  tmap (fun x => ltb (of_Z 0) x) t.

(** [constraints.nonnegative_integer.check]. *)
Definition nonnegative_integer_check (t : tensor elt) : tensor bool :=
  tmap (fun x => is_integer x && leb (of_Z 0) x) t.

(** [constraints.integer_interval(0, upper).check]. *)
Definition integer_interval_check (upper value : tensor elt)
  : result (tensor bool) :=
  tmap2 (fun v n => is_integer v && leb (of_Z 0) v && leb v n)
        value upper.

(** [Distribution._validate_sample] for an empty event shape: the value
    must broadcast against the batch shape and lie in the support. *)
Definition _validate_sample (batch_shape : list nat)
    (support_check : tensor elt -> result (tensor bool))
    (value : tensor elt) : result unit :=
  match broadcast_shapes (tshape value) batch_shape with
  | None => Raise ValueError
  | Some _ =>
      ok ← support_check value;
      if tall ok then Ok tt else Raise ValueError
  end.

(** ** The log-Beta helper (conjugate.py, [_log_beta]) *)

Definition _log_beta (x y : tensor elt) : result (tensor elt) :=
  s ← tmap2 add (tmap lgamma x) (tmap lgamma y);
  xy ← tmap2 add x y;
  tmap2 sub s (tmap lgamma xy).
End Tensors.

(** The class-level default of [Distribution._validate_args], in force
    when a constructor is called with [validate_args=None]. *)
Class Defaults : Type := { default_validate_args : bool }.

Definition resolve_validate_args {Df : Defaults} (validate_args : option bool)
  : bool :=
  default default_validate_args validate_args.

(** [Distribution.__init__]'s check of the parameters against
    [arg_constraints], done when validation is enabled. *)
Definition validate_params (enabled : bool) (checks : list (tensor bool))
  : result unit :=
  if enabled && negb (forallb tall checks) then Raise ValueError else Ok tt.

(** ** The priors: [torch.distributions.Beta] and [Gamma]

    Only what the compound distributions use: construction (parameters
    broadcast, positivity checked when validation is enabled), the
    parameters, the batch shape and [expand]. *)

Module Beta.
Section Beta.
Context {Sc : Scalar} {Df : Defaults}.

Record t : Type := Make {
  concentration1 : tensor elt;
  concentration0 : tensor elt;
  _batch_shape : list nat;
  _validate_args : bool
}.

Definition __init__ (c1 c0 : tensor elt) (validate_args : option bool)
  : result t :=
  l ← broadcast_all [c1; c0];
  match l with
  | [c1; c0] =>
      let va := resolve_validate_args validate_args in
      _ ← validate_params (default_validate_args || va)
            [positive_check c1; positive_check c0];
      Ok (Make c1 c0 (tshape c1) va)
  | _ => Raise ValueError
  end.

Definition expand (self : t) (batch_shape : list nat) : result t :=
  c1 ← texpand (concentration1 self) (map Z.of_nat batch_shape);
  c0 ← texpand (concentration0 self) (map Z.of_nat batch_shape);
  Ok (Make c1 c0 batch_shape (_validate_args self)).

(** [Beta.mean]: [concentration1 / (concentration1 + concentration0)]. *)
Definition mean (self : t) : result (tensor elt) :=
  total ← tmap2 add (concentration1 self) (concentration0 self);
  tmap2 div (concentration1 self) total.

(** [Beta.variance]:
    [concentration1 * concentration0 / (total.pow(2) * (total + 1))]. *)
Definition variance (self : t) : result (tensor elt) :=
  total ← tmap2 add (concentration1 self) (concentration0 self);
  num ← tmap2 mul (concentration1 self) (concentration0 self);
  den ← tmap2 mul (tmap (fun x => pow x 2) total)
                  (tmap (fun x => add x (of_Z 1)) total);
  tmap2 div num den.
End Beta.
End Beta.

Module Gamma.
Section Gamma.
Context {Sc : Scalar} {Df : Defaults}.

Record t : Type := Make {
  concentration : tensor elt;
  rate : tensor elt;
  _batch_shape : list nat;
  _validate_args : bool
}.

Definition __init__ (concentration rate : tensor elt)
    (validate_args : option bool) : result t :=
  l ← broadcast_all [concentration; rate];
  match l with
  | [concentration; rate] =>
      let va := resolve_validate_args validate_args in
      _ ← validate_params va
            [positive_check concentration; positive_check rate];
      Ok (Make concentration rate (tshape concentration) va)
  | _ => Raise ValueError
  end.

Definition expand (self : t) (batch_shape : list nat) : result t :=
  c ← texpand (concentration self) (map Z.of_nat batch_shape);
  r ← texpand (rate self) (map Z.of_nat batch_shape);
  Ok (Make c r batch_shape (_validate_args self)).
End Gamma.
End Gamma.

(** ** Python helpers used by the posterior updates *)

(** [seq[:n]]: a negative [n] counts from the end. *)
Definition slice_to {A} (n : Z) (l : list A) : list A :=
  if n <? 0 then take (Z.to_nat (Z.of_nat (length l) + n)) l
  else take (Z.to_nat n) l.

(** [reduce(mul, seq)] without an initial value: a [TypeError] on the
    empty sequence. *)
Definition reduce_mul (l : list nat) : result Z :=
  match l with
  | [] => Raise TypeError
  | x :: xs => Ok (foldl Z.mul (Z.of_nat x) (map Z.of_nat xs))
  end.

(** [d[key]] on a Python dictionary. *)
Definition getitem {V} (d : gmap string V) (key : string) : result V :=
  of_option KeyError (d !! key).

(** The store of dictionaries; a reference is an index into it. *)
Definition deref {V} (h : list (gmap string V)) (r : nat) : gmap string V :=
  default ∅ (h !! r).

(** ** BetaBinomial (conjugate.py, class [BetaBinomial])

    A Python number given as a parameter, value or observation is the
    0-dimensional tensor [scalar_tensor x] that [broadcast_all] makes of
    it.  [_unexpanded_params] is a reference into the store. *)

Module BetaBinomial.
Section BetaBinomial.
Context {Sc : Scalar} {Df : Defaults}.

Record t : Type := Make {
  _beta : Beta.t;
  _unexpanded_params : nat;
  total_count : tensor elt;
  _batch_shape : list nat;
  _validate_args : bool
}.

Definition concentration1 (self : t) : tensor elt :=
  Beta.concentration1 (_beta self).

Definition concentration0 (self : t) : tensor elt :=
  Beta.concentration0 (_beta self).

Definition set_validate_args (self : t) (b : bool) : t :=
  Make (_beta self) (_unexpanded_params self) (total_count self)
       (_batch_shape self) b.

(** The data-model invariant: after broadcasting, all parameters have
    exactly the batch shape, and their storage has that many elements. *)
Definition inv (self : t) : Prop :=
  tshape (concentration1 self) = _batch_shape self
  /\ tshape (concentration0 self) = _batch_shape self
  /\ tshape (total_count self) = _batch_shape self
  /\ wf (concentration1 self) /\ wf (concentration0 self)
  /\ wf (total_count self).

(** [value] lies in the support [integer_interval(0, total_count)]. *)
Definition in_support (self : t) (value : tensor elt) : Prop :=
  exists ok, integer_interval_check (total_count self) value = Ok ok
             /\ tall ok = true.

Definition __init__ (concentration1 concentration0 total_count : tensor elt)
    (validate_args : option bool) (h : list (gmap string (tensor elt)))
  : result (t * list (gmap string (tensor elt))) :=
  l ← broadcast_all [concentration1; concentration0; total_count];
  match l with
  | [concentration1; concentration0; total_count] =>
      beta ← Beta.__init__ concentration1 concentration0 None;
      let params : gmap string (tensor elt) :=
        <["concentration1" := concentration1]>
        (<["concentration0" := concentration0]>
        (<["total_count" := total_count]> ∅)) in
      let va := resolve_validate_args validate_args in
      _ ← validate_params va
            [positive_check (Beta.concentration1 beta);
             positive_check (Beta.concentration0 beta);
             nonnegative_integer_check total_count];
      Ok (Make beta (length h) total_count (Beta._batch_shape beta) va,
          h ++ [params])
  | _ => Raise ValueError
  end.

Definition expand (self : t) (batch_shape : list nat)
    (h : list (gmap string (tensor elt)))
  : result (t * list (gmap string (tensor elt))) :=
  new_beta ← Beta.expand (_beta self) batch_shape;
  new_total_count ← texpand_as (total_count self)
                              (Beta.concentration0 new_beta);
  (* super().__init__(batch_shape, validate_args=False) *)
  let new := Make new_beta (_unexpanded_params self) new_total_count
                  batch_shape false in
  (* new._validate_args = self._validate_args *)
  Ok (set_validate_args new (_validate_args self), h).

(** A chain of [expand] calls, each on the result of the one before. *)
Fixpoint expand_chain (self : t) (shapes : list (list nat))
    (h : list (gmap string (tensor elt)))
  : result (t * list (gmap string (tensor elt))) :=
  match shapes with
  | [] => Ok (self, h)
  | batch_shape :: shapes =>
      match expand self batch_shape h with
      | Ok (new, h) => expand_chain new shapes h
      | Raise e => Raise e
      end
  end.

Definition _posterior_latent_dist (self : t) (obs : tensor elt)
    (h : list (gmap string (tensor elt))) : result Beta.t :=
  let params := deref h (_unexpanded_params self) in
  concentration1 ← getitem params "concentration1";
  concentration0 ← getitem params "concentration0";
  total_count ← getitem params "total_count";
  let num_dims := length (tshape concentration1) in
  num_obs ← reduce_mul
    (slice_to (Z.of_nat (length (tshape obs)) - Z.of_nat num_dims)
              (tshape obs));
  let summed_obs := sum_leftmost obs (- Z.of_nat num_dims) in
  a ← tmap2 add concentration1 summed_obs;
  b ← tmap2 add (tmap (mul (of_Z num_obs)) total_count) concentration0;
  b ← tmap2 sub b summed_obs;
  Beta.__init__ a b (Some (_validate_args self)).

Definition log_prob (self : t) (value : tensor elt)
  : result (tensor elt) :=
  _ ← (if _validate_args self
       then _validate_sample (_batch_shape self)
              (integer_interval_check (total_count self)) value
       else Ok tt);
  let plus1 := tmap (fun x => add x (of_Z 1)) in
  let log_factorial_n := tmap lgamma (plus1 (total_count self)) in
  let log_factorial_k := tmap lgamma (plus1 value) in
  nmk ← tmap2 sub (total_count self) value;
  let log_factorial_nmk := tmap lgamma (plus1 nmk) in
  r ← tmap2 sub log_factorial_n log_factorial_k;
  r ← tmap2 sub r log_factorial_nmk;
  x ← tmap2 add value (concentration1 self);
  nmk ← tmap2 sub (total_count self) value;
  y ← tmap2 add nmk (concentration0 self);
  lb ← _log_beta x y;
  r ← tmap2 add r lb;
  lb0 ← _log_beta (concentration0 self) (concentration1 self);
  tmap2 sub r lb0.

Definition mean (self : t) : result (tensor elt) :=
  m ← Beta.mean (_beta self);
  tmap2 mul m (total_count self).

Definition variance (self : t) : result (tensor elt) :=
  v ← Beta.variance (_beta self);
  r ← tmap2 mul v (total_count self);
  s ← tmap2 add (concentration0 self) (concentration1 self);
  s ← tmap2 add s (total_count self);
  tmap2 mul r s.

Definition enumerate_support (self : t) (expand : bool)
  : result (tensor elt) :=
  m ← tmax (total_count self);
  total_count ← to_int m;
  mn ← tmin (BetaBinomial.total_count self);
  if negb (eqb mn (of_Z total_count)) then Raise NotImplementedError
  else
    values ← arange (1 + total_count);
    values ← tview values
               (-1 :: replicate (length (_batch_shape self)) 1);
    if expand
    then texpand values (-1 :: map Z.of_nat (_batch_shape self))
    else Ok values.
End BetaBinomial.
End BetaBinomial.

(** ** GammaPoisson (conjugate.py, class [GammaPoisson]) *)

Module GammaPoisson.
Section GammaPoisson.
Context {Sc : Scalar} {Df : Defaults}.

Record t : Type := Make {
  _gamma : Gamma.t;
  _unexpanded_params : nat;
  _batch_shape : list nat;
  _validate_args : bool
}.

Definition concentration (self : t) : tensor elt :=
  Gamma.concentration (_gamma self).

Definition rate (self : t) : tensor elt :=
  Gamma.rate (_gamma self).

Definition set_validate_args (self : t) (b : bool) : t :=
  Make (_gamma self) (_unexpanded_params self) (_batch_shape self) b.

(** The data-model invariant: both parameters have exactly the batch
    shape, and their storage has that many elements. *)
Definition inv (self : t) : Prop :=
  tshape (concentration self) = _batch_shape self
  /\ tshape (rate self) = _batch_shape self
  /\ wf (concentration self) /\ wf (rate self).

(** [value] lies in the support [nonnegative_integer]. *)
Definition in_support (value : tensor elt) : Prop :=
  tall (nonnegative_integer_check value) = true.

Definition __init__ (concentration rate : tensor elt)
    (validate_args : option bool) (h : list (gmap string (tensor elt)))
  : result (t * list (gmap string (tensor elt))) :=
  l ← broadcast_all [concentration; rate];
  match l with
  | [concentration; rate] =>
      gamma ← Gamma.__init__ concentration rate None;
      let params : gmap string (tensor elt) :=
        <["concentration" := concentration]>
        (<["rate" := rate]> ∅) in
      let va := resolve_validate_args validate_args in
      _ ← validate_params va
            [positive_check (Gamma.concentration gamma);
             positive_check (Gamma.rate gamma)];
      Ok (Make gamma (length h) (Gamma._batch_shape gamma) va,
          h ++ [params])
  | _ => Raise ValueError
  end.

Definition expand (self : t) (batch_shape : list nat)
    (h : list (gmap string (tensor elt)))
  : result (t * list (gmap string (tensor elt))) :=
  new_gamma ← Gamma.expand (_gamma self) batch_shape;
  (* super().__init__(batch_shape, validate_args=False) *)
  let new := Make new_gamma (_unexpanded_params self) batch_shape false in
  (* new._validate_args = self._validate_args *)
  Ok (set_validate_args new (_validate_args self), h).

(** A chain of [expand] calls, each on the result of the one before. *)
Fixpoint expand_chain (self : t) (shapes : list (list nat))
    (h : list (gmap string (tensor elt)))
  : result (t * list (gmap string (tensor elt))) :=
  match shapes with
  | [] => Ok (self, h)
  | batch_shape :: shapes =>
      match expand self batch_shape h with
      | Ok (new, h) => expand_chain new shapes h
      | Raise e => Raise e
      end
  end.

Definition _posterior_latent_dist (self : t) (obs : tensor elt)
    (h : list (gmap string (tensor elt))) : result Gamma.t :=
  let params := deref h (_unexpanded_params self) in
  concentration ← getitem params "concentration";
  rate ← getitem params "rate";
  let num_dims := length (tshape concentration) in
  num_obs ← reduce_mul (slice_to (Z.of_nat num_dims) (tshape obs));
  let summed_obs := sum_leftmost obs (- Z.of_nat num_dims) in
  a ← tmap2 add concentration summed_obs;
  Gamma.__init__ a (tmap (fun x => add x (of_Z num_obs)) rate) None.

Definition log_prob (self : t) (value : tensor elt)
  : result (tensor elt) :=
  _ ← (if _validate_args self
       then _validate_sample (_batch_shape self)
              (fun v => Ok (nonnegative_integer_check v)) value
       else Ok tt);
  post_value ← tmap2 add (concentration self) value;
  lb ← _log_beta (concentration self)
                 (tmap (fun x => add x (of_Z 1)) value);
  r ← tmap2 sub (tmap neg lb) (tmap log post_value);
  c ← tmap2 mul (concentration self) (tmap log (rate self));
  r ← tmap2 add r c;
  p ← tmap2 mul post_value
        (tmap log (tmap (fun x => add (of_Z 1) x) (rate self)));
  tmap2 sub r p.

Definition mean (self : t) : result (tensor elt) :=
  tmap2 div (concentration self) (rate self).

Definition variance (self : t) : result (tensor elt) :=
  q ← tmap2 div (concentration self)
                (tmap (fun x => pow x 2) (rate self));
  tmap2 mul q (tmap (fun x => add (of_Z 1) x) (rate self)).
End GammaPoisson.
End GammaPoisson.

(** ** The closed forms of the specification, on single elements *)

Section SpecFormulas.
Context {Sc : Scalar}.

(** [log_beta(x, y) = lgamma(x) + lgamma(y) - lgamma(x + y)]. *)
Definition spec_log_beta (x y : elt) : elt :=
  sub (add (lgamma x) (lgamma y)) (lgamma (add x y)).

(** [lgamma(n+1) - lgamma(k+1) - lgamma(n-k+1)
     + log_beta(k+α, n-k+β) - log_beta(β, α)]. *)
Definition spec_BetaBinomial_log_prob (n k α β : elt) : elt :=
  sub (add (sub (sub (lgamma (add n (of_Z 1))) (lgamma (add k (of_Z 1))))
                (lgamma (add (sub n k) (of_Z 1))))
           (spec_log_beta (add k α) (add (sub n k) β)))
      (spec_log_beta β α).

(** [-log_beta(c, v+1) - log(c+v) + c·log(r) - (c+v)·log(1+r)]. *)
Definition spec_GammaPoisson_log_prob (c r v : elt) : elt :=
  sub (add (sub (neg (spec_log_beta c (add v (of_Z 1)))) (log (add c v)))
           (mul c (log r)))
      (mul (add c v) (log (add (of_Z 1) r))).

(** [concentration / rate]. *)
Definition spec_GammaPoisson_mean (c r : elt) : elt := div c r.

(** [concentration / rate² · (1 + rate)]. *)
Definition spec_GammaPoisson_variance (c r : elt) : elt :=
  mul (div c (pow r 2)) (add (of_Z 1) r).
End SpecFormulas.

(** Element-wise application of a function of three or four arguments. *)
Definition zip_with3 {A B C D} (f : A -> B -> C -> D)
    (la : list A) (lb : list B) (lc : list C) : list D :=
  zip_with (fun g c => g c) (zip_with f la lb) lc.

Definition zip_with4 {A B C D E} (f : A -> B -> C -> D -> E)
    (la : list A) (lb : list B) (lc : list C) (ld : list D) : list E :=
  zip_with (fun g d => g d) (zip_with3 f la lb lc) ld.

(** A tensor that broadcasts to the shape [sh]. *)
Definition fits {A} (t : tensor A) (sh : list nat) : Prop :=
  wf t /\ (length (tshape t) <= length sh)%nat
  /\ expandable_dims (pad (length sh) (tshape t)) sh = true.

(** ** A concrete element type: IEEE 754 binary32

    The tensor library's default floating-point type, on the Standard
    Library's executable specification of IEEE arithmetic.  [lgamma] and
    [log] are those of the mathematical library and stay parameters. *)

Module Float32.
Definition prec : Z := 24.
Definition emax : Z := 128.

Definition of_Z (z : Z) : spec_float := binary_normalize prec emax z 0 false.

(** The float [m * 2^e]. *)
Definition lit (m e : Z) : spec_float := binary_normalize prec emax m e false.

(** [int(x)]: truncation towards zero. *)
Definition to_int (x : spec_float) : result Z :=
  match x with
  | S754_zero _ => Ok 0
  | S754_infinity _ => Raise OverflowError
  | S754_nan => Raise ValueError
  | S754_finite s m e =>
      Ok (cond_Zopp s (if 0 <=? e then Z.pos m * 2 ^ e
                       else Z.pos m / 2 ^ (- e)))
  end.

(** [x % 1 == 0]. *)
Definition is_integer (x : spec_float) : bool :=
  match x with
  | S754_zero _ => true
  | S754_infinity _ | S754_nan => false
  | S754_finite _ m e =>
      (0 <=? e) || (Z.pos m mod 2 ^ (- e) =? 0)
  end.

(** Maximum and minimum propagate NaN. *)
Definition maximum (x y : spec_float) : spec_float :=
  match x, y with
  | S754_nan, _ | _, S754_nan => S754_nan
  | _, _ => if SFleb x y then y else x
  end.

Definition minimum (x y : spec_float) : spec_float :=
  match x, y with
  | S754_nan, _ | _, S754_nan => S754_nan
  | _, _ => if SFleb x y then x else y
  end.

Definition pow (x : spec_float) (n : Z) : spec_float :=
  match n with
  | Z0 => of_Z 1
  | Zpos p => Pos.iter (SFmul prec emax x) (of_Z 1) p
  | Zneg p => SFdiv prec emax (of_Z 1) (Pos.iter (SFmul prec emax x) (of_Z 1) p)
  end.

Definition scalar (lgamma log : spec_float -> spec_float) : Scalar :=
  Build_Scalar spec_float
    (SFadd prec emax) (SFsub prec emax) (SFmul prec emax) (SFdiv prec emax)
    SFopp lgamma log pow of_Z to_int SFltb SFleb SFeqb maximum minimum
    is_integer.
End Float32.

(** ** Integers in the element type

    [exact_ints P]: the element type represents the integers in [P]
    exactly, with their order; binary32 does so up to 2^24. *)

Record exact_ints {Sc : Scalar} (P : Z -> Prop) : Prop := {
  exact_to_int : forall a, P a -> to_int (of_Z a) = Ok a;
  exact_eqb : forall a b, P a -> P b ->
    eqb (of_Z a) (of_Z b) = bool_decide (a = b);
  exact_maximum : forall a b, P a -> P b ->
    maximum (of_Z a) (of_Z b) = of_Z (Z.max a b);
  exact_minimum : forall a b, P a -> P b ->
    minimum (of_Z a) (of_Z b) = of_Z (Z.min a b)
}.

(** [exact_order P]: on the integers in [P], the comparison of the element
    type is the order of the integers, and they pass [x % 1 == 0]. *)
Record exact_order {Sc : Scalar} (P : Z -> Prop) : Prop := {
  exact_leb : forall a b, P a -> P b ->
    leb (of_Z a) (of_Z b) = bool_decide (a <= b);
  exact_is_integer : forall a, P a -> is_integer (of_Z a) = true
}.

(** The integers [0 .. n] along a leading dimension, each filling a row
    of [m] elements. *)
Definition support_rows {Sc : Scalar} (n : Z) (m : nat) : list elt :=
  concat (map (fun i => replicate m (of_Z (Z.of_nat i)))
              (seq 0 (Z.to_nat (1 + n)))).

(** ** Concrete inputs

    The results of this development hold whatever [lgamma] and [log]
    compute; where a definition is run on a concrete input, both are the
    identity, and validation is enabled by default. *)

Definition float32 : Scalar := Float32.scalar (fun x => x) (fun x => x).

Definition validating : Defaults := Build_Defaults true.

(** The number [z] as a 0-dimensional binary32 tensor. *)
Definition num (z : Z) : tensor spec_float := scalar_tensor (Float32.of_Z z).

(** BetaBinomial(2.0, 3.0, total_count=10), as its constructor builds it. *)
Definition BetaBinomial_2_3_10 : @BetaBinomial.t float32 :=
  BetaBinomial.Make (Beta.Make (Sc := float32) (num 2) (num 3) [] true)
    0%nat (num 10) [] true.

(** GammaPoisson(5.0, 2.0), as its constructor builds it. *)
Definition GammaPoisson_5_2 : @GammaPoisson.t float32 :=
  GammaPoisson.Make (Gamma.Make (Sc := float32) (num 5) (num 2) [] true)
    0%nat [] true.

(** A batch of two: BetaBinomial([2., 2.], [3., 3.], total_count=tc). *)
Definition BetaBinomial_batch2 (tc : list Z) : @BetaBinomial.t float32 :=
  BetaBinomial.Make
    (Beta.Make (Sc := float32)
       (Tensor [2%nat] [Float32.of_Z 2; Float32.of_Z 2])
       (Tensor [2%nat] [Float32.of_Z 3; Float32.of_Z 3]) [2%nat] true)
    0%nat (Tensor [2%nat] (map Float32.of_Z tc)) [2%nat] true.

(** * Facts about shapes and storage *)

Section StorageFacts.
Context {A : Type}.
Implicit Types (d : list A) (m n : nat) (src tgt : list nat).

Lemma chunks_length m n d : length (chunks m n d) = n.
Proof. revert d. induction n as [|n IH]; intros d; simpl; [done|]. by rewrite IH. Qed.

Lemma chunks_row_length m n d :
  length d = (n * m)%nat -> Forall (fun r => length r = m) (chunks m n d).
Proof.
  revert d. induction n as [|n IH]; intros d Hd; simpl; [constructor|].
  constructor.
  - rewrite length_take. lia.
  - apply IH. rewrite length_drop. lia.
Qed.

Lemma concat_chunks m n d :
  length d = (n * m)%nat -> concat (chunks m n d) = d.
Proof.
  revert d. induction n as [|n IH]; intros d Hd; simpl.
  - by destruct d.
  - rewrite IH; [apply take_drop|]. rewrite length_drop. lia.
Qed.

Lemma chunks_concat m (rows : list (list A)) :
  Forall (fun r => length r = m) rows ->
  chunks m (length rows) (concat rows) = rows.
Proof.
  induction 1 as [|r rows Hr _ IH]; simpl; [done|].
  rewrite take_app_length' by done. rewrite drop_app_length' by done. by rewrite IH.
Qed.

Lemma chunks_one m d : length d = m -> chunks m 1 d = [d].
Proof. intros <-. simpl. by rewrite firstn_all. Qed.

Lemma chunks_map {B} (f : A -> B) m n d :
  chunks m n (map f d) = map (map f) (chunks m n d).
Proof.
  revert d. induction n as [|n IH]; intros d; simpl; [done|].
  by rewrite <- IH, <- fmap_take, <- fmap_drop.
Qed.
End StorageFacts.


Section ShapeFacts.
Implicit Types (sh src tgt : list nat) (n : nat).

Lemma numel_cons s sh : numel (s :: sh) = (s * numel sh)%nat.
Proof. done. Qed.

Lemma numel_app sh1 sh2 : numel (sh1 ++ sh2) = (numel sh1 * numel sh2)%nat.
Proof.
  induction sh1 as [|s sh1 IH]; simpl; [lia|].
  fold (numel (sh1 ++ sh2)) (numel sh1). rewrite IH. lia.
Qed.

Lemma numel_ones k : numel (replicate k 1%nat) = 1%nat.
Proof. induction k as [|k IH]; simpl; [done|]. fold (numel (replicate k 1%nat)). lia. Qed.

Lemma numel_pad n sh : numel (pad n sh) = numel sh.
Proof. unfold pad. rewrite numel_app, numel_ones. lia. Qed.

Lemma pad_length n sh : (length sh <= n)%nat -> length (pad n sh) = n.
Proof. intros. unfold pad. rewrite length_app, length_replicate. lia. Qed.

Lemma pad_self sh : pad (length sh) sh = sh.
Proof. unfold pad. by rewrite Nat.sub_diag. Qed.

Lemma pad_cons_lt n sh :
  (length sh < S n)%nat -> pad (S n) sh = 1%nat :: pad n sh.
Proof.
  intros. unfold pad.
  replace (S n - length sh)%nat with (S (n - length sh)) by lia. done.
Qed.

Lemma pad_cons_eq n s sh :
  length sh = n -> pad (S n) (s :: sh) = s :: pad n sh.
Proof. intros <-. unfold pad. simpl. by rewrite Nat.sub_diag. Qed.

Lemma expandable_dims_length src tgt :
  expandable_dims src tgt = true -> length src = length tgt.
Proof.
  revert tgt. induction src as [|s src IH]; intros [|t tgt]; simpl; try done.
  intros [_ ?]%andb_prop. f_equal. by apply IH.
Qed.

Lemma expandable_dims_refl sh : expandable_dims sh sh = true.
Proof.
  induction sh as [|s sh IH]; simpl; [done|].
  rewrite IH. unfold expandable_dim. by rewrite bool_decide_eq_true_2.
Qed.

Lemma expandable_dim_spec s t :
  expandable_dim s t = true <-> s = t \/ s = 1%nat.
Proof.
  unfold expandable_dim. rewrite orb_true_iff, !bool_decide_eq_true. done.
Qed.

Lemma expandable_dims_trans a b c :
  expandable_dims a b = true -> expandable_dims b c = true ->
  expandable_dims a c = true.
Proof.
  revert b c. induction a as [|x a IH]; intros [|y b] [|z c]; simpl; try done.
  intros [Hxy Hab]%andb_prop [Hyz Hbc]%andb_prop.
  apply andb_true_intro. split; [|by eapply IH].
  apply expandable_dim_spec. apply expandable_dim_spec in Hxy, Hyz. lia.
Qed.
End ShapeFacts.

Section ExpandFacts.
Context {A : Type}.
Implicit Types (d : list A) (src tgt : list nat).

Lemma length_concat_uniform m (rows : list (list A)) :
  Forall (fun r => length r = m) rows ->
  length (concat rows) = (length rows * m)%nat.
Proof.
  induction 1 as [|r rows Hr _ IH]; simpl; [done|].
  rewrite length_app, IH, Hr. done.
Qed.

Lemma length_concat_replicate n (x : list A) :
  length (concat (replicate n x)) = (n * length x)%nat.
Proof.
  rewrite (length_concat_uniform (length x)).
  - by rewrite length_replicate.
  - by apply Forall_replicate.
Qed.

Lemma map_concat_replicate {B} (f : A -> B) n (x : list A) :
  concat (replicate n (map f x)) = map f (concat (replicate n x)).
Proof. induction n as [|n IH]; simpl; [done|]. by rewrite map_app, IH. Qed.

Lemma expand_data_length src tgt d :
  expandable_dims src tgt = true -> length d = numel src ->
  length (expand_data src tgt d) = numel tgt.
Proof.
  revert tgt d. induction src as [|s src IH]; intros [|t tgt] d; simpl; try done.
  fold (numel src) (numel tgt).
  intros [Hst Hrest]%andb_prop Hd. case_decide as Heq.
  - subst t. rewrite (length_concat_uniform (numel tgt)).
    + by rewrite length_map, chunks_length.
    + apply Forall_fmap. eapply Forall_impl; [apply chunks_row_length, Hd|].
      simpl. intros r Hr. by apply IH.
  - apply expandable_dim_spec in Hst as [?| ->]; [done|].
    rewrite length_concat_replicate, IH; [done|done|lia].
Qed.

Lemma expand_data_id sh d :
  length d = numel sh -> expand_data sh sh d = d.
Proof.
  revert d. induction sh as [|s sh IH]; intros d; simpl; [done|].
  fold (numel sh). intros Hd. rewrite decide_True by done.
  transitivity (concat (chunks (numel sh) s d)); [|by apply concat_chunks].
  f_equal. transitivity (map id (chunks (numel sh) s d)); [|apply map_id].
  apply map_ext_Forall.
  eapply Forall_impl; [by apply chunks_row_length|]. simpl. intros r Hr. by apply IH.
Qed.

Lemma expand_data_map {B} (f : A -> B) src tgt d :
  expand_data src tgt (map f d) = map f (expand_data src tgt d).
Proof.
  revert tgt d. induction src as [|s src IH]; intros [|t tgt] d; simpl; try done.
  case_decide.
  - rewrite chunks_map, concat_map, !map_map. f_equal.
    apply map_ext. intros r. apply IH.
  - by rewrite IH, map_concat_replicate.
Qed.
End ExpandFacts.

Section ZipFacts.
Context {A B C : Type} (f : A -> B -> C).

Lemma chunks_zip_with m n (a : list A) (b : list B) :
  chunks m n (zip_with f a b) = zip_with (zip_with f) (chunks m n a) (chunks m n b).
Proof.
  revert a b. induction n as [|n IH]; intros a b; simpl; [done|].
  by rewrite <- IH, zip_with_take, zip_with_drop.
Qed.

Lemma zip_with_concat m (xs : list (list A)) (ys : list (list B)) :
  Forall (fun r => length r = m) xs -> Forall (fun r => length r = m) ys ->
  zip_with f (concat xs) (concat ys) = concat (zip_with (zip_with f) xs ys).
Proof.
  intros Hx. revert ys. induction Hx as [|x xs Hx _ IH]; intros ys Hy; simpl.
  - done.
  - destruct Hy as [|y ys Hy Hys]; simpl.
    + by rewrite zip_with_nil_r.
    + rewrite zip_with_app by congruence. by rewrite IH.
Qed.

Lemma zip_with_concat_replicate n (x : list A) (y : list B) :
  length x = length y ->
  zip_with f (concat (replicate n x)) (concat (replicate n y))
  = concat (replicate n (zip_with f x y)).
Proof.
  intros Hxy. induction n as [|n IH]; simpl; [done|].
  rewrite zip_with_app by done. by rewrite IH.
Qed.

Lemma expand_data_zip_with src tgt (a : list A) (b : list B) :
  expandable_dims src tgt = true ->
  length a = numel src -> length b = numel src ->
  expand_data src tgt (zip_with f a b)
  = zip_with f (expand_data src tgt a) (expand_data src tgt b).
Proof.
  revert tgt a b. induction src as [|s src IH]; intros [|t tgt] a b; simpl; try done.
  fold (numel src). intros [Hst Hrest]%andb_prop Ha Hb. case_decide as Heq.
  - subst t. rewrite chunks_zip_with.
    pose proof (chunks_row_length (numel src) s a Ha) as Hra.
    pose proof (chunks_row_length (numel src) s b Hb) as Hrb.
    rewrite (zip_with_concat (numel tgt)).
    + f_equal. revert Hra Hrb.
      generalize (chunks (numel src) s a) (chunks (numel src) s b).
      intros xs ys Hxs. revert ys.
      induction Hxs as [|x xs Hx _ IHxs]; intros ys Hys; simpl; [done|].
      destruct Hys as [|y ys Hy Hys]; simpl; [done|].
      rewrite IH by done. f_equal. by apply IHxs.
    + apply Forall_fmap. eapply Forall_impl; [exact Hra|].
      simpl. intros r Hr. by apply expand_data_length.
    + apply Forall_fmap. eapply Forall_impl; [exact Hrb|].
      simpl. intros r Hr. by apply expand_data_length.
  - apply expandable_dim_spec in Hst as [?| ->]; [done|].
    rewrite zip_with_concat_replicate.
    + f_equal. f_equal. apply IH; [done|lia|lia].
    + rewrite !expand_data_length; try done; lia.
Qed.
End ZipFacts.


Section BroadcastFacts.
Implicit Types (a b c sh : list nat).

Lemma bdim_Some x y d :
  bdim x y = Some d ->
  expandable_dim x d = true /\ expandable_dim y d = true
  /\ bdim d x = Some d /\ bdim d y = Some d /\ bdim y x = Some d.
Proof.
  unfold bdim. intros Hd.
  repeat case_decide; simplify_eq;
    rewrite ?expandable_dim_spec; repeat split; try done; auto;
    repeat case_decide; try done; try congruence.
Qed.

Lemma bdim_refl x : bdim x x = Some x.
Proof. unfold bdim. by rewrite decide_True. Qed.

Lemma bdim_expandable x y :
  expandable_dim x y = true -> bdim x y = Some y /\ bdim y x = Some y.
Proof.
  intros [->| ->]%expandable_dim_spec; unfold bdim;
    repeat case_decide; simplify_eq; try done; by subst.
Qed.

Lemma bdims_Some a b c :
  length a = length b -> bdims a b = Some c ->
  length c = length a
  /\ expandable_dims a c = true /\ expandable_dims b c = true
  /\ bdims c a = Some c /\ bdims c b = Some c /\ bdims b a = Some c.
Proof.
  revert b c. induction a as [|x a IH]; intros [|y b] c Hlen; simpl; try done.
  - intros [= <-]. done.
  - destruct (bdim x y) as [d|] eqn:Hd; [|done].
    destruct (bdims a b) as [r|] eqn:Hr; [|done].
    intros [= <-]. simpl.
    destruct (bdim_Some _ _ _ Hd) as (-> & -> & -> & -> & ->).
    destruct (IH b r) as (-> & -> & -> & -> & -> & ->);
      [by simplify_eq|done|]. done.
Qed.

Lemma bdims_refl a : bdims a a = Some a.
Proof. induction a as [|x a IH]; simpl; [done|]. by rewrite bdim_refl, IH. Qed.

Lemma bdims_expandable a b :
  expandable_dims a b = true -> bdims a b = Some b /\ bdims b a = Some b.
Proof.
  revert b. induction a as [|x a IH]; intros [|y b]; simpl; try done.
  intros [Hxy Hab]%andb_prop.
  destruct (bdim_expandable _ _ Hxy) as [-> ->].
  destruct (IH _ Hab) as [-> ->]. done.
Qed.

Lemma broadcast_shapes_refl a : broadcast_shapes a a = Some a.
Proof.
  unfold broadcast_shapes. rewrite Nat.max_id, pad_self. apply bdims_refl.
Qed.

Lemma broadcast_shapes_Some a b c :
  broadcast_shapes a b = Some c ->
  length c = (length a `max` length b)%nat
  /\ expandable_dims (pad (length c) a) c = true
  /\ expandable_dims (pad (length c) b) c = true
  /\ broadcast_shapes c a = Some c /\ broadcast_shapes c b = Some c
  /\ broadcast_shapes b a = Some c.
Proof.
  unfold broadcast_shapes. intros Hc.
  apply bdims_Some in Hc as (Hlen & Ha & Hb & Hca & Hcb & Hba);
    [|rewrite !pad_length; lia].
  rewrite pad_length in Hlen by lia.
  rewrite <- Hlen in Ha, Hb, Hca, Hcb, Hba.
  replace (length c `max` length a)%nat with (length c) by lia.
  replace (length c `max` length b)%nat with (length c) by lia.
  replace (length b `max` length a)%nat with (length c) by lia.
  rewrite pad_self. done.
Qed.

Lemma broadcast_shapes_expandable a b :
  (length a <= length b)%nat -> expandable_dims (pad (length b) a) b = true ->
  broadcast_shapes a b = Some b /\ broadcast_shapes b a = Some b.
Proof.
  intros Hlen Hab. unfold broadcast_shapes.
  rewrite (Nat.max_comm (length b)).
  replace (length a `max` length b)%nat with (length b) by lia.
  rewrite pad_self. by apply bdims_expandable.
Qed.
End BroadcastFacts.

Section Tmap2Facts.
Context {A B C : Type} (f : A -> B -> C).

Lemma tmap2_Ok (a : tensor A) (b : tensor B) sh :
  broadcast_shapes (tshape a) (tshape b) = Some sh ->
  tmap2 f a b = Ok (Tensor sh (zip_with f (tdata (expand_to sh a))
                                          (tdata (expand_to sh b)))).
Proof. unfold tmap2. by intros ->. Qed.

Lemma tmap2_Raise (a : tensor A) (b : tensor B) :
  broadcast_shapes (tshape a) (tshape b) = None ->
  tmap2 f a b = Raise RuntimeError.
Proof. unfold tmap2. by intros ->. Qed.
End Tmap2Facts.

Section ExpandToFacts.
Context {A : Type}.

Lemma expand_to_id sh (d : list A) :
  length d = numel sh -> expand_to sh (Tensor sh d) = Tensor sh d.
Proof.
  intros Hd. unfold expand_to. simpl. by rewrite pad_self, expand_data_id.
Qed.

Lemma expand_to_self (t : tensor A) :
  wf t -> expand_to (tshape t) t = t.
Proof. destruct t as [sh d]. apply expand_to_id. Qed.

Lemma expand_to_wf sh (t : tensor A) :
  (length (tshape t) <= length sh)%nat ->
  expandable_dims (pad (length sh) (tshape t)) sh = true ->
  wf t -> wf (expand_to sh t).
Proof.
  intros Hlen Hexp Hwf. unfold wf, expand_to. simpl.
  apply expand_data_length; [done|]. by rewrite numel_pad.
Qed.

Lemma expand_to_tmap {B} (g : A -> B) sh (t : tensor A) :
  expand_to sh (tmap g t) = tmap g (expand_to sh t).
Proof. unfold expand_to, tmap. simpl. by rewrite expand_data_map. Qed.
End ExpandToFacts.


Section ComposeFacts.
Context {A : Type}.
Implicit Types (d : list A) (a b c : list nat).

Lemma expand_data_compose a b c d :
  expandable_dims a b = true -> expandable_dims b c = true ->
  length d = numel a ->
  expand_data b c (expand_data a b d) = expand_data a c d.
Proof.
  revert b c d. induction a as [|x a IH]; intros [|y b] [|z c] d; simpl; try done.
  fold (numel a) (numel b).
  intros [Hxy Hab]%andb_prop [Hyz Hbc]%andb_prop Hd.
  assert (Hrows : Forall (fun r => length r = numel a) (chunks (numel a) x d))
    by by apply chunks_row_length.
  apply expandable_dim_spec in Hxy, Hyz.
  destruct (decide (x = y)) as [->|Hxy']; destruct (decide (y = z)) as [->|Hyz'].
  - rewrite <- (chunks_length (numel a) z d) at 1.
    rewrite <- (length_map (expand_data a b)).
    rewrite chunks_concat.
    + rewrite map_map. f_equal. apply map_ext_Forall.
      eapply Forall_impl; [exact Hrows|]. simpl. intros r Hr. by apply IH.
    + apply Forall_fmap. eapply Forall_impl; [exact Hrows|].
      simpl. intros r Hr. by apply expand_data_length.
  - destruct Hyz as [?| ->]; [done|].
    simpl. rewrite app_nil_r, firstn_all2 by lia. by rewrite IH by (done || lia).
  - destruct Hxy as [?| ->]; [done|]. rewrite decide_False by done.
    rewrite <- (length_replicate z (expand_data a b d)) at 1.
    rewrite chunks_concat.
    + rewrite fmap_replicate. by rewrite IH by (done || lia).
    + apply Forall_replicate. apply expand_data_length; [done|lia].
  - exfalso. lia.
Qed.

Lemma expand_data_ones k a b d :
  length d = numel a ->
  expand_data (replicate k 1%nat ++ a) (replicate k 1%nat ++ b) d
  = expand_data a b d.
Proof.
  intros Hd. induction k as [|k IH]; simpl; [done|].
  fold (numel (replicate k 1%nat ++ a)).
  rewrite app_nil_r, firstn_all2; [done|].
  rewrite numel_app, numel_ones. lia.
Qed.

Lemma expandable_dims_app a1 a2 b1 b2 :
  length a1 = length b1 ->
  expandable_dims (a1 ++ a2) (b1 ++ b2)
  = expandable_dims a1 b1 && expandable_dims a2 b2.
Proof.
  revert b1. induction a1 as [|x a1 IH]; intros [|y b1]; simpl; try done.
  intros [= Hlen]. by rewrite IH, andb_assoc.
Qed.

Lemma expandable_dims_ones k b :
  length b = k -> expandable_dims (replicate k 1%nat) b = true.
Proof.
  revert b. induction k as [|k IH]; intros [|y b]; simpl; try done.
  intros [= Hlen]. rewrite IH by done.
  unfold expandable_dim. by rewrite (bool_decide_eq_true_2 (1%nat = 1%nat)), orb_true_r.
Qed.

Lemma pad_pad n m a :
  (length a <= m)%nat -> (m <= n)%nat ->
  pad n a = replicate (n - m)%nat 1%nat ++ pad m a.
Proof.
  intros. unfold pad. rewrite app_assoc, <- replicate_add. do 2 f_equal. lia.
Qed.
End ComposeFacts.

Section FitsFacts.
Context {A : Type}.

Lemma fits_self (t : tensor A) : wf t -> fits t (tshape t).
Proof.
  intros Hwf. split; [done|]. split; [done|].
  rewrite pad_self. apply expandable_dims_refl.
Qed.

Lemma fits_expand_to (t : tensor A) sh :
  fits t sh -> fits (expand_to sh t) sh.
Proof.
  intros (Hwf & Hlen & Hexp). apply (fits_self (expand_to sh t)).
  by apply expand_to_wf.
Qed.

(** Expanding in two steps is expanding in one. *)
Lemma expand_to_compose (t : tensor A) m n :
  fits t m -> (length m <= length n)%nat ->
  expandable_dims (pad (length n) m) n = true ->
  expand_to n (expand_to m t) = expand_to n t.
Proof.
  intros (Hwf & Hlen & Hexp) Hmn Hexp'. unfold expand_to. simpl. f_equal.
  rewrite (pad_pad (length n) (length m) (tshape t)) by done.
  set (k := (length n - length m)%nat).
  assert (Hm : pad (length n) m = replicate k 1%nat ++ m) by done.
  rewrite Hm in *.
  rewrite <- (expand_data_ones k (pad (length m) (tshape t)) m)
    by by rewrite numel_pad.
  apply expand_data_compose.
  - rewrite expandable_dims_app by done.
    rewrite Hexp, andb_true_r. apply expandable_dims_ones.
    by rewrite length_replicate.
  - done.
  - rewrite numel_app, numel_ones, numel_pad. unfold wf in Hwf. lia.
Qed.

Lemma fits_trans (t : tensor A) m n :
  fits t m -> (length m <= length n)%nat ->
  expandable_dims (pad (length n) m) n = true -> fits t n.
Proof.
  intros (Hwf & Hlen & Hexp) Hmn Hexp'. split; [done|]. split; [lia|].
  rewrite (pad_pad (length n) (length m) (tshape t)) by done.
  eapply expandable_dims_trans; [|exact Hexp'].
  unfold pad at 2.
  rewrite expandable_dims_app by done.
  rewrite Hexp, andb_true_r. apply expandable_dims_ones.
  by rewrite length_replicate.
Qed.
End FitsFacts.


Section CommonShape.
Implicit Types (a b c d : list nat).

Lemma bdims_common a b c :
  expandable_dims a c = true -> expandable_dims b c = true ->
  exists d, bdims a b = Some d /\ expandable_dims d c = true.
Proof.
  revert b c. induction a as [|x a IH]; intros [|y b] [|z c]; simpl; try done;
    try (intros _ _; by exists []).
  - intros [Hx Ha]%andb_prop [Hy Hb]%andb_prop.
    destruct (IH b c Ha Hb) as (r & -> & Hr).
    apply expandable_dim_spec in Hx, Hy.
    assert (exists e, bdim x y = Some e /\ expandable_dim e z = true) as (e & -> & He).
    { unfold bdim. repeat case_decide; try (exfalso; lia);
        eexists; (split; [done|]); apply expandable_dim_spec; lia. }
    exists (e :: r). simpl. by rewrite He, Hr.
Qed.

Lemma expandable_dims_pad_inv n a c :
  (length a <= n)%nat -> (n <= length c)%nat ->
  expandable_dims (pad (length c) a) c = true ->
  expandable_dims (pad n a) (drop (length c - n) c) = true.
Proof.
  intros Ha Hn. rewrite (pad_pad (length c) n a) by done.
  rewrite <- (take_drop (length c - n) c) at 2.
  rewrite expandable_dims_app
    by (rewrite length_replicate, length_take; lia).
  by intros [_ ?]%andb_prop.
Qed.

Lemma expandable_dims_pad n d c :
  length d = n -> (n <= length c)%nat ->
  expandable_dims d (drop (length c - n) c) = true ->
  expandable_dims (pad (length c) d) c = true.
Proof.
  intros Hd Hn Hexp. unfold pad. rewrite Hd.
  rewrite <- (take_drop (length c - n) c) at 2.
  rewrite expandable_dims_app
    by (rewrite length_replicate, length_take; lia).
  rewrite Hexp, andb_true_r. apply expandable_dims_ones.
  rewrite length_take. lia.
Qed.

Lemma broadcast_shapes_common a b c :
  (length a <= length c)%nat -> (length b <= length c)%nat ->
  expandable_dims (pad (length c) a) c = true ->
  expandable_dims (pad (length c) b) c = true ->
  exists d, broadcast_shapes a b = Some d
    /\ (length d <= length c)%nat
    /\ expandable_dims (pad (length c) d) c = true.
Proof.
  intros Hla Hlb Ha Hb. unfold broadcast_shapes.
  set (n := (length a `max` length b)%nat).
  apply (expandable_dims_pad_inv n) in Ha; [|lia..].
  apply (expandable_dims_pad_inv n) in Hb; [|lia..].
  destruct (bdims_common _ _ _ Ha Hb) as (d & Hd & Hdc).
  exists d. split; [done|].
  apply bdims_Some in Hd as (Hlen & _); [|rewrite !pad_length; lia].
  rewrite pad_length in Hlen by lia.
  split; [lia|]. apply (expandable_dims_pad n); [done|lia|done].
Qed.
End CommonShape.

Section FitsOps.
Context {A B C : Type}.

Lemma tmap_fits (g : A -> B) (t : tensor A) sh :
  fits t sh ->
  fits (tmap g t) sh
  /\ tdata (expand_to sh (tmap g t)) = map g (tdata (expand_to sh t)).
Proof.
  intros (Hwf & Hlen & Hexp). split.
  - split; [|done]. unfold wf, tmap in *. simpl. by rewrite length_map.
  - by rewrite expand_to_tmap.
Qed.

Lemma tmap2_fits (f : A -> B -> C) (a : tensor A) (b : tensor B) sh :
  fits a sh -> fits b sh ->
  exists r, tmap2 f a b = Ok r /\ fits r sh
    /\ broadcast_shapes (tshape a) (tshape b) = Some (tshape r)
    /\ tdata (expand_to sh r)
       = zip_with f (tdata (expand_to sh a)) (tdata (expand_to sh b)).
Proof.
  intros Ha Hb.
  destruct Ha as (Hwa & Hla & Hea). destruct Hb as (Hwb & Hlb & Heb).
  destruct (broadcast_shapes_common _ _ _ Hla Hlb Hea Heb) as (d & Hd & Hld & Hed).
  rewrite (tmap2_Ok f a b d Hd). eexists. split; [done|].
  destruct (broadcast_shapes_Some _ _ _ Hd) as (Hlen & Had & Hbd & _).
  assert (fits a d) as Hfa by (split; [done|split; [lia|done]]).
  assert (fits b d) as Hfb by (split; [done|split; [lia|done]]).
  pose proof (expand_to_wf d a ltac:(lia) Had Hwa) as Hwa'.
  pose proof (expand_to_wf d b ltac:(lia) Hbd Hwb) as Hwb'.
  unfold wf in Hwa', Hwb'. simpl in Hwa', Hwb'.
  split; [|split; [done|]].
  - split; [|done]. unfold wf. simpl.
    rewrite length_zip_with. simpl in *. lia.
  - unfold expand_to at 1. cbn [tdata tshape].
    rewrite expand_data_zip_with; [|done|by rewrite numel_pad..].
    f_equal.
    + change (tdata (expand_to sh (expand_to d a)) = tdata (expand_to sh a)).
      by rewrite expand_to_compose.
    + change (tdata (expand_to sh (expand_to d b)) = tdata (expand_to sh b)).
      by rewrite expand_to_compose.
Qed.
Lemma fits_same_shape (a : tensor A) (b : tensor B) tg :
  fits a tg -> tshape b = tshape a -> wf b -> fits b tg.
Proof. intros (_ & Hl & He) Hs Hw. unfold fits. by rewrite Hs. Qed.


Lemma tmap2_same_shape (f : A -> B -> C) (a : tensor A) (b : tensor B) sh :
  tshape a = sh -> tshape b = sh -> wf a -> wf b ->
  tmap2 f a b = Ok (Tensor sh (zip_with f (tdata a) (tdata b))).
Proof.
  destruct a as [sa da], b as [sb db]. simpl. intros -> -> Hwa Hwb.
  rewrite (tmap2_Ok f _ _ sh) by apply broadcast_shapes_refl.
  by rewrite !expand_to_id.
Qed.
End FitsOps.


Lemma bind_Ok {A B} (f : A -> result B) (a : A) : (Ok a ≫= f) = f a.
Proof. done. Qed.

Section LogBetaFacts.
Context {Sc : Scalar}.

Lemma _log_beta_fits (x y : tensor elt) tg :
  fits x tg -> fits y tg ->
  exists r, _log_beta x y = Ok r /\ fits r tg
    /\ broadcast_shapes (tshape x) (tshape y) = Some (tshape r)
    /\ tdata (expand_to tg r)
       = zip_with spec_log_beta (tdata (expand_to tg x)) (tdata (expand_to tg y)).
Proof.
  intros Hx Hy. unfold _log_beta.
  destruct (tmap_fits lgamma x tg Hx) as (Hlx & Hdlx).
  destruct (tmap_fits lgamma y tg Hy) as (Hly & Hdly).
  destruct (tmap2_fits add _ _ tg Hlx Hly) as (s & -> & Hs & Hshs & Hds).
  rewrite bind_Ok.
  destruct (tmap2_fits add _ _ tg Hx Hy) as (xy & -> & Hxy & Hshxy & Hdxy).
  rewrite bind_Ok.
  destruct (tmap_fits lgamma xy tg Hxy) as (Hlxy & Hdlxy).
  destruct (tmap2_fits sub _ _ tg Hs Hlxy) as (r & -> & Hr & Hshr & Hdr).
  exists r. split; [done|]. split; [done|]. split.
  - simpl in Hshs, Hshr. rewrite Hshxy in Hshs. injection Hshs as Heq.
    rewrite <- Heq, broadcast_shapes_refl in Hshr. by rewrite Hshxy, Hshr.
  - rewrite Hdr, Hds, Hdlx, Hdly, Hdlxy, Hdxy.
    apply list_eq. intros i.
    rewrite !lookup_zip_with, !list_lookup_fmap, !lookup_zip_with.
    destruct (tdata (expand_to tg x) !! i), (tdata (expand_to tg y) !! i); done.
Qed.
End LogBetaFacts.


Section BetaBinomialLogProb.
Context {Sc : Scalar} {Df : Defaults}.
Import BetaBinomial.

Lemma BetaBinomial_validate_sample_Ok (self : t) (value : tensor elt) tg :
  fits value tg -> fits (total_count self) tg ->
  tshape (total_count self) = _batch_shape self ->
  in_support self value ->
  _validate_sample (_batch_shape self)
    (integer_interval_check (total_count self)) value = Ok tt.
Proof.
  intros Hv Ht Hbs (ok & Hok & Hall). unfold _validate_sample.
  destruct (tmap2_fits (fun _ _ : elt => tt) value (total_count self) tg Hv Ht)
    as (r & _ & _ & Hsh & _).
  rewrite Hbs in Hsh. rewrite Hsh, Hok, bind_Ok. by rewrite Hall.
Qed.

Lemma BetaBinomial_log_prob_data (self : t) (value : tensor elt) tg :
  inv self -> fits value tg -> fits (total_count self) tg ->
  (_validate_args self = true -> in_support self value) ->
  exists r, log_prob self value = Ok r /\ fits r tg
    /\ broadcast_shapes (tshape value) (_batch_shape self) = Some (tshape r)
    /\ tdata (expand_to tg r)
       = zip_with4 spec_BetaBinomial_log_prob
           (tdata (expand_to tg (total_count self)))
           (tdata (expand_to tg value))
           (tdata (expand_to tg (concentration1 self)))
           (tdata (expand_to tg (concentration0 self))).
Proof.
  intros (Hs1 & Hs0 & Hst & Hw1 & Hw0 & Hwt) Hv Ht Hval.
  assert (fits (concentration1 self) tg) as Hc1
    by (apply (fits_same_shape (total_count self)); [done|congruence|done]).
  assert (fits (concentration0 self) tg) as Hc0
    by (apply (fits_same_shape (total_count self)); [done|congruence|done]).
  unfold log_prob.
  assert ((if _validate_args self
           then _validate_sample (_batch_shape self)
                  (integer_interval_check (total_count self)) value
           else Ok tt) = Ok tt) as ->.
  { destruct (_validate_args self); [|done].
    by apply (BetaBinomial_validate_sample_Ok self value tg); auto. }
  rewrite bind_Ok. cbv zeta.
  destruct (tmap_fits (fun x => add x (of_Z 1)) _ tg Ht) as (Hn1 & Hdn1).
  destruct (tmap_fits lgamma _ tg Hn1) as (Hln & Hdln).
  destruct (tmap_fits (fun x => add x (of_Z 1)) _ tg Hv) as (Hk1 & Hdk1).
  destruct (tmap_fits lgamma _ tg Hk1) as (Hlk & Hdlk).
  destruct (tmap2_fits sub _ _ tg Ht Hv) as (nmk & -> & Hnmk & Hshnmk & Hdnmk).
  rewrite bind_Ok.
  destruct (tmap_fits (fun x => add x (of_Z 1)) _ tg Hnmk) as (Hm1 & Hdm1).
  destruct (tmap_fits lgamma _ tg Hm1) as (Hlm & Hdlm).
  destruct (tmap2_fits sub _ _ tg Hln Hlk) as (r1 & -> & Hr1 & Hshr1 & Hdr1).
  rewrite bind_Ok.
  destruct (tmap2_fits sub _ _ tg Hr1 Hlm) as (r2 & -> & Hr2 & Hshr2 & Hdr2).
  rewrite bind_Ok.
  destruct (tmap2_fits add _ _ tg Hv Hc1) as (x & -> & Hx & Hshx & Hdx).
  rewrite !bind_Ok.
  destruct (tmap2_fits add _ _ tg Hnmk Hc0) as (y & -> & Hy & Hshy & Hdy).
  rewrite bind_Ok.
  destruct (_log_beta_fits x y tg Hx Hy) as (lb & -> & Hlb & Hshlb & Hdlb).
  rewrite bind_Ok.
  destruct (tmap2_fits add _ _ tg Hr2 Hlb) as (r3 & -> & Hr3 & Hshr3 & Hdr3).
  rewrite bind_Ok.
  destruct (_log_beta_fits _ _ tg Hc0 Hc1) as (lb0 & -> & Hlb0 & Hshlb0 & Hdlb0).
  rewrite bind_Ok.
  destruct (tmap2_fits sub _ _ tg Hr3 Hlb0) as (r & -> & Hr & Hshr & Hdr).
  exists r. split; [done|]. split; [done|]. split.
  - (* the shape of the result *)
    unfold concentration1, concentration0 in *.
    simpl in Hshr1, Hshr2.
    destruct (broadcast_shapes_Some _ _ _ Hshnmk) as (_ & _ & _ & Hca & Hcb & Hba).
    rewrite Hst in *. rewrite Hs1, Hs0 in *.
    rewrite Hshnmk in Hshr1. injection Hshr1 as E1.
    rewrite <- E1, broadcast_shapes_refl in Hshr2. injection Hshr2 as E2.
    rewrite Hba in Hshx. injection Hshx as E3.
    rewrite Hca in Hshy. injection Hshy as E4.
    rewrite <- E3, <- E4, broadcast_shapes_refl in Hshlb. injection Hshlb as E5.
    rewrite <- E2, <- E5, broadcast_shapes_refl in Hshr3. injection Hshr3 as E6.
    rewrite broadcast_shapes_refl in Hshlb0. injection Hshlb0 as E7.
    rewrite <- E6, <- E7, Hca in Hshr. injection Hshr as E8.
    by rewrite Hba, E8.
  - rewrite Hdr, Hdr3, Hdlb0, Hdlb, Hdr2, Hdr1, Hdy, Hdx, Hdlm, Hdlk, Hdln.
    rewrite Hdm1, Hdk1, Hdn1, Hdnmk.
    unfold zip_with4, zip_with3.
    apply list_eq. intros i.
    repeat first [rewrite lookup_zip_with | rewrite list_lookup_fmap].
    destruct (tdata (expand_to tg (total_count self)) !! i),
             (tdata (expand_to tg value) !! i),
             (tdata (expand_to tg (concentration1 self)) !! i),
             (tdata (expand_to tg (concentration0 self)) !! i); done.
Qed.
End BetaBinomialLogProb.


Section GammaPoissonFacts.
Context {Sc : Scalar} {Df : Defaults}.
Import GammaPoisson.

Lemma GammaPoisson_validate_sample_Ok (self : t) (value : tensor elt) tg :
  fits value tg -> fits (rate self) tg ->
  tshape (rate self) = _batch_shape self ->
  in_support value ->
  _validate_sample (_batch_shape self)
    (fun v => Ok (nonnegative_integer_check v)) value = Ok tt.
Proof.
  intros Hv Ht Hbs Hall. unfold _validate_sample.
  destruct (tmap2_fits (fun _ _ : elt => tt) value (rate self) tg Hv Ht)
    as (r & _ & _ & Hsh & _).
  rewrite Hbs in Hsh. rewrite Hsh, bind_Ok.
  unfold in_support in Hall. by rewrite Hall.
Qed.

Lemma GammaPoisson_log_prob_data (self : t) (value : tensor elt) tg :
  inv self -> fits value tg -> fits (rate self) tg ->
  (_validate_args self = true -> in_support value) ->
  exists r, log_prob self value = Ok r /\ fits r tg
    /\ broadcast_shapes (tshape value) (_batch_shape self) = Some (tshape r)
    /\ tdata (expand_to tg r)
       = zip_with3 spec_GammaPoisson_log_prob
           (tdata (expand_to tg (concentration self)))
           (tdata (expand_to tg (rate self)))
           (tdata (expand_to tg value)).
Proof.
  intros (Hsc & Hsr & Hwc & Hwr) Hv Hr Hval.
  assert (fits (concentration self) tg) as Hc
    by (apply (fits_same_shape (rate self)); [done|congruence|done]).
  unfold log_prob.
  assert ((if _validate_args self
           then _validate_sample (_batch_shape self)
                  (fun v => Ok (nonnegative_integer_check v)) value
           else Ok tt) = Ok tt) as ->.
  { destruct (_validate_args self); [|done].
    by apply (GammaPoisson_validate_sample_Ok self value tg); auto. }
  rewrite bind_Ok.
  destruct (tmap2_fits add _ _ tg Hc Hv) as (pv & -> & Hpv & Hshpv & Hdpv).
  rewrite bind_Ok.
  destruct (tmap_fits (fun x => add x (of_Z 1)) _ tg Hv) as (Hv1 & Hdv1).
  destruct (_log_beta_fits _ _ tg Hc Hv1) as (lb & -> & Hlb & Hshlb & Hdlb).
  rewrite bind_Ok.
  destruct (tmap_fits neg _ tg Hlb) as (Hnlb & Hdnlb).
  destruct (tmap_fits log _ tg Hpv) as (Hlpv & Hdlpv).
  destruct (tmap2_fits sub _ _ tg Hnlb Hlpv) as (r1 & -> & Hr1 & Hshr1 & Hdr1).
  rewrite bind_Ok.
  destruct (tmap_fits log _ tg Hr) as (Hlr & Hdlr).
  destruct (tmap2_fits mul _ _ tg Hc Hlr) as (c & -> & Hcc & Hshc & Hdc).
  rewrite bind_Ok.
  destruct (tmap2_fits add _ _ tg Hr1 Hcc) as (r2 & -> & Hr2 & Hshr2 & Hdr2).
  rewrite bind_Ok.
  destruct (tmap_fits (fun x => add (of_Z 1) x) _ tg Hr) as (H1r & Hd1r).
  destruct (tmap_fits log _ tg H1r) as (Hl1r & Hdl1r).
  destruct (tmap2_fits mul _ _ tg Hpv Hl1r) as (p & -> & Hp & Hshp & Hdp).
  rewrite bind_Ok.
  destruct (tmap2_fits sub _ _ tg Hr2 Hp) as (r & -> & Hrr & Hshr & Hdr).
  exists r. split; [done|]. split; [done|]. split.
  - unfold concentration, rate in *. simpl in Hshlb, Hshr1, Hshc, Hshp.
    destruct (broadcast_shapes_Some _ _ _ Hshpv) as (_ & _ & _ & Hca & Hcb & Hba).
    rewrite Hsc in *. rewrite Hsr in *.
    rewrite Hshpv in Hshlb. injection Hshlb as E1.
    rewrite <- E1, broadcast_shapes_refl in Hshr1. injection Hshr1 as E2.
    rewrite broadcast_shapes_refl in Hshc. injection Hshc as E3.
    rewrite <- E2, <- E3, Hca in Hshr2. injection Hshr2 as E4.
    rewrite Hca in Hshp. injection Hshp as E5.
    rewrite <- E4, <- E5, broadcast_shapes_refl in Hshr. injection Hshr as E6.
    by rewrite Hba, E6.
  - rewrite Hdr, Hdp, Hdr2, Hdc, Hdr1, Hdl1r, Hd1r, Hdlr, Hdlpv, Hdnlb, Hdlb.
    rewrite Hdv1, Hdpv.
    unfold zip_with3.
    apply list_eq. intros i.
    repeat first [rewrite lookup_zip_with | rewrite list_lookup_fmap].
    destruct (tdata (expand_to tg (concentration self)) !! i),
             (tdata (expand_to tg (rate self)) !! i),
             (tdata (expand_to tg value) !! i); done.
Qed.

Lemma GammaPoisson_mean_data (self : t) :
  inv self ->
  mean self = Ok (Tensor (_batch_shape self)
                    (zip_with spec_GammaPoisson_mean
                       (tdata (concentration self)) (tdata (rate self)))).
Proof.
  intros (Hsc & Hsr & Hwc & Hwr). unfold mean.
  by apply tmap2_same_shape.
Qed.

Lemma GammaPoisson_variance_data (self : t) :
  inv self ->
  variance self = Ok (Tensor (_batch_shape self)
                    (zip_with spec_GammaPoisson_variance
                       (tdata (concentration self)) (tdata (rate self)))).
Proof.
  intros (Hsc & Hsr & Hwc & Hwr). unfold variance.
  rewrite (tmap2_same_shape div _ _ (_batch_shape self)); try done.
  - rewrite bind_Ok.
    rewrite (tmap2_same_shape mul _ _ (_batch_shape self)); try done.
    + simpl. do 2 f_equal. apply list_eq. intros i.
      repeat first [rewrite lookup_zip_with | rewrite list_lookup_fmap].
      destruct (tdata (concentration self) !! i), (tdata (rate self) !! i); done.
    + unfold wf. simpl. rewrite length_zip_with, length_map.
      unfold wf in Hwc, Hwr. rewrite Hwc, Hwr, Hsc, Hsr. lia.
    + unfold wf, tmap. simpl. rewrite length_map. by rewrite Hwr.
  - unfold wf, tmap. simpl. rewrite length_map. by rewrite Hwr.
Qed.
End GammaPoissonFacts.

Section BroadcastFits.
Lemma broadcast_fits {A B} (a : tensor A) (b : tensor B) sh :
  wf a -> wf b -> broadcast_shapes (tshape a) (tshape b) = Some sh ->
  fits a sh /\ fits b sh.
Proof.
  intros Hwa Hwb Hsh.
  destruct (broadcast_shapes_Some _ _ _ Hsh) as (Hlen & Ha & Hb & _).
  split; (split; [done|split; [lia|done]]).
Qed.

End BroadcastFits.

Section ExpandCalls.
Context {A : Type}.

Lemma expand_sizes_nat k src sh tgt :
  (k + length src)%nat = length sh ->
  expand_sizes k src (map Z.of_nat sh) = Some tgt ->
  tgt = sh /\ expandable_dims (pad (length sh) src) sh = true.
Proof.
  revert k src tgt. induction sh as [|t sh IH]; intros k src tgt Hlen; simpl.
  - destruct src; [|done]. intros [= <-]. done.
  - destruct k as [|k].
    + destruct src as [|s src]; [done|]. simpl in Hlen.
      rewrite (proj2 (Z.eqb_neq (Z.of_nat t) (-1))) by lia.
      rewrite (proj2 (Z.leb_le 0 (Z.of_nat t))) by lia. rewrite Nat2Z.id. simpl.
      destruct (expandable_dim s t) eqn:Hst; [|done].
      destruct (expand_sizes 0 src (map Z.of_nat sh)) as [r|] eqn:Hr; [|done].
      simpl. intros [= <-]. destruct (IH 0%nat src r) as [-> Hexp]; [lia|done|].
      split; [done|]. rewrite pad_cons_eq by lia. simpl. by rewrite Hst, Hexp.
    + simpl in Hlen.
      rewrite (proj2 (Z.leb_le 0 (Z.of_nat t))) by lia. rewrite Nat2Z.id.
      destruct (expand_sizes k src (map Z.of_nat sh)) as [r|] eqn:Hr; [|done].
      simpl. intros [= <-]. destruct (IH k src r) as [-> Hexp]; [lia|done|].
      split; [done|]. rewrite pad_cons_lt by lia. simpl. rewrite Hexp.
      unfold expandable_dim. by rewrite (bool_decide_eq_true_2 (1%nat = 1%nat)), orb_true_r.
Qed.

Lemma texpand_nat (t t' : tensor A) sh :
  texpand t (map Z.of_nat sh) = Ok t' ->
  t' = expand_to sh t /\ (length (tshape t) <= length sh)%nat
  /\ expandable_dims (pad (length sh) (tshape t)) sh = true.
Proof.
  unfold texpand, ndim. rewrite length_map. case_bool_decide as Hlen; [done|].
  destruct (expand_sizes _ _ _) as [tgt|] eqn:Htgt; [|done].
  intros [= <-]. apply expand_sizes_nat in Htgt as [-> Hexp]; [|lia].
  split; [done|]. split; [lia|done].
Qed.

Lemma texpand_fits (t t' : tensor A) sh :
  wf t -> texpand t (map Z.of_nat sh) = Ok t' ->
  t' = expand_to sh t /\ fits t sh.
Proof.
  intros Hwf Ht. apply texpand_nat in Ht as (-> & Hlen & Hexp). done.
Qed.
End ExpandCalls.

Section BroadcastAll.
Context {Sc : Scalar}.

Lemma broadcast_shapes_nil_r a : broadcast_shapes a [] = Some a.
Proof.
  apply broadcast_shapes_expandable; simpl; [lia|].
  unfold pad. simpl. rewrite app_nil_r. apply expandable_dims_ones.
  by rewrite Nat.sub_0_r.
Qed.

Lemma broadcast_all_2 (a b : tensor elt) l :
  wf a -> wf b -> broadcast_all [a; b] = Ok l ->
  exists sh, l = [expand_to sh a; expand_to sh b] /\ fits a sh /\ fits b sh.
Proof.
  intros Hwa Hwb. unfold broadcast_all. simpl.
  rewrite broadcast_shapes_nil_r. simpl.
  destruct (broadcast_shapes (tshape b) (tshape a)) as [sh|] eqn:Hsh; [|done].
  simpl. intros [= <-]. exists sh. split; [done|].
  destruct (broadcast_fits _ _ _ Hwb Hwa Hsh). done.
Qed.

Lemma broadcast_all_3 (a b c : tensor elt) l :
  wf a -> wf b -> wf c -> broadcast_all [a; b; c] = Ok l ->
  exists sh, l = [expand_to sh a; expand_to sh b; expand_to sh c]
    /\ fits a sh /\ fits b sh /\ fits c sh.
Proof.
  intros Hwa Hwb Hwc. unfold broadcast_all. simpl.
  rewrite broadcast_shapes_nil_r. simpl.
  destruct (broadcast_shapes (tshape b) (tshape a)) as [s1|] eqn:Hs1; [|done].
  simpl.
  destruct (broadcast_shapes (tshape c) s1) as [sh|] eqn:Hsh; [|done].
  simpl. intros [= <-]. exists sh. split; [done|].
  destruct (broadcast_fits _ _ _ Hwb Hwa Hs1) as [Hb Ha].
  destruct (broadcast_shapes_Some _ _ _ Hsh) as (Hlen & Hc & Hs & _).
  split; [|split].
  - apply (fits_trans a s1 sh); [done|lia|done].
  - apply (fits_trans b s1 sh); [done|lia|done].
  - split; [done|]. split; [lia|done].
Qed.

Lemma broadcast_all_same (a b : tensor elt) sh :
  tshape a = sh -> tshape b = sh -> wf a -> wf b ->
  broadcast_all [a; b] = Ok [a; b].
Proof.
  intros Ha Hb Hwa Hwb. unfold broadcast_all. simpl.
  rewrite broadcast_shapes_nil_r. simpl. rewrite Ha, Hb, broadcast_shapes_refl.
  simpl. rewrite <- Ha at 1. rewrite <- Hb. by rewrite !expand_to_self.
Qed.
End BroadcastAll.

Section Constructors.
Context {Sc : Scalar} {Df : Defaults}.

Lemma Beta_init_same (a b : tensor elt) va beta :
  tshape b = tshape a -> wf a -> wf b ->
  Beta.__init__ a b va = Ok beta ->
  beta = Beta.Make a b (tshape a) (resolve_validate_args va).
Proof.
  intros Hb Hwa Hwb. unfold Beta.__init__.
  rewrite (broadcast_all_same a b (tshape a)) by done. rewrite bind_Ok.
  destruct (validate_params _ _); [|done]. rewrite bind_Ok. by intros [= <-].
Qed.

Lemma Gamma_init_same (a b : tensor elt) va gamma :
  tshape b = tshape a -> wf a -> wf b ->
  Gamma.__init__ a b va = Ok gamma ->
  gamma = Gamma.Make a b (tshape a) (resolve_validate_args va).
Proof.
  intros Hb Hwa Hwb. unfold Gamma.__init__.
  rewrite (broadcast_all_same a b (tshape a)) by done. rewrite bind_Ok.
  destruct (validate_params _ _); [|done]. rewrite bind_Ok. by intros [= <-].
Qed.

Lemma BetaBinomial_init_spec (c1 c0 tc : tensor elt) va h self h' :
  wf c1 -> wf c0 -> wf tc ->
  BetaBinomial.__init__ c1 c0 tc va h = Ok (self, h') ->
  exists sh,
    fits c1 sh /\ fits c0 sh /\ fits tc sh
    /\ self = BetaBinomial.Make
         (Beta.Make (expand_to sh c1) (expand_to sh c0) sh
            (resolve_validate_args None))
         (length h) (expand_to sh tc) sh (resolve_validate_args va)
    /\ h' = h ++ [ <["concentration1" := expand_to sh c1]>
                   (<["concentration0" := expand_to sh c0]>
                   (<["total_count" := expand_to sh tc]> ∅)) ].
Proof.
  intros Hw1 Hw0 Hwt. unfold BetaBinomial.__init__.
  destruct (broadcast_all [c1; c0; tc]) as [l|] eqn:Hl; [|done].
  destruct (broadcast_all_3 _ _ _ _ Hw1 Hw0 Hwt Hl) as (sh & -> & H1 & H0' & Ht).
  rewrite bind_Ok.
  destruct (Beta.__init__ _ _ _) as [beta|] eqn:Hbeta; [|done].
  apply Beta_init_same in Hbeta;
    [|done|apply fits_expand_to; done..]. subst beta.
  rewrite bind_Ok. cbv zeta.
  destruct (validate_params _ _); [|done]. rewrite bind_Ok.
  intros [= <- <-]. exists sh. done.
Qed.

Lemma BetaBinomial_init_inv (c1 c0 tc : tensor elt) va h self h' :
  wf c1 -> wf c0 -> wf tc ->
  BetaBinomial.__init__ c1 c0 tc va h = Ok (self, h') ->
  BetaBinomial.inv self.
Proof.
  intros Hw1 Hw0 Hwt Hinit.
  destruct (BetaBinomial_init_spec _ _ _ _ _ _ _ Hw1 Hw0 Hwt Hinit)
    as (sh & H1 & H0' & Ht & -> & _).
  unfold BetaBinomial.inv. simpl.
  repeat split; try done; by apply fits_expand_to.
Qed.

Lemma BetaBinomial_expand_spec (self : BetaBinomial.t) bs h self' h' :
  BetaBinomial.inv self ->
  BetaBinomial.expand self bs h = Ok (self', h') ->
  fits (BetaBinomial.total_count self) bs
  /\ self' = BetaBinomial.Make
       (Beta.Make (expand_to bs (BetaBinomial.concentration1 self))
          (expand_to bs (BetaBinomial.concentration0 self)) bs
          (Beta._validate_args (BetaBinomial._beta self)))
       (BetaBinomial._unexpanded_params self)
       (expand_to bs (BetaBinomial.total_count self)) bs
       (BetaBinomial._validate_args self)
  /\ h' = h.
Proof.
  intros (Hs1 & Hs0 & Hst & Hw1 & Hw0 & Hwt).
  unfold BetaBinomial.expand, Beta.expand.
  destruct (texpand (Beta.concentration1 _) _) as [c1|] eqn:Hc1; [|done].
  rewrite bind_Ok.
  destruct (texpand (Beta.concentration0 _) _) as [c0|] eqn:Hc0; [|done].
  rewrite !bind_Ok. unfold texpand_as. simpl.
  apply texpand_fits in Hc1 as [-> Hf1]; [|done].
  apply texpand_fits in Hc0 as [-> Hf0]; [|done]. simpl.
  destruct (texpand (BetaBinomial.total_count self) _) as [tc|] eqn:Htc; [|done].
  apply texpand_fits in Htc as [-> Hft]; [|done].
  rewrite bind_Ok. intros [= <- <-]. done.
Qed.

Lemma BetaBinomial_expand_inv (self : BetaBinomial.t) bs h self' h' :
  BetaBinomial.inv self ->
  BetaBinomial.expand self bs h = Ok (self', h') ->
  BetaBinomial.inv self'.
Proof.
  intros Hinv Hexp.
  destruct (BetaBinomial_expand_spec _ _ _ _ _ Hinv Hexp) as (Hft & -> & _).
  destruct Hinv as (Hs1 & Hs0 & Hst & Hw1 & Hw0 & Hwt).
  unfold BetaBinomial.inv. simpl. repeat split; try done.
  - apply fits_expand_to, (fits_same_shape (BetaBinomial.total_count self)); try done. congruence.
  - apply fits_expand_to, (fits_same_shape (BetaBinomial.total_count self)); try done. congruence.
  - by apply fits_expand_to.
Qed.

Lemma GammaPoisson_init_spec (c r : tensor elt) va h self h' :
  wf c -> wf r ->
  GammaPoisson.__init__ c r va h = Ok (self, h') ->
  exists sh,
    fits c sh /\ fits r sh
    /\ self = GammaPoisson.Make
         (Gamma.Make (expand_to sh c) (expand_to sh r) sh
            (resolve_validate_args None))
         (length h) sh (resolve_validate_args va)
    /\ h' = h ++ [ <["concentration" := expand_to sh c]>
                   (<["rate" := expand_to sh r]> ∅) ].
Proof.
  intros Hwc Hwr. unfold GammaPoisson.__init__.
  destruct (broadcast_all [c; r]) as [l|] eqn:Hl; [|done].
  destruct (broadcast_all_2 _ _ _ Hwc Hwr Hl) as (sh & -> & Hc & Hr).
  rewrite bind_Ok.
  destruct (Gamma.__init__ _ _ _) as [gamma|] eqn:Hgamma; [|done].
  apply Gamma_init_same in Hgamma;
    [|done|apply fits_expand_to; done..]. subst gamma.
  rewrite bind_Ok. cbv zeta.
  destruct (validate_params _ _); [|done]. rewrite bind_Ok.
  intros [= <- <-]. exists sh. done.
Qed.

Lemma GammaPoisson_init_inv (c r : tensor elt) va h self h' :
  wf c -> wf r ->
  GammaPoisson.__init__ c r va h = Ok (self, h') ->
  GammaPoisson.inv self.
Proof.
  intros Hwc Hwr Hinit.
  destruct (GammaPoisson_init_spec _ _ _ _ _ _ Hwc Hwr Hinit)
    as (sh & Hc & Hr & -> & _).
  unfold GammaPoisson.inv. simpl.
  repeat split; try done; by apply fits_expand_to.
Qed.

Lemma GammaPoisson_expand_spec (self : GammaPoisson.t) bs h self' h' :
  GammaPoisson.inv self ->
  GammaPoisson.expand self bs h = Ok (self', h') ->
  fits (GammaPoisson.rate self) bs
  /\ self' = GammaPoisson.Make
       (Gamma.Make (expand_to bs (GammaPoisson.concentration self))
          (expand_to bs (GammaPoisson.rate self)) bs
          (Gamma._validate_args (GammaPoisson._gamma self)))
       (GammaPoisson._unexpanded_params self) bs
       (GammaPoisson._validate_args self)
  /\ h' = h.
Proof.
  intros (Hsc & Hsr & Hwc & Hwr).
  unfold GammaPoisson.expand, Gamma.expand.
  destruct (texpand (Gamma.concentration _) _) as [c|] eqn:Hc; [|done].
  rewrite bind_Ok.
  destruct (texpand (Gamma.rate _) _) as [r|] eqn:Hr; [|done].
  rewrite !bind_Ok.
  apply texpand_fits in Hc as [-> Hfc]; [|done].
  apply texpand_fits in Hr as [-> Hfr]; [|done].
  intros [= <- <-]. done.
Qed.

Lemma GammaPoisson_expand_inv (self : GammaPoisson.t) bs h self' h' :
  GammaPoisson.inv self ->
  GammaPoisson.expand self bs h = Ok (self', h') ->
  GammaPoisson.inv self'.
Proof.
  intros Hinv Hexp.
  destruct (GammaPoisson_expand_spec _ _ _ _ _ Hinv Hexp) as (Hft & -> & _).
  destruct Hinv as (Hsc & Hsr & Hwc & Hwr).
  unfold GammaPoisson.inv. simpl. repeat split; try done.
  - apply fits_expand_to, (fits_same_shape (GammaPoisson.rate self)); try done. congruence.
  - by apply fits_expand_to.
Qed.
End Constructors.

Section BetaBinomialClosedForm.
Context {Sc : Scalar} {Df : Defaults}.
Import BetaBinomial.

Lemma BetaBinomial_log_prob_value (self : t) (value : tensor elt) sh :
  inv self -> wf value ->
  broadcast_shapes (tshape value) (_batch_shape self) = Some sh ->
  (_validate_args self = true -> in_support self value) ->
  log_prob self value
  = Ok (Tensor sh
          (zip_with4 spec_BetaBinomial_log_prob
             (tdata (expand_to sh (total_count self)))
             (tdata (expand_to sh value))
             (tdata (expand_to sh (concentration1 self)))
             (tdata (expand_to sh (concentration0 self))))).
Proof.
  intros Hinv Hwv Hsh Hval.
  pose proof Hinv as (_ & _ & Hst & _ & _ & Hwt).
  rewrite <- Hst in Hsh.
  destruct (broadcast_fits _ _ _ Hwv Hwt Hsh) as [Hv Ht].
  rewrite Hst in Hsh.
  destruct (BetaBinomial_log_prob_data self value sh Hinv Hv Ht Hval)
    as (r & -> & (Hwr & _) & Hshr & Hdr).
  rewrite Hsh in Hshr. injection Hshr as ->.
  rewrite expand_to_self in Hdr by done. rewrite <- Hdr. by destruct r.
Qed.
End BetaBinomialClosedForm.

Section ExpandFields.
Context {Sc : Scalar}.

(** What [expand] leaves as it is, whatever the instance. *)
Lemma BetaBinomial_expand_fields (self : BetaBinomial.t) bs h self' h' :
  BetaBinomial.expand self bs h = Ok (self', h') ->
  BetaBinomial._unexpanded_params self' = BetaBinomial._unexpanded_params self
  /\ BetaBinomial._validate_args self' = BetaBinomial._validate_args self
  /\ BetaBinomial._batch_shape self' = bs
  /\ h' = h.
Proof.
  unfold BetaBinomial.expand.
  destruct (Beta.expand _ _) as [new_beta|]; [|done]. rewrite bind_Ok.
  destruct (texpand_as _ _) as [tc|]; [|done]. rewrite bind_Ok.
  by intros [= <- <-].
Qed.

Lemma GammaPoisson_expand_fields (self : GammaPoisson.t) bs h self' h' :
  GammaPoisson.expand self bs h = Ok (self', h') ->
  GammaPoisson._unexpanded_params self' = GammaPoisson._unexpanded_params self
  /\ GammaPoisson._validate_args self' = GammaPoisson._validate_args self
  /\ GammaPoisson._batch_shape self' = bs
  /\ h' = h.
Proof.
  unfold GammaPoisson.expand.
  destruct (Gamma.expand _ _) as [new_gamma|]; [|done]. rewrite bind_Ok.
  by intros [= <- <-].
Qed.
End ExpandFields.

Section ExpandChains.
Context {Sc : Scalar}.

Lemma BetaBinomial_expand_chain_fields (self : BetaBinomial.t) shapes h self' h' :
  BetaBinomial.expand_chain self shapes h = Ok (self', h') ->
  BetaBinomial._unexpanded_params self' = BetaBinomial._unexpanded_params self
  /\ BetaBinomial._validate_args self' = BetaBinomial._validate_args self
  /\ h' = h.
Proof.
  revert self h. induction shapes as [|bs shapes IH]; intros self h; simpl.
  - by intros [= <- <-].
  - destruct (BetaBinomial.expand self bs h) as [[new h1]|] eqn:Hexp; [|done].
    intros Hchain. apply IH in Hchain as (-> & -> & ->).
    by apply BetaBinomial_expand_fields in Hexp as (-> & -> & _ & ->).
Qed.

Lemma GammaPoisson_expand_chain_fields (self : GammaPoisson.t) shapes h self' h' :
  GammaPoisson.expand_chain self shapes h = Ok (self', h') ->
  GammaPoisson._unexpanded_params self' = GammaPoisson._unexpanded_params self
  /\ GammaPoisson._validate_args self' = GammaPoisson._validate_args self
  /\ h' = h.
Proof.
  revert self h. induction shapes as [|bs shapes IH]; intros self h; simpl.
  - by intros [= <- <-].
  - destruct (GammaPoisson.expand self bs h) as [[new h1]|] eqn:Hexp; [|done].
    intros Hchain. apply IH in Hchain as (-> & -> & ->).
    by apply GammaPoisson_expand_fields in Hexp as (-> & -> & _ & ->).
Qed.

Lemma deref_app_new {V} (h : list (gmap string V)) (d : gmap string V) :
  deref (h ++ [d]) (length h) = d.
Proof. unfold deref. by rewrite list_lookup_middle. Qed.
End ExpandChains.

Section ExpandForall.
Context {A : Type} (P : A -> Prop).

Lemma Forall_chunks m n (d : list A) :
  Forall P d -> Forall (Forall P) (chunks m n d).
Proof.
  revert d. induction n as [|n IH]; intros d Hd; simpl; [constructor|].
  constructor; [by apply Forall_take|]. by apply IH, Forall_drop.
Qed.

Lemma Forall_expand_data src tgt (d : list A) :
  Forall P d -> Forall P (expand_data src tgt d).
Proof.
  revert tgt d. induction src as [|s src IH]; intros [|t tgt] d Hd; simpl; try done.
  case_decide.
  - apply Forall_concat, Forall_fmap.
    eapply Forall_impl; [by apply Forall_chunks|]. simpl. intros r Hr. by apply IH.
  - apply Forall_concat, Forall_replicate. by apply IH.
Qed.
End ExpandForall.

Lemma tall_expand_to (t : tensor bool) sh :
  tall t = true -> tall (expand_to sh t) = true.
Proof.
  unfold tall. rewrite !forallb_forall. intros Hall x Hx.
  apply list_elem_of_In in Hx.
  assert (Forall (fun b => id b = true) (tdata (expand_to sh t))) as Hf.
  { apply Forall_expand_data. apply Forall_forall. intros y Hy.
    by apply Hall, list_elem_of_In. }
  rewrite Forall_forall in Hf. by apply Hf.
Qed.

Section ExpandInvariance.
Context {Sc : Scalar}.

Lemma BetaBinomial_log_prob_Ok_in_support (self : BetaBinomial.t) value r :
  BetaBinomial.log_prob self value = Ok r ->
  BetaBinomial._validate_args self = true ->
  BetaBinomial.in_support self value.
Proof.
  unfold BetaBinomial.log_prob, BetaBinomial.in_support. intros Hlp Hva.
  rewrite Hva in Hlp.
  unfold _validate_sample in Hlp.
  destruct (broadcast_shapes _ _); [|done].
  destruct (integer_interval_check _ _) as [ok|]; [|done].
  rewrite bind_Ok in Hlp. exists ok. split; [done|].
  by destruct (tall ok).
Qed.

Lemma GammaPoisson_log_prob_Ok_in_support (self : GammaPoisson.t) value r :
  GammaPoisson.log_prob self value = Ok r ->
  GammaPoisson._validate_args self = true ->
  GammaPoisson.in_support value.
Proof.
  unfold GammaPoisson.log_prob, GammaPoisson.in_support. intros Hlp Hva.
  rewrite Hva in Hlp.
  unfold _validate_sample in Hlp.
  destruct (broadcast_shapes _ _); [|done].
  rewrite bind_Ok in Hlp. by destruct (tall _).
Qed.

Lemma BetaBinomial_in_support_expand (self : BetaBinomial.t) value bs out :
  wf value -> fits (BetaBinomial.total_count self) bs ->
  broadcast_shapes (tshape value) bs = Some out ->
  BetaBinomial.in_support self value ->
  exists ok, integer_interval_check
               (expand_to bs (BetaBinomial.total_count self)) value = Ok ok
             /\ tall ok = true.
Proof.
  intros Hwv Ht Hout (ok & Hok & Hall).
  pose proof (fits_expand_to _ _ Ht) as Ht'.
  destruct (broadcast_fits value (expand_to bs (BetaBinomial.total_count self))
              out Hwv (proj1 Ht') Hout) as [Hv Hte].
  assert (fits (BetaBinomial.total_count self) out) as Hto.
  { destruct Hte as (_ & Hl & He). by apply (fits_trans _ bs out). }
  unfold integer_interval_check in *.
  destruct (tmap2_fits (fun v n => is_integer v && leb (of_Z 0) v && leb v n)
              value _ out Hv Hto) as (ok0 & Hok0 & Hfok & _ & Hd0).
  rewrite Hok in Hok0. injection Hok0 as <-.
  destruct (tmap2_fits (fun v n => is_integer v && leb (of_Z 0) v && leb v n)
              value _ out Hv Hte) as (ok' & Hok' & (Hwok' & _) & Hsh' & Hd').
  exists ok'. split; [done|].
  simpl in Hsh'. rewrite Hout in Hsh'. injection Hsh' as Hsh'.
  assert (expand_to out ok' = ok') as Hid
    by (rewrite Hsh'; by apply expand_to_self).
  rewrite Hid in Hd'.
  destruct Hte as (_ & Hl & He).
  rewrite (expand_to_compose _ bs out) in Hd' by done.
  rewrite <- Hd0 in Hd'. unfold tall. rewrite Hd'.
  by apply tall_expand_to.
Qed.

(** [log_prob] on an expanded BetaBinomial is [log_prob] on the original,
    broadcast against the new batch shape. *)
Lemma BetaBinomial_expand_log_prob (self self' : BetaBinomial.t) bs h h'
    (value r : tensor elt) out :
  BetaBinomial.inv self -> wf value ->
  BetaBinomial.expand self bs h = Ok (self', h') ->
  broadcast_shapes (tshape value) bs = Some out ->
  BetaBinomial.log_prob self value = Ok r ->
  BetaBinomial.log_prob self' value = Ok (expand_to out r).
Proof.
  intros Hinv Hwv Hexp Hout Hlp.
  pose proof (BetaBinomial_expand_inv _ _ _ _ _ Hinv Hexp) as Hinv'.
  destruct (BetaBinomial_expand_spec _ _ _ _ _ Hinv Hexp) as (Ht & Hself' & _).
  pose proof Hinv as (Hs1 & Hs0 & Hst & Hw1 & Hw0 & Hwt).
  pose proof (fits_expand_to _ _ Ht) as Ht'.
  destruct (broadcast_fits value (expand_to bs (BetaBinomial.total_count self))
              out Hwv (proj1 Ht') Hout) as [Hv Hte].
  assert (Hbo : (length bs <= length out)%nat
                /\ expandable_dims (pad (length out) bs) out = true)
    by (destruct Hte as (_ & Hl & He); done).
  destruct Hbo as [Hl He].
  assert (fits (BetaBinomial.total_count self) out) as Hto
    by by apply (fits_trans _ bs out).
  assert (fits (BetaBinomial.concentration1 self) bs) as H1
    by (apply (fits_same_shape (BetaBinomial.total_count self)); [done|congruence|done]).
  assert (fits (BetaBinomial.concentration0 self) bs) as H0
    by (apply (fits_same_shape (BetaBinomial.total_count self)); [done|congruence|done]).
  (* the original, seen in the shape [out] *)
  destruct (BetaBinomial_log_prob_data self value out Hinv Hv Hto
              (BetaBinomial_log_prob_Ok_in_support _ _ _ Hlp))
    as (r0 & Hr0 & _ & _ & Hd0).
  rewrite Hlp in Hr0. injection Hr0 as <-.
  (* the expanded instance *)
  assert (fits (BetaBinomial.total_count self') out) as Hto'
    by by rewrite Hself'.
  assert (BetaBinomial._validate_args self' = true ->
          BetaBinomial.in_support self' value) as Hval'.
  { rewrite Hself'. simpl. intros Hva.
    apply (BetaBinomial_in_support_expand self value bs out); try done.
    by apply (BetaBinomial_log_prob_Ok_in_support _ _ r). }
  destruct (BetaBinomial_log_prob_data self' value out Hinv' Hv Hto' Hval')
    as (r' & -> & (Hwr' & _) & Hsh' & Hd').
  f_equal.
  assert (BetaBinomial._batch_shape self' = bs) as Hbs' by by rewrite Hself'.
  rewrite Hbs', Hout in Hsh'. injection Hsh' as Hsh'.
  assert (expand_to out r' = r') as Hid
    by (rewrite Hsh'; by apply expand_to_self).
  rewrite Hid in Hd'.
  rewrite Hself' in Hd'. unfold BetaBinomial.concentration1,
    BetaBinomial.concentration0 in Hd'.
  cbn [BetaBinomial.total_count BetaBinomial._beta Beta.concentration1
       Beta.concentration0] in Hd'.
  fold (BetaBinomial.concentration1 self) in Hd'.
  fold (BetaBinomial.concentration0 self) in Hd'.
  rewrite !(expand_to_compose _ bs out) in Hd' by done.
  rewrite <- Hd0 in Hd'. destruct r' as [sh' d']. simpl in *. by subst.
Qed.

(** The same for GammaPoisson. *)
Lemma GammaPoisson_expand_log_prob (self self' : GammaPoisson.t) bs h h'
    (value r : tensor elt) out :
  GammaPoisson.inv self -> wf value ->
  GammaPoisson.expand self bs h = Ok (self', h') ->
  broadcast_shapes (tshape value) bs = Some out ->
  GammaPoisson.log_prob self value = Ok r ->
  GammaPoisson.log_prob self' value = Ok (expand_to out r).
Proof.
  intros Hinv Hwv Hexp Hout Hlp.
  pose proof (GammaPoisson_expand_inv _ _ _ _ _ Hinv Hexp) as Hinv'.
  destruct (GammaPoisson_expand_spec _ _ _ _ _ Hinv Hexp) as (Hr & Hself' & _).
  pose proof Hinv as (Hsc & Hsr & Hwc & Hwr).
  pose proof (fits_expand_to _ _ Hr) as Hr'.
  destruct (broadcast_fits value (expand_to bs (GammaPoisson.rate self))
              out Hwv (proj1 Hr') Hout) as [Hv Hre].
  assert (Hbo : (length bs <= length out)%nat
                /\ expandable_dims (pad (length out) bs) out = true)
    by (destruct Hre as (_ & Hl & He); done).
  destruct Hbo as [Hl He].
  assert (fits (GammaPoisson.rate self) out) as Hro
    by by apply (fits_trans _ bs out).
  assert (fits (GammaPoisson.concentration self) bs) as Hc
    by (apply (fits_same_shape (GammaPoisson.rate self)); [done|congruence|done]).
  destruct (GammaPoisson_log_prob_data self value out Hinv Hv Hro
              (GammaPoisson_log_prob_Ok_in_support _ _ _ Hlp))
    as (r0 & Hr0 & _ & _ & Hd0).
  rewrite Hlp in Hr0. injection Hr0 as <-.
  assert (fits (GammaPoisson.rate self') out) as Hro'
    by by rewrite Hself'.
  assert (GammaPoisson._validate_args self' = true ->
          GammaPoisson.in_support value) as Hval'.
  { rewrite Hself'. simpl.
    by apply (GammaPoisson_log_prob_Ok_in_support _ _ r). }
  destruct (GammaPoisson_log_prob_data self' value out Hinv' Hv Hro' Hval')
    as (r' & -> & (Hwr' & _) & Hsh' & Hd').
  f_equal.
  assert (GammaPoisson._batch_shape self' = bs) as Hbs' by by rewrite Hself'.
  rewrite Hbs', Hout in Hsh'. injection Hsh' as Hsh'.
  assert (expand_to out r' = r') as Hid
    by (rewrite Hsh'; by apply expand_to_self).
  rewrite Hid in Hd'.
  rewrite Hself' in Hd'. unfold GammaPoisson.concentration,
    GammaPoisson.rate in Hd'.
  cbn [GammaPoisson._gamma Gamma.concentration Gamma.rate] in Hd'.
  fold (GammaPoisson.concentration self) in Hd'.
  fold (GammaPoisson.rate self) in Hd'.
  rewrite !(expand_to_compose _ bs out) in Hd' by done.
  rewrite <- Hd0 in Hd'. destruct r' as [sh' d']. simpl in *. by subst.
Qed.

(** The posterior reads the shared dictionary and the copied flag only. *)
Lemma BetaBinomial_expand_posterior (self self' : BetaBinomial.t) bs h h' obs :
  BetaBinomial.expand self bs h = Ok (self', h') ->
  forall Df : Defaults,
  BetaBinomial._posterior_latent_dist self' obs h'
  = BetaBinomial._posterior_latent_dist self obs h.
Proof.
  intros Hexp Df.
  apply BetaBinomial_expand_fields in Hexp as (Href & Hva & _ & ->).
  unfold BetaBinomial._posterior_latent_dist. by rewrite Href, Hva.
Qed.

Lemma GammaPoisson_expand_posterior (self self' : GammaPoisson.t) bs h h' obs :
  GammaPoisson.expand self bs h = Ok (self', h') ->
  forall Df : Defaults,
  GammaPoisson._posterior_latent_dist self' obs h'
  = GammaPoisson._posterior_latent_dist self obs h.
Proof.
  intros Hexp Df.
  apply GammaPoisson_expand_fields in Hexp as (Href & _ & _ & ->).
  unfold GammaPoisson._posterior_latent_dist. by rewrite Href.
Qed.
End ExpandInvariance.

Section EnumerateSupport.
Context {Sc : Scalar} (P : Z -> Prop) (Hexact : exact_ints P).

Lemma P_max a b : P a -> P b -> P (Z.max a b).
Proof. intros. destruct (Z.max_spec a b) as [[_ ->]|[_ ->]]; done. Qed.

Lemma P_min a b : P a -> P b -> P (Z.min a b).
Proof. intros. destruct (Z.min_spec a b) as [[_ ->]|[_ ->]]; done. Qed.

Lemma foldl_maximum_ints x l :
  P x -> Forall P l ->
  foldl maximum (of_Z x) (map of_Z l) = of_Z (foldl Z.max x l)
  /\ P (foldl Z.max x l).
Proof.
  intros Hx Hl. revert x Hx. induction Hl as [|y l Hy _ IH]; intros x Hx; simpl.
  - done.
  - rewrite (exact_maximum P Hexact) by done. apply IH. by apply P_max.
Qed.

Lemma foldl_minimum_ints x l :
  P x -> Forall P l ->
  foldl minimum (of_Z x) (map of_Z l) = of_Z (foldl Z.min x l)
  /\ P (foldl Z.min x l).
Proof.
  intros Hx Hl. revert x Hx. induction Hl as [|y l Hy _ IH]; intros x Hx; simpl.
  - done.
  - rewrite (exact_minimum P Hexact) by done. apply IH. by apply P_min.
Qed.



Lemma foldl_max_const n l :
  Forall (fun y => y = n) l -> foldl Z.max n l = n.
Proof. induction 1 as [|y l -> _ IH]; simpl; [done|]. by rewrite Z.max_id. Qed.

Lemma foldl_min_const n l :
  Forall (fun y => y = n) l -> foldl Z.min n l = n.
Proof. induction 1 as [|y l -> _ IH]; simpl; [done|]. by rewrite Z.min_id. Qed.
End EnumerateSupport.

Section ViewExpand.
Context {A : Type}.

Lemma filter_ones k :
  filter (fun z : Z => z ≠ -1) (replicate k 1) = replicate k 1.
Proof.
  induction k as [|k IH]; simpl; [done|].
  rewrite filter_cons_True by done. by rewrite IH.
Qed.

Lemma numel_to_nat_ones k : numel (map Z.to_nat (replicate k 1)) = 1%nat.
Proof.
  induction k as [|k IH]; simpl; [done|].
  fold (numel (map Z.to_nat (replicate k 1))). lia.
Qed.

(** [t.view((-1,) + (1,) * k)] of a one-dimensional tensor. *)
Lemma tview_column (d : list A) k :
  d ≠ [] ->
  tview (Tensor [length d] d) (-1 :: replicate k 1)
  = Ok (Tensor (length d :: replicate k 1%nat) d).
Proof.
  intros Hd. unfold tview. cbn [tdata].
  rewrite filter_cons_False by (intros Hne; by apply Hne).
  rewrite filter_ones, numel_to_nat_ones.
  rewrite bool_decide_eq_false_2.
  2:{ rewrite Exists_cons, Exists_exists. intros [?|(z & Hz & ?)]; [lia|].
      apply elem_of_replicate in Hz as [-> _]. lia. }
  rewrite bool_decide_eq_false_2
    by (simpl; rewrite length_replicate; lia).
  rewrite bool_decide_eq_true_2 by (simpl; by rewrite length_replicate).
  rewrite (bool_decide_eq_true_2 (1%nat ≠ 0%nat)) by done.
  rewrite bool_decide_eq_true_2 by apply Nat.mod_1_r.
  rewrite Nat.div_1_r. simpl. do 3 f_equal.
  clear Hd. induction k as [|k IH]; simpl; [done|]. by rewrite IH.
Qed.

Lemma expand_sizes_ones (bs : list nat) :
  expand_sizes 0 (replicate (length bs) 1%nat) (map Z.of_nat bs) = Some bs.
Proof.
  induction bs as [|b bs IH]; simpl; [done|].
  rewrite (proj2 (Z.eqb_neq (Z.of_nat b) (-1))) by lia.
  rewrite (proj2 (Z.leb_le 0 (Z.of_nat b))) by lia.
  rewrite Nat2Z.id.
  unfold expandable_dim at 1.
  rewrite (bool_decide_eq_true_2 (1%nat = 1%nat)) by done.
  rewrite orb_true_r. simpl. by rewrite IH.
Qed.

Lemma expand_data_ones_singleton (bs : list nat) (x : A) :
  expand_data (replicate (length bs) 1%nat) bs [x] = replicate (numel bs) x.
Proof.
  induction bs as [|b bs IH]; simpl; [done|].
  fold (numel bs). rewrite numel_ones. case_decide as Hb.
  - subst b. simpl. rewrite IH, app_nil_r. f_equal. lia.
  - rewrite IH. clear. induction b as [|b IHb]; simpl; [done|].
    by rewrite IHb, replicate_add.
Qed.

Lemma chunks_singletons (d : list A) :
  chunks 1 (length d) d = map (fun x => [x]) d.
Proof. induction d as [|x d IH]; simpl; [done|]. by rewrite drop_0, IH. Qed.

(** [t.expand((-1,) + batch_shape)] of a column. *)
Lemma texpand_column (d : list A) (bs : list nat) :
  texpand (Tensor (length d :: replicate (length bs) 1%nat) d)
          (-1 :: map Z.of_nat bs)
  = Ok (Tensor (length d :: bs)
          (concat (map (fun x => replicate (numel bs) x) d))).
Proof.
  unfold texpand, ndim. cbn [tshape tdata length].
  rewrite length_map, length_replicate.
  rewrite bool_decide_eq_false_2 by lia.
  rewrite Nat.sub_diag. cbn [expand_sizes]. cbn [Z.eqb Pos.eqb].
  rewrite expand_sizes_ones. cbn [fmap option_fmap option_map].
  unfold expand_to. cbn [tshape tdata]. do 2 f_equal.
  replace (length (length d :: bs)) with (length (length d :: replicate (length bs) 1%nat))
    by (simpl; by rewrite length_replicate).
  rewrite pad_self. cbn [expand_data]. rewrite decide_True by done.
  rewrite numel_ones, chunks_singletons, map_map. f_equal.
  apply map_ext. intros x. apply expand_data_ones_singleton.
Qed.
End ViewExpand.

Section EnumerateSupportCalls.
Context {Sc : Scalar} (P : Z -> Prop) (Hexact : exact_ints P).

Lemma concat_map_replicate_1 {A B} (f : A -> B) (l : list A) :
  concat (map (fun x => replicate 1 (f x)) l) = map f l.
Proof. induction l as [|x l IH]; simpl; [done|]. f_equal. exact IH. Qed.

(** [enumerate_support] on a batch whose entries of [total_count] are all
    the integer [n]. *)
Lemma enumerate_support_homogeneous (self : BetaBinomial.t) (expand : bool)
    (n : Z) (m : nat) :
  P n -> 0 <= n ->
  tdata (BetaBinomial.total_count self) = replicate (S m) (of_Z n) ->
  let rest := if expand then BetaBinomial._batch_shape self
              else replicate (length (BetaBinomial._batch_shape self)) 1%nat in
  BetaBinomial.enumerate_support self expand
  = Ok (Tensor (Z.to_nat (1 + n) :: rest) (support_rows n (numel rest))).
Proof.
  intros Hn Hpos Hdata rest. unfold BetaBinomial.enumerate_support.
  unfold tmax, tmin. rewrite Hdata. simpl replicate.
  assert (replicate m (of_Z n) = map of_Z (replicate m n)) as ->
    by (symmetry; apply (fmap_replicate of_Z m n)).
  destruct (foldl_maximum_ints P Hexact n (replicate m n) Hn) as [-> _];
    [by apply Forall_replicate|].
  destruct (foldl_minimum_ints P Hexact n (replicate m n) Hn) as [-> _];
    [by apply Forall_replicate|].
  rewrite foldl_max_const, foldl_min_const
    by (apply Forall_replicate; done).
  rewrite !bind_Ok, (exact_to_int P Hexact) by done. rewrite !bind_Ok.
  rewrite (exact_eqb P Hexact), bool_decide_eq_true_2 by done.
  cbn [negb]. unfold arange.
  rewrite (proj2 (Z.ltb_ge (1 + n) 0)) by lia. rewrite bind_Ok.
  set (d := map (fun i => of_Z (Z.of_nat i)) (seq 0 (Z.to_nat (1 + n)))).
  assert (length d = Z.to_nat (1 + n)) as Hlen
    by (unfold d; by rewrite length_map, length_seq).
  rewrite <- Hlen.
  rewrite tview_column by (intros ->; simpl in Hlen; lia).
  rewrite bind_Ok. unfold rest, support_rows. fold d. destruct expand.
  - rewrite texpand_column. do 2 f_equal. unfold d. by rewrite map_map.
  - do 2 f_equal. rewrite numel_ones. unfold d.
    by rewrite (concat_map_replicate_1 (fun i => of_Z (Z.of_nat i))).
Qed.

End EnumerateSupportCalls.

Section SupportRows.
Context {Sc : Scalar}.

Lemma rows_lookup {A} (f : nat -> A) (m s len k j : nat) :
  (k < len)%nat -> (j < m)%nat ->
  concat (map (fun i => replicate m (f i)) (seq s len)) !! (k * m + j)%nat
  = Some (f (s + k)%nat).
Proof.
  revert s k. induction len as [|len IH]; intros s k Hk Hj; [lia|]. simpl.
  destruct k as [|k].
  - rewrite lookup_app_l by (rewrite length_replicate; lia).
    rewrite Nat.add_0_r. simpl. by apply lookup_replicate_2.
  - rewrite lookup_app_r by (rewrite length_replicate; lia).
    rewrite length_replicate.
    replace (S k * m + j - m)%nat with (k * m + j)%nat by lia.
    rewrite IH by lia. f_equal. f_equal. lia.
Qed.

Lemma rows_length {A} (f : nat -> A) (m s len : nat) :
  length (concat (map (fun i => replicate m (f i)) (seq s len)))
  = (len * m)%nat.
Proof.
  revert s. induction len as [|len IH]; intros s; simpl; [done|].
  by rewrite length_app, length_replicate, IH.
Qed.

(** Row [k] of [support_rows n m] holds the integer [k], for [k] from 0
    to [n], and there is nothing else. *)
Lemma support_rows_spec (n : Z) (m : nat) :
  0 <= n ->
  length (support_rows n m) = (Z.to_nat (1 + n) * m)%nat
  /\ forall k j : nat, Z.of_nat k <= n -> (j < m)%nat ->
       support_rows n m !! (k * m + j)%nat = Some (of_Z (Z.of_nat k)).
Proof.
  intros Hn. unfold support_rows. split.
  - apply rows_length.
  - intros k j Hk Hj.
    by rewrite (rows_lookup (fun i => of_Z (Z.of_nat i))) by lia.
Qed.
End SupportRows.

Ltac small_int a Ha :=
  let H := fresh "H" in
  assert (a = 0 \/ a = 1 \/ a = 2 \/ a = 3 \/ a = 4 \/ a = 5 \/ a = 6
          \/ a = 7 \/ a = 8 \/ a = 9 \/ a = 10) as H by lia;
  clear Ha; repeat (destruct H as [->|H]); [..|subst a].

(** Binary32 represents the integers up to 10 exactly (it does so up to
    2^24; the small range is checked case by case). *)
Lemma float32_exact_small (lgamma log : spec_float -> spec_float) :
  exact_ints (Sc := Float32.scalar lgamma log) (fun z => 0 <= z <= 10).
Proof.
  split.
  - intros a Ha. small_int a Ha; reflexivity.
  - intros a b Ha Hb. small_int a Ha; small_int b Hb; reflexivity.
  - intros a b Ha Hb. small_int a Ha; small_int b Hb; reflexivity.
  - intros a b Ha Hb. small_int a Ha; small_int b Hb; reflexivity.
Qed.

Section PosteriorFacts.
Context {Sc : Scalar} {Df : Defaults}.

Lemma foldl_mul_numel (a : Z) (l : list nat) :
  foldl Z.mul a (map Z.of_nat l) = a * Z.of_nat (numel l).
Proof.
  revert a. induction l as [|x l IH]; intros a; simpl; [lia|].
  fold (numel l). rewrite IH. lia.
Qed.

Lemma reduce_mul_numel (l : list nat) :
  l ≠ [] -> reduce_mul l = Ok (Z.of_nat (numel l)).
Proof.
  destruct l as [|x l]; [done|]. intros _. simpl. fold (numel l).
  rewrite foldl_mul_numel. f_equal. lia.
Qed.

Lemma reduce_mul_nil : reduce_mul [] = Raise TypeError.
Proof. done. Qed.

(** Where the observations have leading dimensions and the parameters
    have a batch dimension, [BetaBinomial._posterior_latent_dist] is the
    conjugate update: Σobs is the sum over the [k] leading dimensions and
    the count is their product. *)
Lemma BetaBinomial_posterior_leading (self : BetaBinomial.t)
    (obs c1 c0 tc : tensor elt) h (k : nat) :
  let params := deref h (BetaBinomial._unexpanded_params self) in
  params !! "concentration1" = Some c1 ->
  params !! "concentration0" = Some c0 ->
  params !! "total_count" = Some tc ->
  (0 < ndim c1)%nat -> (0 < k)%nat -> ndim obs = (k + ndim c1)%nat ->
  BetaBinomial._posterior_latent_dist self obs h
  = (a ← tmap2 add c1 (sum_leading k obs);
     b ← tmap2 add
           (tmap (mul (of_Z (Z.of_nat (numel (take k (tshape obs)))))) tc) c0;
     b ← tmap2 sub b (sum_leading k obs);
     Beta.__init__ a b (Some (BetaBinomial._validate_args self))).
Proof.
  intros params H1 H0' Ht Hnd Hk Hobs.
  unfold BetaBinomial._posterior_latent_dist. fold params.
  unfold getitem. rewrite H1, H0', Ht. simpl of_option. rewrite !bind_Ok.
  unfold ndim in *.
  assert (slice_to (Z.of_nat (length (tshape obs))
                    - Z.of_nat (length (tshape c1))) (tshape obs)
          = take k (tshape obs)) as ->.
  { unfold slice_to. rewrite (proj2 (Z.ltb_ge _ 0)) by lia. f_equal. lia. }
  rewrite reduce_mul_numel.
  2:{ intros Hnil. apply (f_equal length) in Hnil.
      rewrite length_take in Hnil. simpl in Hnil. lia. }
  rewrite bind_Ok.
  assert (sum_leftmost obs (- Z.of_nat (length (tshape c1)))
          = sum_leading k obs) as ->.
  { unfold sum_leftmost, ndim.
    rewrite (proj2 (Z.ltb_lt _ 0)) by lia.
    rewrite (proj2 (Z.leb_gt _ 0)) by lia. f_equal. lia. }
  done.
Qed.

(** [GammaPoisson._posterior_latent_dist] counts the observations by the
    first [num_dims] dimensions of [obs], whatever its leading dimensions
    are. *)
Lemma GammaPoisson_posterior_first_dims (self : GammaPoisson.t)
    (obs c r : tensor elt) h :
  let params := deref h (GammaPoisson._unexpanded_params self) in
  params !! "concentration" = Some c ->
  params !! "rate" = Some r ->
  (0 < ndim c)%nat -> (0 < ndim obs)%nat ->
  GammaPoisson._posterior_latent_dist self obs h
  = (a ← tmap2 add c (sum_leftmost obs (- Z.of_nat (ndim c)));
     Gamma.__init__ a
       (tmap (fun x =>
                add x (of_Z (Z.of_nat (numel (take (ndim c) (tshape obs))))))
             r)
       None).
Proof.
  intros params Hc Hr Hnd Hobs.
  unfold GammaPoisson._posterior_latent_dist. fold params.
  unfold getitem. rewrite Hc, Hr. simpl of_option. rewrite !bind_Ok.
  unfold ndim in *.
  assert (slice_to (Z.of_nat (length (tshape c))) (tshape obs)
          = take (length (tshape c)) (tshape obs)) as ->.
  { unfold slice_to. rewrite (proj2 (Z.ltb_ge _ 0)) by lia.
    by rewrite Nat2Z.id. }
  rewrite reduce_mul_numel.
  2:{ intros Hnil. apply (f_equal length) in Hnil.
      rewrite length_take in Hnil. simpl in Hnil. lia. }
  by rewrite bind_Ok.
Qed.
End PosteriorFacts.

Section BetaBinomialMoments.
Context {Sc : Scalar}.

Ltac wf_data Hs1 Hs0 Hst :=
  first [ assumption
        | reflexivity
        | unfold wf, tmap; cbn [tdata tshape];
          repeat first [rewrite length_map | rewrite length_zip_with];
          rewrite ?Hs1, ?Hs0, ?Hst; lia ].

Lemma BetaBinomial_mean_data (self : BetaBinomial.t) :
  BetaBinomial.inv self ->
  BetaBinomial.mean self
  = Ok (Tensor (BetaBinomial._batch_shape self)
          (zip_with3 (fun a b n => mul (div a (add a b)) n)
             (tdata (BetaBinomial.concentration1 self))
             (tdata (BetaBinomial.concentration0 self))
             (tdata (BetaBinomial.total_count self)))).
Proof.
  intros (Hs1 & Hs0 & Hst & Hw1 & Hw0 & Hwt).
  unfold BetaBinomial.mean, Beta.mean.
  unfold BetaBinomial.concentration1, BetaBinomial.concentration0 in *.
  set (sh := BetaBinomial._batch_shape self) in *.
  unfold wf in Hw1, Hw0, Hwt. rewrite Hs1 in Hw1. rewrite Hs0 in Hw0.
  rewrite Hst in Hwt.
  repeat (rewrite (tmap2_same_shape _ _ _ sh) by wf_data Hs1 Hs0 Hst;
          rewrite ?bind_Ok).
  cbn [tdata]. do 2 f_equal. unfold zip_with3.
  apply list_eq. intros i.
  repeat first [rewrite lookup_zip_with | rewrite list_lookup_fmap].
  destruct (tdata (Beta.concentration1 (BetaBinomial._beta self)) !! i),
           (tdata (Beta.concentration0 (BetaBinomial._beta self)) !! i),
           (tdata (BetaBinomial.total_count self) !! i); done.
Qed.

Lemma BetaBinomial_variance_data (self : BetaBinomial.t) :
  BetaBinomial.inv self ->
  BetaBinomial.variance self
  = Ok (Tensor (BetaBinomial._batch_shape self)
          (zip_with3
             (fun a b n =>
                mul (mul (div (mul a b)
                              (mul (pow (add a b) 2)
                                   (add (add a b) (of_Z 1))))
                         n)
                    (add (add b a) n))
             (tdata (BetaBinomial.concentration1 self))
             (tdata (BetaBinomial.concentration0 self))
             (tdata (BetaBinomial.total_count self)))).
Proof.
  intros (Hs1 & Hs0 & Hst & Hw1 & Hw0 & Hwt).
  unfold BetaBinomial.variance, Beta.variance.
  unfold BetaBinomial.concentration1, BetaBinomial.concentration0 in *.
  set (sh := BetaBinomial._batch_shape self) in *.
  unfold wf in Hw1, Hw0, Hwt. rewrite Hs1 in Hw1. rewrite Hs0 in Hw0.
  rewrite Hst in Hwt.
  repeat (rewrite (tmap2_same_shape _ _ _ sh) by wf_data Hs1 Hs0 Hst;
          rewrite ?bind_Ok).
  cbn [tdata tmap]. do 2 f_equal. unfold zip_with3.
  apply list_eq. intros i.
  repeat first [rewrite lookup_zip_with | rewrite list_lookup_fmap].
  destruct (tdata (Beta.concentration1 (BetaBinomial._beta self)) !! i),
           (tdata (Beta.concentration0 (BetaBinomial._beta self)) !! i),
           (tdata (BetaBinomial.total_count self) !! i); done.
Qed.
End BetaBinomialMoments.

Section ExpandDecided.
Context {A : Type}.

Lemma expand_sizes_nat_complete k src sh :
  (k + length src)%nat = length sh ->
  expandable_dims (pad (length sh) src) sh = true ->
  expand_sizes k src (map Z.of_nat sh) = Some sh.
Proof.
  revert k src. induction sh as [|t sh IH]; intros k src Hlen Hexp; simpl in *.
  - destruct src; [done|]. simpl in Hlen. lia.
  - destruct k as [|k].
    + destruct src as [|s src]; [simpl in Hlen; lia|]. simpl in Hlen.
      rewrite pad_cons_eq in Hexp by lia. simpl in Hexp.
      apply andb_prop in Hexp as [Hst Hrest].
      rewrite (proj2 (Z.eqb_neq (Z.of_nat t) (-1))) by lia.
      rewrite (proj2 (Z.leb_le 0 (Z.of_nat t))) by lia.
      rewrite Nat2Z.id, Hst. simpl. by rewrite IH by (done || lia).
    + rewrite pad_cons_lt in Hexp by lia. simpl in Hexp.
      apply andb_prop in Hexp as [_ Hrest].
      rewrite (proj2 (Z.leb_le 0 (Z.of_nat t))) by lia.
      rewrite Nat2Z.id. by rewrite IH by (done || lia).
Qed.

(** [t.expand(sh)] for a shape of sizes: the expanded tensor when [sh] is a
    valid expansion of the shape of [t], a RuntimeError otherwise. *)
Lemma texpand_decided (t : tensor A) sh :
  texpand t (map Z.of_nat sh)
  = if expandable (tshape t) sh then Ok (expand_to sh t)
    else Raise RuntimeError.
Proof.
  unfold expandable.
  destruct (texpand t (map Z.of_nat sh)) as [t'|e] eqn:Ht.
  - apply texpand_nat in Ht as (-> & Hlen & Hexp).
    by rewrite bool_decide_eq_true_2, Hexp.
  - unfold texpand, ndim in Ht. rewrite length_map in Ht.
    case_bool_decide as Hlen.
    + injection Ht as <-. by rewrite bool_decide_eq_false_2 by lia.
    + rewrite bool_decide_eq_true_2 by lia. simpl.
      destruct (expandable_dims _ _) eqn:Hexp.
      * rewrite expand_sizes_nat_complete in Ht by (done || lia). done.
      * destruct (expand_sizes _ _ _); [done|]. by injection Ht as <-.
Qed.
End ExpandDecided.

Section ExpandDecidedDist.
Context {Sc : Scalar}.

Lemma fits_expandable {A} (t : tensor A) sh :
  fits t sh <-> wf t /\ expandable (tshape t) sh = true.
Proof.
  unfold fits, expandable. rewrite andb_true_iff, bool_decide_eq_true. tauto.
Qed.

Lemma expandable_trans a b c :
  expandable a b = true -> expandable b c = true -> expandable a c = true.
Proof.
  intros Hab Hbc.
  assert (fits (Tensor a (replicate (numel a) tt)) b) as Hf.
  { apply fits_expandable. split; [|done]. unfold wf. simpl.
    by rewrite length_replicate. }
  unfold expandable in Hbc. apply andb_prop in Hbc as [Hl He].
  apply bool_decide_eq_true in Hl.
  pose proof (fits_trans _ b c Hf Hl He) as Hc.
  by apply fits_expandable in Hc as [_ Hc].
Qed.

Lemma expandable_refl a : expandable a a = true.
Proof.
  unfold expandable. rewrite bool_decide_eq_true_2 by done.
  rewrite pad_self. apply expandable_dims_refl.
Qed.

(** [BetaBinomial.expand] succeeds exactly on the valid expansions of the
    batch shape, and then expands the three parameters. *)
Lemma BetaBinomial_expand_decided (self : BetaBinomial.t) bs h :
  tshape (BetaBinomial.concentration1 self) = BetaBinomial._batch_shape self ->
  tshape (BetaBinomial.concentration0 self) = BetaBinomial._batch_shape self ->
  tshape (BetaBinomial.total_count self) = BetaBinomial._batch_shape self ->
  BetaBinomial.expand self bs h
  = if expandable (BetaBinomial._batch_shape self) bs
    then Ok (BetaBinomial.Make
               (Beta.Make (expand_to bs (BetaBinomial.concentration1 self))
                  (expand_to bs (BetaBinomial.concentration0 self)) bs
                  (Beta._validate_args (BetaBinomial._beta self)))
               (BetaBinomial._unexpanded_params self)
               (expand_to bs (BetaBinomial.total_count self)) bs
               (BetaBinomial._validate_args self), h)
    else Raise RuntimeError.
Proof.
  unfold BetaBinomial.concentration1, BetaBinomial.concentration0.
  intros Hs1 Hs0 Hst.
  unfold BetaBinomial.expand, Beta.expand, texpand_as.
  rewrite !texpand_decided, Hs1, Hs0.
  destruct (expandable (BetaBinomial._batch_shape self) bs) eqn:Hexp; [|done].
  rewrite !bind_Ok. cbn [Beta.concentration0 expand_to tshape].
  by rewrite texpand_decided, Hst, Hexp.
Qed.

Lemma GammaPoisson_expand_decided (self : GammaPoisson.t) bs h :
  tshape (GammaPoisson.concentration self) = GammaPoisson._batch_shape self ->
  tshape (GammaPoisson.rate self) = GammaPoisson._batch_shape self ->
  GammaPoisson.expand self bs h
  = if expandable (GammaPoisson._batch_shape self) bs
    then Ok (GammaPoisson.Make
               (Gamma.Make (expand_to bs (GammaPoisson.concentration self))
                  (expand_to bs (GammaPoisson.rate self)) bs
                  (Gamma._validate_args (GammaPoisson._gamma self)))
               (GammaPoisson._unexpanded_params self) bs
               (GammaPoisson._validate_args self), h)
    else Raise RuntimeError.
Proof.
  unfold GammaPoisson.concentration, GammaPoisson.rate.
  intros Hsc Hsr.
  unfold GammaPoisson.expand, Gamma.expand.
  rewrite !texpand_decided, Hsc, Hsr.
  by destruct (expandable (GammaPoisson._batch_shape self) bs) eqn:Hexp.
Qed.
End ExpandDecidedDist.

Section ConstructorsDecided.
Context {Sc : Scalar} {Df : Defaults}.

Lemma Beta_init_decided (a b : tensor elt) va :
  tshape b = tshape a -> wf a -> wf b ->
  Beta.__init__ a b va
  = if (default_validate_args || resolve_validate_args va)
       && negb (forallb tall [positive_check a; positive_check b])
    then Raise ValueError
    else Ok (Beta.Make a b (tshape a) (resolve_validate_args va)).
Proof.
  intros Hb Hwa Hwb. unfold Beta.__init__.
  rewrite (broadcast_all_same a b (tshape a)) by done. rewrite bind_Ok.
  unfold validate_params. by destruct (_ && _).
Qed.

Lemma Gamma_init_decided (a b : tensor elt) va :
  tshape b = tshape a -> wf a -> wf b ->
  Gamma.__init__ a b va
  = if resolve_validate_args va
       && negb (forallb tall [positive_check a; positive_check b])
    then Raise ValueError
    else Ok (Gamma.Make a b (tshape a) (resolve_validate_args va)).
Proof.
  intros Hb Hwa Hwb. unfold Gamma.__init__.
  rewrite (broadcast_all_same a b (tshape a)) by done. rewrite bind_Ok.
  unfold validate_params. by destruct (_ && _).
Qed.

Lemma broadcast_all_3_Some (a b c : tensor elt) sh :
  broadcast_shapes (tshape b) (tshape a) ≫= broadcast_shapes (tshape c)
  = Some sh ->
  broadcast_all [a; b; c] = Ok [expand_to sh a; expand_to sh b; expand_to sh c].
Proof.
  unfold broadcast_all. simpl. rewrite broadcast_shapes_nil_r. simpl.
  by intros ->.
Qed.

Lemma broadcast_all_3_None (a b c : tensor elt) :
  broadcast_shapes (tshape b) (tshape a) ≫= broadcast_shapes (tshape c)
  = None ->
  broadcast_all [a; b; c] = Raise RuntimeError.
Proof.
  unfold broadcast_all. simpl. rewrite broadcast_shapes_nil_r. simpl.
  by intros ->.
Qed.

Lemma broadcast_all_2_Some (a b : tensor elt) sh :
  broadcast_shapes (tshape b) (tshape a) = Some sh ->
  broadcast_all [a; b] = Ok [expand_to sh a; expand_to sh b].
Proof.
  unfold broadcast_all. simpl. rewrite broadcast_shapes_nil_r. simpl.
  by intros ->.
Qed.

Lemma broadcast_all_2_None (a b : tensor elt) :
  broadcast_shapes (tshape b) (tshape a) = None ->
  broadcast_all [a; b] = Raise RuntimeError.
Proof.
  unfold broadcast_all. simpl. rewrite broadcast_shapes_nil_r. simpl.
  by intros ->.
Qed.

(** What [BetaBinomial.__init__] does on parameters that broadcast to the
    shape [sh]. *)
Lemma BetaBinomial_init_decided (c1 c0 tc : tensor elt) va h sh :
  wf c1 -> wf c0 -> wf tc ->
  broadcast_shapes (tshape c0) (tshape c1) ≫= broadcast_shapes (tshape tc)
  = Some sh ->
  BetaBinomial.__init__ c1 c0 tc va h
  = if default_validate_args
       && negb (forallb tall [positive_check (expand_to sh c1);
                              positive_check (expand_to sh c0)])
    then Raise ValueError
    else if resolve_validate_args va
            && negb (forallb tall
                       [positive_check (expand_to sh c1);
                        positive_check (expand_to sh c0);
                        nonnegative_integer_check (expand_to sh tc)])
    then Raise ValueError
    else Ok (BetaBinomial.Make
               (Beta.Make (expand_to sh c1) (expand_to sh c0) sh
                  default_validate_args)
               (length h) (expand_to sh tc) sh (resolve_validate_args va),
             h ++ [ <["concentration1" := expand_to sh c1]>
                    (<["concentration0" := expand_to sh c0]>
                    (<["total_count" := expand_to sh tc]> ∅)) ]).
Proof.
  intros Hw1 Hw0 Hwt Hsh. unfold BetaBinomial.__init__.
  pose proof (broadcast_all_3_Some c1 c0 tc sh Hsh) as Hall.
  destruct (broadcast_all_3 _ _ _ _ Hw1 Hw0 Hwt Hall)
    as (sh' & Heq & H1 & H0' & Ht).
  assert (sh' = sh) as ->
    by (apply (f_equal (fun l => tshape <$> head l)) in Heq;
        simpl in Heq; congruence).
  rewrite Hall, bind_Ok.
  rewrite Beta_init_decided; [|done|apply fits_expand_to; done..].
  change (resolve_validate_args None) with default_validate_args.
  rewrite orb_diag.
  destruct (default_validate_args && _); [done|].
  rewrite bind_Ok. cbv zeta. unfold validate_params.
  cbn [Beta.concentration1 Beta.concentration0 Beta._batch_shape expand_to tshape].
  by destruct (resolve_validate_args va && _).
Qed.

Lemma GammaPoisson_init_decided (c r : tensor elt) va h sh :
  wf c -> wf r ->
  broadcast_shapes (tshape r) (tshape c) = Some sh ->
  GammaPoisson.__init__ c r va h
  = if (default_validate_args || resolve_validate_args va)
       && negb (forallb tall [positive_check (expand_to sh c);
                              positive_check (expand_to sh r)])
    then Raise ValueError
    else Ok (GammaPoisson.Make
               (Gamma.Make (expand_to sh c) (expand_to sh r) sh
                  default_validate_args)
               (length h) sh (resolve_validate_args va),
             h ++ [ <["concentration" := expand_to sh c]>
                    (<["rate" := expand_to sh r]> ∅) ]).
Proof.
  intros Hwc Hwr Hsh. unfold GammaPoisson.__init__.
  pose proof (broadcast_all_2_Some c r sh Hsh) as Hall.
  destruct (broadcast_all_2 _ _ _ Hwc Hwr Hall) as (sh' & Heq & Hc & Hr).
  assert (sh' = sh) as ->
    by (apply (f_equal (fun l => tshape <$> head l)) in Heq;
        simpl in Heq; congruence).
  rewrite Hall, bind_Ok.
  rewrite Gamma_init_decided; [|done|apply fits_expand_to; done..].
  change (resolve_validate_args None) with default_validate_args.
  unfold validate_params.
  cbn [Gamma.concentration Gamma.rate Gamma._batch_shape expand_to tshape].
  destruct (forallb tall [positive_check (expand_to sh c);
                          positive_check (expand_to sh r)]) eqn:Hchk;
    destruct default_validate_args, (resolve_validate_args va);
    cbn [andb orb negb]; rewrite ?bind_Ok;
    cbn [Gamma.concentration Gamma.rate Gamma._batch_shape];
    rewrite ?Hchk; done.
Qed.
End ConstructorsDecided.

Section LogProbErrors.
Context {Sc : Scalar}.

Lemma broadcast_shapes_None_sym a b :
  broadcast_shapes a b = None -> broadcast_shapes b a = None.
Proof.
  intros Hab. destruct (broadcast_shapes b a) as [c|] eqn:Hba; [|done].
  apply broadcast_shapes_Some in Hba as (_ & _ & _ & _ & _ & Hab').
  congruence.
Qed.

(** A value whose shape does not broadcast against the batch shape. *)
Lemma BetaBinomial_log_prob_shape_error (self : BetaBinomial.t) value :
  tshape (BetaBinomial.total_count self) = BetaBinomial._batch_shape self ->
  broadcast_shapes (tshape value) (BetaBinomial._batch_shape self) = None ->
  BetaBinomial.log_prob self value
  = Raise (if BetaBinomial._validate_args self then ValueError
           else RuntimeError).
Proof.
  intros Hst Hnone. unfold BetaBinomial.log_prob.
  destruct (BetaBinomial._validate_args self).
  - unfold _validate_sample. by rewrite Hnone.
  - rewrite bind_Ok. cbv zeta.
    rewrite (tmap2_Raise sub (BetaBinomial.total_count self) value); [done|].
    rewrite Hst. by apply broadcast_shapes_None_sym.
Qed.

Lemma GammaPoisson_log_prob_shape_error (self : GammaPoisson.t) value :
  tshape (GammaPoisson.concentration self) = GammaPoisson._batch_shape self ->
  broadcast_shapes (tshape value) (GammaPoisson._batch_shape self) = None ->
  GammaPoisson.log_prob self value
  = Raise (if GammaPoisson._validate_args self then ValueError
           else RuntimeError).
Proof.
  intros Hsc Hnone. unfold GammaPoisson.log_prob.
  destruct (GammaPoisson._validate_args self).
  - unfold _validate_sample. by rewrite Hnone.
  - rewrite bind_Ok.
    rewrite (tmap2_Raise add (GammaPoisson.concentration self) value); [done|].
    rewrite Hsc. by apply broadcast_shapes_None_sym.
Qed.

(** A value outside the support, with validation enabled. *)
Lemma BetaBinomial_log_prob_support_error (self : BetaBinomial.t) value sh :
  tshape (BetaBinomial.total_count self) = BetaBinomial._batch_shape self ->
  BetaBinomial._validate_args self = true ->
  broadcast_shapes (tshape value) (BetaBinomial._batch_shape self) = Some sh ->
  ~ BetaBinomial.in_support self value ->
  BetaBinomial.log_prob self value = Raise ValueError.
Proof.
  intros Hst Hva Hsh Hnot. unfold BetaBinomial.log_prob. rewrite Hva.
  unfold _validate_sample. rewrite Hsh.
  unfold BetaBinomial.in_support, integer_interval_check in *.
  rewrite (tmap2_Ok _ value (BetaBinomial.total_count self) sh) in *
    by by rewrite Hst.
  rewrite bind_Ok.
  destruct (tall _) eqn:Hall; [|done].
  exfalso. apply Hnot. eexists. split; [done|]. exact Hall.
Qed.

Lemma GammaPoisson_log_prob_support_error (self : GammaPoisson.t) value sh :
  GammaPoisson._validate_args self = true ->
  broadcast_shapes (tshape value) (GammaPoisson._batch_shape self) = Some sh ->
  ~ GammaPoisson.in_support value ->
  GammaPoisson.log_prob self value = Raise ValueError.
Proof.
  intros Hva Hsh Hnot. unfold GammaPoisson.log_prob. rewrite Hva.
  unfold _validate_sample. rewrite Hsh, bind_Ok.
  unfold GammaPoisson.in_support in Hnot.
  by destruct (tall _).
Qed.
End LogProbErrors.

Section PosteriorResults.
Context {Sc : Scalar} {Df : Defaults}.

Lemma tmap2_exn {A B C} (f : A -> B -> C) a b e :
  tmap2 f a b = Raise e -> e = RuntimeError.
Proof. unfold tmap2. destruct (broadcast_shapes _ _); [done|]. by intros [= <-]. Qed.

Lemma reduce_mul_exn l e : reduce_mul l = Raise e -> e = TypeError.
Proof. destruct l; [|done]. by intros [= <-]. Qed.

Lemma broadcast_all_exn (l : list (tensor elt)) e :
  broadcast_all l = Raise e -> e = RuntimeError.
Proof.
  unfold broadcast_all. destruct (foldl _ _ _); [done|]. by intros [= <-].
Qed.

Lemma validate_params_exn enabled checks e :
  validate_params enabled checks = Raise e -> e = ValueError.
Proof. unfold validate_params. destruct (_ && _); [|done]. by intros [= <-]. Qed.

Lemma Beta_init_exn (a b : tensor elt) va e :
  Beta.__init__ a b va = Raise e -> e = RuntimeError \/ e = ValueError.
Proof.
  unfold Beta.__init__.
  destruct (broadcast_all _) as [l|e'] eqn:Hl.
  - rewrite bind_Ok. destruct l as [|x [|y [|z l]]]; try (intros [= <-]; by right).
    destruct (validate_params _ _) as [|e'] eqn:Hv; [done|].
    apply validate_params_exn in Hv as ->. intros [= <-]. by right.
  - apply broadcast_all_exn in Hl as ->. intros [= <-]. by left.
Qed.

Lemma Gamma_init_exn (a b : tensor elt) va e :
  Gamma.__init__ a b va = Raise e -> e = RuntimeError \/ e = ValueError.
Proof.
  unfold Gamma.__init__.
  destruct (broadcast_all _) as [l|e'] eqn:Hl.
  - rewrite bind_Ok. destruct l as [|x [|y [|z l]]]; try (intros [= <-]; by right).
    destruct (validate_params _ _) as [|e'] eqn:Hv; [done|].
    apply validate_params_exn in Hv as ->. intros [= <-]. by right.
  - apply broadcast_all_exn in Hl as ->. intros [= <-]. by left.
Qed.

(** What a successful [Beta(...)] guarantees. *)
Lemma Beta_init_Ok (a b : tensor elt) va beta :
  Beta.__init__ a b va = Ok beta ->
  Beta._validate_args beta = resolve_validate_args va
  /\ (default_validate_args || resolve_validate_args va = true ->
      tall (positive_check (Beta.concentration1 beta)) = true
      /\ tall (positive_check (Beta.concentration0 beta)) = true).
Proof.
  unfold Beta.__init__.
  destruct (broadcast_all _) as [l|]; [|done]. rewrite bind_Ok.
  destruct l as [|x [|y [|z l]]]; try done.
  unfold validate_params.
  destruct (default_validate_args || resolve_validate_args va) eqn:Hflag.
  - simpl. destruct (tall (positive_check x)) eqn:Hx,
                      (tall (positive_check y)) eqn:Hy; simpl; try done.
    intros [= <-]. simpl. by rewrite Hx, Hy.
  - simpl. by intros [= <-].
Qed.

Lemma Gamma_init_Ok (a b : tensor elt) va gamma :
  Gamma.__init__ a b va = Ok gamma ->
  Gamma._validate_args gamma = resolve_validate_args va
  /\ (resolve_validate_args va = true ->
      tall (positive_check (Gamma.concentration gamma)) = true
      /\ tall (positive_check (Gamma.rate gamma)) = true).
Proof.
  unfold Gamma.__init__.
  destruct (broadcast_all _) as [l|]; [|done]. rewrite bind_Ok.
  destruct l as [|x [|y [|z l]]]; try done.
  unfold validate_params.
  destruct (resolve_validate_args va) eqn:Hflag.
  - simpl. destruct (tall (positive_check x)) eqn:Hx,
                      (tall (positive_check y)) eqn:Hy; simpl; try done.
    intros [= <-]. simpl. by rewrite Hx, Hy.
  - simpl. by intros [= <-].
Qed.

(** The last step of [BetaBinomial._posterior_latent_dist] is the [Beta]
    constructor, called with the instance's validation flag. *)
Lemma BetaBinomial_posterior_Ok (self : BetaBinomial.t) obs h beta :
  BetaBinomial._posterior_latent_dist self obs h = Ok beta ->
  exists a b, Beta.__init__ a b (Some (BetaBinomial._validate_args self))
              = Ok beta.
Proof.
  unfold BetaBinomial._posterior_latent_dist.
  destruct (getitem _ "concentration1") as [c1|]; [|done]. rewrite bind_Ok.
  destruct (getitem _ "concentration0") as [c0|]; [|done]. rewrite bind_Ok.
  destruct (getitem _ "total_count") as [tc|]; [|done]. rewrite bind_Ok.
  destruct (reduce_mul _); [|done]. rewrite bind_Ok.
  destruct (tmap2 add c1 _) as [x1|]; [|done]. rewrite bind_Ok.
  destruct (tmap2 add _ c0) as [x2|]; [|done]. rewrite bind_Ok.
  destruct (tmap2 sub x2 _) as [x3|]; [|done]. rewrite bind_Ok.
  intros Hb. by exists x1, x3.
Qed.

Lemma GammaPoisson_posterior_Ok (self : GammaPoisson.t) obs h gamma :
  GammaPoisson._posterior_latent_dist self obs h = Ok gamma ->
  exists a b, Gamma.__init__ a b None = Ok gamma.
Proof.
  unfold GammaPoisson._posterior_latent_dist.
  destruct (getitem _ "concentration") as [c|]; [|done]. rewrite bind_Ok.
  destruct (getitem _ "rate") as [r|]; [|done]. rewrite bind_Ok.
  destruct (reduce_mul _); [|done]. rewrite bind_Ok.
  destruct (tmap2 add c _) as [x1|]; [|done]. rewrite bind_Ok.
  intros Hg. by eexists x1, _.
Qed.

(** The exceptions of [BetaBinomial._posterior_latent_dist] once the three
    dictionary entries are there. *)
Lemma BetaBinomial_posterior_exn (self : BetaBinomial.t) obs h c1 c0 tc e :
  let params := deref h (BetaBinomial._unexpanded_params self) in
  params !! "concentration1" = Some c1 ->
  params !! "concentration0" = Some c0 ->
  params !! "total_count" = Some tc ->
  BetaBinomial._posterior_latent_dist self obs h = Raise e ->
  e = TypeError \/ e = RuntimeError \/ e = ValueError.
Proof.
  intros params H1 H0' Ht. unfold BetaBinomial._posterior_latent_dist.
  fold params. unfold getitem. rewrite H1, H0', Ht. simpl of_option.
  rewrite !bind_Ok.
  destruct (reduce_mul _) as [n|e'] eqn:Hn.
  2:{ apply reduce_mul_exn in Hn as ->. intros [= <-]. by left. }
  rewrite bind_Ok.
  destruct (tmap2 add c1 _) as [a|e'] eqn:Ha.
  2:{ apply tmap2_exn in Ha as ->. intros [= <-]. right. by left. }
  rewrite bind_Ok.
  destruct (tmap2 add _ c0) as [b|e'] eqn:Hb.
  2:{ apply tmap2_exn in Hb as ->. intros [= <-]. right. by left. }
  rewrite bind_Ok.
  destruct (tmap2 sub b _) as [b'|e'] eqn:Hb'.
  2:{ apply tmap2_exn in Hb' as ->. intros [= <-]. right. by left. }
  rewrite bind_Ok. intros [->| ->]%Beta_init_exn; tauto.
Qed.

Lemma GammaPoisson_posterior_exn (self : GammaPoisson.t) obs h c r e :
  let params := deref h (GammaPoisson._unexpanded_params self) in
  params !! "concentration" = Some c ->
  params !! "rate" = Some r ->
  GammaPoisson._posterior_latent_dist self obs h = Raise e ->
  e = TypeError \/ e = RuntimeError \/ e = ValueError.
Proof.
  intros params Hc Hr. unfold GammaPoisson._posterior_latent_dist.
  fold params. unfold getitem. rewrite Hc, Hr. simpl of_option.
  rewrite !bind_Ok.
  destruct (reduce_mul _) as [n|e'] eqn:Hn.
  2:{ apply reduce_mul_exn in Hn as ->. intros [= <-]. by left. }
  rewrite bind_Ok.
  destruct (tmap2 add c _) as [a|e'] eqn:Ha.
  2:{ apply tmap2_exn in Ha as ->. intros [= <-]. right. by left. }
  rewrite bind_Ok. intros [->| ->]%Gamma_init_exn; tauto.
Qed.
End PosteriorResults.

Section EnumerateThenLogProb.
Context {Sc : Scalar} (P : Z -> Prop)
        (Hexact : exact_ints P) (Horder : exact_order P).

Lemma bdims_ones_l (bs : list nat) :
  bdims (replicate (length bs) 1%nat) bs = Some bs.
Proof.
  induction bs as [|b bs IH]; simpl; [done|]. rewrite IH.
  unfold bdim. repeat case_decide; congruence.
Qed.

Lemma broadcast_shapes_column (N : nat) (bs : list nat) :
  broadcast_shapes (N :: replicate (length bs) 1%nat) bs = Some (N :: bs).
Proof.
  unfold broadcast_shapes. simpl. rewrite length_replicate.
  replace (S (length bs) `max` length bs)%nat with (S (length bs)) by lia.
  rewrite pad_cons_eq by by rewrite length_replicate.
  rewrite pad_cons_lt by lia.
  rewrite <- (length_replicate (length bs) 1%nat) at 1. rewrite !pad_self.
  simpl. rewrite bdims_ones_l.
  unfold bdim. repeat case_decide; congruence.
Qed.

Lemma broadcast_shapes_cons_batch (N : nat) (bs : list nat) :
  broadcast_shapes (N :: bs) bs = Some (N :: bs).
Proof.
  apply (broadcast_shapes_expandable bs (N :: bs)); simpl; [lia|].
  rewrite pad_cons_lt by lia. rewrite pad_self. simpl.
  rewrite expandable_dims_refl.
  unfold expandable_dim. by rewrite (bool_decide_eq_true_2 (1%nat = 1%nat)), orb_true_r.
Qed.

Lemma forallb_zip_with {A B} (f : A -> B -> bool) (Q : A -> Prop)
    (R : B -> Prop) xs ys :
  Forall Q xs -> Forall R ys ->
  (forall x y, Q x -> R y -> f x y = true) ->
  forallb id (zip_with f xs ys) = true.
Proof.
  intros Hx. revert ys. induction Hx as [|x xs Hqx _ IH]; intros ys Hy Hf;
    [done|].
  destruct Hy as [|y ys Hry Hys]; [done|]. simpl.
  rewrite (Hf x y) by done. by apply IH.
Qed.

Lemma support_rows_Forall (n : Z) (m : nat) :
  Forall (fun x => exists k, 0 <= k <= n /\ x = of_Z k) (support_rows n m).
Proof.
  unfold support_rows. apply Forall_concat, Forall_fmap, Forall_forall.
  intros i Hi. apply elem_of_seq in Hi. simpl.
  apply Forall_replicate. exists (Z.of_nat i). split; [lia|done].
Qed.

(** Every value that [enumerate_support] lists passes the validation of
    [log_prob], which returns a tensor of shape (n+1,) + batch_shape on
    them. *)
Lemma enumerate_support_log_prob (self : BetaBinomial.t) (expand : bool)
    (n : Z) (m : nat) :
  BetaBinomial.inv self ->
  (forall k, 0 <= k <= n -> P k) -> 0 <= n ->
  tdata (BetaBinomial.total_count self) = replicate (S m) (of_Z n) ->
  exists values r,
    BetaBinomial.enumerate_support self expand = Ok values
    /\ BetaBinomial.in_support self values
    /\ BetaBinomial.log_prob self values = Ok r
    /\ tshape r = Z.to_nat (1 + n) :: BetaBinomial._batch_shape self.
Proof.
  intros Hinv HP Hn Hdata.
  pose proof Hinv as (Hs1 & Hs0 & Hst & Hw1 & Hw0 & Hwt).
  set (bs := BetaBinomial._batch_shape self) in *.
  set (N := Z.to_nat (1 + n)).
  pose proof (enumerate_support_homogeneous P Hexact self expand n m
                (HP n ltac:(lia)) Hn Hdata) as Henum.
  cbv zeta in Henum. fold bs N in Henum.
  set (rest := if expand then bs else replicate (length bs) 1%nat) in *.
  set (values := Tensor (N :: rest) (support_rows n (numel rest))) in *.
  assert (wf values) as Hwv.
  { unfold wf, values. simpl. fold (numel rest).
    by destruct (support_rows_spec n (numel rest) Hn) as [-> _]. }
  assert (broadcast_shapes (tshape values) bs = Some (N :: bs)) as Hsh.
  { unfold values, rest. simpl. destruct expand.
    - apply broadcast_shapes_cons_batch.
    - apply broadcast_shapes_column. }
  assert (broadcast_shapes (tshape values)
            (tshape (BetaBinomial.total_count self)) = Some (N :: bs)) as Hsh'
    by (rewrite Hst; exact Hsh).
  destruct (broadcast_fits _ _ _ Hwv Hwt Hsh') as [Hfv Hft].
  assert (BetaBinomial.in_support self values) as Hsup.
  { unfold BetaBinomial.in_support, integer_interval_check.
    rewrite (tmap2_Ok _ values (BetaBinomial.total_count self) (N :: bs) Hsh').
    eexists. split; [done|]. unfold tall. cbn [tdata].
    eapply (forallb_zip_with _
              (fun x => exists k, 0 <= k <= n /\ x = of_Z k)
              (fun y => y = of_Z n)).
    - apply Forall_expand_data, support_rows_Forall.
    - apply Forall_expand_data. rewrite Hdata. by apply Forall_replicate.
    - intros x y (k & Hk & ->) ->.
      rewrite (exact_is_integer P Horder) by (apply HP; lia).
      rewrite !(exact_leb P Horder) by (apply HP; lia).
      by rewrite !bool_decide_eq_true_2 by lia. }
  destruct (BetaBinomial_log_prob_data self values (N :: bs) Hinv Hfv Hft
              (fun _ => Hsup)) as (r & Hr & _ & Hshr & _).
  exists values, r. split; [done|]. split; [done|]. split; [done|].
  fold bs in Hshr. rewrite Hsh in Hshr. by injection Hshr as <-.
Qed.
End EnumerateThenLogProb.

(** Binary32 orders the integers up to 10 as the integers are ordered. *)
Lemma float32_order_small (lgamma log : spec_float -> spec_float) :
  exact_order (Sc := Float32.scalar lgamma log) (fun z => 0 <= z <= 10).
Proof.
  split.
  - intros a b Ha Hb. small_int a Ha; small_int b Hb; reflexivity.
  - intros a Ha. small_int a Ha; reflexivity.
Qed.

Section MomentsOfExpanded.
Context {A B C D : Type}.

(** Expanding an element-wise result is the element-wise result of the
    expanded operands. *)
Lemma expand_to_zip_with (f : A -> B -> C) sh s (a : tensor A) (b : tensor B) :
  tshape a = s -> tshape b = s -> wf a -> wf b ->
  expandable_dims (pad (length sh) s) sh = true ->
  expand_to sh (Tensor s (zip_with f (tdata a) (tdata b)))
  = Tensor sh (zip_with f (tdata (expand_to sh a)) (tdata (expand_to sh b))).
Proof.
  unfold wf, expand_to. cbn [tshape tdata]. intros Ha Hb Hwa Hwb Hexp.
  rewrite Ha, Hb. f_equal.
  apply expand_data_zip_with; [done|rewrite numel_pad; congruence..].
Qed.

Lemma expand_to_zip_with3 (f : A -> B -> C -> D) sh s
    (a : tensor A) (b : tensor B) (c : tensor C) :
  tshape a = s -> tshape b = s -> tshape c = s -> wf a -> wf b -> wf c ->
  expandable_dims (pad (length sh) s) sh = true ->
  expand_to sh (Tensor s (zip_with3 f (tdata a) (tdata b) (tdata c)))
  = Tensor sh (zip_with3 f (tdata (expand_to sh a)) (tdata (expand_to sh b))
                           (tdata (expand_to sh c))).
Proof.
  unfold wf, expand_to, zip_with3. cbn [tshape tdata].
  intros Ha Hb Hc Hwa Hwb Hwc Hexp.
  rewrite Ha in *. rewrite Hb in *. rewrite Hc in *. f_equal.
  rewrite expand_data_zip_with;
    [|done|rewrite ?length_zip_with, numel_pad; lia..].
  f_equal.
  apply expand_data_zip_with; [done|rewrite numel_pad; congruence..].
Qed.
End MomentsOfExpanded.

Section PosteriorUpdate.
Context {Sc : Scalar} {Df : Defaults}.

Lemma foldl_zip_with_add_length (m : nat) (r : list elt) rs :
  length r = m -> Forall (fun r => length r = m) rs ->
  length (foldl (zip_with add) r rs) = m.
Proof.
  intros Hr Hrs. revert r Hr.
  induction Hrs as [|x rs Hx _ IH]; intros r Hr; simpl; [done|].
  apply IH. rewrite length_zip_with. lia.
Qed.

Lemma sum_rows_length (m : nat) rows :
  Forall (fun r => length r = m) rows -> length (sum_rows m rows) = m.
Proof.
  intros [|r rs Hr Hrs]; simpl.
  - by rewrite length_replicate.
  - by apply foldl_zip_with_add_length.
Qed.

(** Summing out the leading dimensions [ks] of a tensor of shape
    [ks ++ sh]. *)
Lemma sum_leading_app (ks sh : list nat) (t : tensor elt) :
  wf t -> tshape t = ks ++ sh ->
  sum_leading (length ks) t
  = Tensor sh (sum_rows (numel sh) (chunks (numel sh) (numel ks) (tdata t)))
  /\ wf (sum_leading (length ks) t).
Proof.
  intros Hwf Hsh. unfold sum_leading. rewrite Hsh.
  rewrite drop_app_length, take_app_length. split; [done|].
  unfold wf. cbn [tdata tshape]. apply sum_rows_length, chunks_row_length.
  unfold wf in Hwf. by rewrite Hwf, Hsh, numel_app.
Qed.

(** With parameters of at least one dimension and observations of shape
    [ks ++ batch_shape], [ks] not empty, the posterior of a constructed
    BetaBinomial is the conjugate update. *)
Lemma BetaBinomial_posterior_update_data (c1 c0 tc : tensor elt) va h
    (self : BetaBinomial.t) h' (obs : tensor elt) (ks : list nat) :
  wf c1 -> wf c0 -> wf tc -> wf obs ->
  BetaBinomial.__init__ c1 c0 tc va h = Ok (self, h') ->
  BetaBinomial._batch_shape self <> [] -> ks <> [] ->
  tshape obs = ks ++ BetaBinomial._batch_shape self ->
  let bs := BetaBinomial._batch_shape self in
  let summed_obs := sum_rows (numel bs) (chunks (numel bs) (numel ks) (tdata obs)) in
  BetaBinomial._posterior_latent_dist self obs h'
  = Beta.__init__
      (Tensor bs (zip_with add (tdata (BetaBinomial.concentration1 self))
                    summed_obs))
      (Tensor bs
         (zip_with3
            (fun t c s => sub (add (mul (of_Z (Z.of_nat (numel ks))) t) c) s)
            (tdata (BetaBinomial.total_count self))
            (tdata (BetaBinomial.concentration0 self)) summed_obs))
      (Some (BetaBinomial._validate_args self)).
Proof.
  intros Hw1 Hw0 Hwt Hwo Hinit.
  pose proof (BetaBinomial_init_inv _ _ _ _ _ _ _ Hw1 Hw0 Hwt Hinit)
    as (Hs1 & Hs0 & Hst & Hx1 & Hx0 & Hxt).
  destruct (BetaBinomial_init_spec _ _ _ _ _ _ _ Hw1 Hw0 Hwt Hinit)
    as (sh & _ & _ & _ & -> & ->).
  unfold BetaBinomial.concentration1, BetaBinomial.concentration0 in *.
  cbn [BetaBinomial._beta BetaBinomial.total_count
       BetaBinomial._batch_shape BetaBinomial._validate_args
       Beta.concentration1 Beta.concentration0] in *.
  cbv zeta. intros Hbs Hks Hsh.
  set (summed_obs := sum_rows (numel sh) _).
  destruct (sum_leading_app ks sh obs Hwo Hsh) as [Hsum Hwsum].
  fold summed_obs in Hsum.
  rewrite (BetaBinomial_posterior_leading _ obs (expand_to sh c1)
             (expand_to sh c0) (expand_to sh tc) _ (length ks)).
  2-4: cbn [BetaBinomial._unexpanded_params]; rewrite deref_app_new;
       by simplify_map_eq.
  2:{ unfold ndim. cbn. destruct sh; [done|simpl; lia]. }
  2:{ destruct ks; [done|simpl; lia]. }
  2:{ unfold ndim. rewrite Hsh, length_app. done. }
  rewrite Hsh, take_app_length, Hsum.
  unfold wf in Hx1, Hx0, Hxt, Hwsum. rewrite Hsum in Hwsum.
  cbn [tdata tshape] in Hwsum.
  rewrite Hs1 in Hx1. rewrite Hs0 in Hx0. rewrite Hst in Hxt.
  cbn [BetaBinomial._validate_args].
  rewrite (tmap2_same_shape add (expand_to sh c1) _ sh);
    [|done|done|done|done].
  rewrite bind_Ok.
  rewrite (tmap2_same_shape add _ (expand_to sh c0) sh);
    [|done|done|by unfold wf, tmap; cbn [tdata tshape];
                   rewrite length_map, Hxt|done].
  rewrite bind_Ok.
  rewrite (tmap2_same_shape sub _ _ sh); [|done|done| |done].
  2:{ unfold wf, tmap. cbn [tdata tshape].
      rewrite length_zip_with, length_map. lia. }
  rewrite bind_Ok. cbn [tdata tmap]. do 3 f_equal.
  unfold zip_with3. apply list_eq. intros i.
  repeat first [rewrite lookup_zip_with | rewrite list_lookup_fmap].
  destruct (tdata (expand_to sh tc) !! i),
           (tdata (expand_to sh c0) !! i),
           (summed_obs !! i); done.
Qed.
End PosteriorUpdate.

(** * The claims *)

(** ** Closed forms of the marginal log-probabilities *)

(** C1.  For parameters n = total_count, α = concentration1,
    β = concentration0 and a value in the support, [BetaBinomial.log_prob]
    returns, at every position of the broadcast shape, lgamma(n+1) −
    lgamma(k+1) − lgamma(n−k+1) + log_beta(k+α, n−k+β) − log_beta(β, α)
    of the entries n, k, α, β broadcast to that position.  In particular,
    in binary32 arithmetic and whatever [lgamma] is,
    BetaBinomial(2.0, 3.0, total_count=10).log_prob(3) is lgamma(11) −
    lgamma(4) − lgamma(8) + log_beta(5, 10) − log_beta(3, 2). *)
Theorem BetaBinomial_log_prob_closed_form :
  (forall (Sc : Scalar) (self : BetaBinomial.t)
          (value : tensor elt) (sh : list nat),
      BetaBinomial.inv self -> wf value ->
      broadcast_shapes (tshape value) (BetaBinomial._batch_shape self)
      = Some sh ->
      (BetaBinomial._validate_args self = true ->
       BetaBinomial.in_support self value) ->
      BetaBinomial.log_prob self value
      = Ok (Tensor sh
              (zip_with4 spec_BetaBinomial_log_prob
                 (tdata (expand_to sh (BetaBinomial.total_count self)))
                 (tdata (expand_to sh value))
                 (tdata (expand_to sh (BetaBinomial.concentration1 self)))
                 (tdata (expand_to sh (BetaBinomial.concentration0 self))))))
  /\ (forall (Df : Defaults) (lgamma log : spec_float -> spec_float),
        let Sc := Float32.scalar lgamma log in
        (BetaBinomial.__init__ (scalar_tensor (of_Z 2))
           (scalar_tensor (of_Z 3)) (scalar_tensor (of_Z 10)) None []
         ≫= fun p => BetaBinomial.log_prob p.1 (scalar_tensor (of_Z 3)))
        = Ok (scalar_tensor
                (sub (add (sub (sub (lgamma (of_Z 11)) (lgamma (of_Z 4)))
                               (lgamma (of_Z 8)))
                          (spec_log_beta (of_Z 5) (of_Z 10)))
                     (spec_log_beta (of_Z 3) (of_Z 2))))).
Proof.
  split.
  - intros. by apply BetaBinomial_log_prob_value.
  - intros [[|]] lgamma log Sc; reflexivity.
Qed.

Lemma BetaBinomial_log_prob_closed_form_witness :
  BetaBinomial.inv BetaBinomial_2_3_10
  /\ BetaBinomial.in_support BetaBinomial_2_3_10 (num 3)
  /\ BetaBinomial.log_prob BetaBinomial_2_3_10 (num 3)
     = Ok (Tensor []
             [spec_BetaBinomial_log_prob (Sc := float32)
                (Float32.of_Z 10) (Float32.of_Z 3)
                (Float32.of_Z 2) (Float32.of_Z 3)]).
Proof.
  assert (BetaBinomial.inv BetaBinomial_2_3_10) as Hinv
    by (repeat split; reflexivity).
  assert (BetaBinomial.in_support BetaBinomial_2_3_10 (num 3)) as Hsup
    by (eexists; split; reflexivity).
  split; [exact Hinv|]. split; [exact Hsup|].
  apply (proj1 BetaBinomial_log_prob_closed_form float32
           BetaBinomial_2_3_10 (num 3) []).
  - exact Hinv.
  - reflexivity.
  - reflexivity.
  - intros _. exact Hsup.
Defined.

(** C5.  For parameters concentration, rate and a non-negative integer
    value, [GammaPoisson.log_prob] returns, at every position of the
    broadcast shape, −log_beta(concentration, value+1) −
    log(concentration+value) + concentration·log(rate) −
    (concentration+value)·log(1+rate) of the entries broadcast to that
    position, where log_beta(x, y) = lgamma(x) + lgamma(y) − lgamma(x+y). *)
Theorem GammaPoisson_log_prob_closed_form
    (Sc : Scalar) (self : GammaPoisson.t)
    (value : tensor elt) (sh : list nat) :
  GammaPoisson.inv self -> wf value ->
  broadcast_shapes (tshape value) (GammaPoisson._batch_shape self) = Some sh ->
  (GammaPoisson._validate_args self = true ->
   GammaPoisson.in_support value) ->
  GammaPoisson.log_prob self value
  = Ok (Tensor sh
          (zip_with3 spec_GammaPoisson_log_prob
             (tdata (expand_to sh (GammaPoisson.concentration self)))
             (tdata (expand_to sh (GammaPoisson.rate self)))
             (tdata (expand_to sh value))))
    /\ (forall c r v : elt,
          spec_GammaPoisson_log_prob c r v
          = sub (add (sub (neg (sub (add (lgamma c) (lgamma (add v (of_Z 1))))
                                    (lgamma (add c (add v (of_Z 1))))))
                          (log (add c v)))
                     (mul c (log r)))
                (mul (add c v) (log (add (of_Z 1) r)))).
Proof.
  intros Hinv Hwv Hsh Hval. split; [|done].
  pose proof Hinv as (_ & Hsr & _ & Hwr).
  rewrite <- Hsr in Hsh.
  destruct (broadcast_fits _ _ _ Hwv Hwr Hsh) as [Hv Hr].
  rewrite Hsr in Hsh.
  destruct (GammaPoisson_log_prob_data self value sh Hinv Hv Hr Hval)
    as (r & -> & (Hwres & _) & Hshr & Hdr).
  rewrite Hsh in Hshr. injection Hshr as ->.
  rewrite expand_to_self in Hdr by done. rewrite <- Hdr. by destruct r.
Qed.

Lemma GammaPoisson_log_prob_closed_form_witness :
  GammaPoisson.inv GammaPoisson_5_2
  /\ GammaPoisson.in_support (Sc := float32) (num 3)
  /\ GammaPoisson.log_prob GammaPoisson_5_2 (num 3)
     = Ok (Tensor []
             [spec_GammaPoisson_log_prob (Sc := float32)
                (Float32.of_Z 5) (Float32.of_Z 2) (Float32.of_Z 3)]).
Proof.
  assert (GammaPoisson.inv GammaPoisson_5_2) as Hinv
    by (repeat split; reflexivity).
  split; [exact Hinv|]. split; [reflexivity|].
  apply (GammaPoisson_log_prob_closed_form float32
           GammaPoisson_5_2 (num 3) []).
  - exact Hinv.
  - reflexivity.
  - reflexivity.
  - intros _. reflexivity.
Defined.

(** ** Moments *)

(** C8.  For every GammaPoisson(concentration, rate), [mean] is
    concentration / rate and [variance] is concentration / rate² ·
    (1 + rate), entry by entry.  In particular, in binary32 arithmetic,
    GammaPoisson(5.0, 2.0) has mean 2.5 = 5·2⁻¹ and variance
    3.75 = 15·2⁻². *)
Theorem GammaPoisson_mean_variance :
  (forall (Sc : Scalar) (self : GammaPoisson.t),
      GammaPoisson.inv self ->
      GammaPoisson.mean self
      = Ok (Tensor (GammaPoisson._batch_shape self)
              (zip_with (fun c r => div c r)
                 (tdata (GammaPoisson.concentration self))
                 (tdata (GammaPoisson.rate self))))
      /\ GammaPoisson.variance self
         = Ok (Tensor (GammaPoisson._batch_shape self)
                 (zip_with (fun c r => mul (div c (pow r 2)) (add (of_Z 1) r))
                    (tdata (GammaPoisson.concentration self))
                    (tdata (GammaPoisson.rate self)))))
  /\ (forall (Df : Defaults) (lgamma log : spec_float -> spec_float),
        let Sc := Float32.scalar lgamma log in
        (GammaPoisson.__init__ (scalar_tensor (of_Z 5))
           (scalar_tensor (of_Z 2)) None []
         ≫= fun p => GammaPoisson.mean p.1)
        = Ok (scalar_tensor (Float32.lit 5 (-1)))
        /\ (GammaPoisson.__init__ (scalar_tensor (of_Z 5))
              (scalar_tensor (of_Z 2)) None []
            ≫= fun p => GammaPoisson.variance p.1)
           = Ok (scalar_tensor (Float32.lit 15 (-2)))).
Proof.
  split.
  - intros Sc self Hinv. split.
    + by apply GammaPoisson_mean_data.
    + by apply GammaPoisson_variance_data.
  - intros [[|]] lgamma log Sc; split; reflexivity.
Qed.

Lemma GammaPoisson_mean_variance_witness :
  GammaPoisson.inv GammaPoisson_5_2
  /\ GammaPoisson.mean GammaPoisson_5_2 = Ok (Tensor [] [Float32.lit 5 (-1)])
  /\ GammaPoisson.variance GammaPoisson_5_2
     = Ok (Tensor [] [Float32.lit 15 (-2)]).
Proof.
  assert (GammaPoisson.inv GammaPoisson_5_2) as Hinv
    by (repeat split; reflexivity).
  split; [exact Hinv|].
  destruct (proj1 GammaPoisson_mean_variance float32 GammaPoisson_5_2 Hinv)
    as [Hmean Hvar].
  split; [exact Hmean | exact Hvar].
Defined.

(** ** What [expand] preserves *)

(** C10.  The instance returned by [expand] has the validate_args setting
    of the original, for BetaBinomial and for GammaPoisson: the base
    initializer is run with validation disabled and the original's flag
    is then copied onto the new instance. *)
Theorem expand_keeps_validate_args (Sc : Scalar) :
  (forall (self self' : BetaBinomial.t) batch_shape h h',
      BetaBinomial.expand self batch_shape h = Ok (self', h') ->
      BetaBinomial._validate_args self' = BetaBinomial._validate_args self)
  /\ (forall (self self' : GammaPoisson.t) batch_shape h h',
        GammaPoisson.expand self batch_shape h = Ok (self', h') ->
        GammaPoisson._validate_args self' = GammaPoisson._validate_args self).
Proof.
  split; intros self self' bs h h' Hexp.
  - by apply BetaBinomial_expand_fields in Hexp as (_ & ? & _).
  - by apply GammaPoisson_expand_fields in Hexp as (_ & ? & _).
Qed.

Lemma expand_keeps_validate_args_witness :
  exists self' h',
    BetaBinomial.expand BetaBinomial_2_3_10 [2%nat] []
    = Ok (self', h')
    /\ BetaBinomial._validate_args self' = true.
Proof.
  eexists _, _. split; [reflexivity|].
  apply (proj1 (expand_keeps_validate_args float32)
           BetaBinomial_2_3_10 _ [2%nat] [] _ eq_refl).
Defined.

(** C9.  Whatever chain of [expand] calls follows the construction of a
    BetaBinomial or GammaPoisson, the resulting instance holds the very
    reference to [_unexpanded_params] that the constructor made (shared,
    not copied), the store is the one the constructor left (never
    mutated), and the dictionary behind the reference holds the
    parameters as the constructor broadcast them, before any expansion. *)
Theorem unexpanded_params_kept (Sc : Scalar) (Df : Defaults) :
  (forall (c1 c0 tc : tensor elt) va h self h1 shapes self' h2,
      wf c1 -> wf c0 -> wf tc ->
      BetaBinomial.__init__ c1 c0 tc va h = Ok (self, h1) ->
      BetaBinomial.expand_chain self shapes h1 = Ok (self', h2) ->
      BetaBinomial._unexpanded_params self'
      = BetaBinomial._unexpanded_params self
      /\ h2 = h1
      /\ deref h2 (BetaBinomial._unexpanded_params self')
         = <["concentration1" := BetaBinomial.concentration1 self]>
           (<["concentration0" := BetaBinomial.concentration0 self]>
           (<["total_count" := BetaBinomial.total_count self]> ∅))
      /\ BetaBinomial.concentration1 self
         = expand_to (BetaBinomial._batch_shape self) c1
      /\ BetaBinomial.concentration0 self
         = expand_to (BetaBinomial._batch_shape self) c0
      /\ BetaBinomial.total_count self
         = expand_to (BetaBinomial._batch_shape self) tc)
  /\ (forall (c r : tensor elt) va h self h1 shapes self' h2,
        wf c -> wf r ->
        GammaPoisson.__init__ c r va h = Ok (self, h1) ->
        GammaPoisson.expand_chain self shapes h1 = Ok (self', h2) ->
        GammaPoisson._unexpanded_params self'
        = GammaPoisson._unexpanded_params self
        /\ h2 = h1
        /\ deref h2 (GammaPoisson._unexpanded_params self')
           = <["concentration" := GammaPoisson.concentration self]>
             (<["rate" := GammaPoisson.rate self]> ∅)
        /\ GammaPoisson.concentration self
           = expand_to (GammaPoisson._batch_shape self) c
        /\ GammaPoisson.rate self
           = expand_to (GammaPoisson._batch_shape self) r).
Proof.
  split.
  - intros c1 c0 tc va h self h1 shapes self' h2 Hw1 Hw0 Hwt Hinit Hchain.
    apply BetaBinomial_expand_chain_fields in Hchain as (-> & _ & ->).
    destruct (BetaBinomial_init_spec _ _ _ _ _ _ _ Hw1 Hw0 Hwt Hinit)
      as (sh & _ & _ & _ & -> & ->).
    simpl. by rewrite deref_app_new.
  - intros c r va h self h1 shapes self' h2 Hwc Hwr Hinit Hchain.
    apply GammaPoisson_expand_chain_fields in Hchain as (-> & _ & ->).
    destruct (GammaPoisson_init_spec _ _ _ _ _ _ Hwc Hwr Hinit)
      as (sh & _ & _ & -> & ->).
    simpl. by rewrite deref_app_new.
Qed.

Lemma unexpanded_params_kept_witness :
  exists self h1 self' h2,
    BetaBinomial.__init__ (Sc := float32) (Df := validating)
      (num 2) (num 3) (num 10) None [] = Ok (self, h1)
    /\ BetaBinomial.expand_chain self [[2%nat]; [3%nat; 2%nat]] h1
       = Ok (self', h2)
    /\ BetaBinomial._unexpanded_params self'
       = BetaBinomial._unexpanded_params self
    /\ h2 = h1.
Proof.
  eexists _, _, _, _. split; [reflexivity|]. split; [reflexivity|].
  destruct (proj1 (unexpanded_params_kept float32 validating)
              (num 2) (num 3) (num 10) None [] _ _
              [[2%nat]; [3%nat; 2%nat]] _ _
              eq_refl eq_refl eq_refl eq_refl eq_refl)
    as (Href & Hstore & _).
  split; [exact Href | exact Hstore].
Defined.

(** ** Expand invariance *)

(** C4.  For every valid expansion target (a shape the batch shape can
    be expanded to) [expand] returns an instance, in an unchanged store,
    such that: whenever [log_prob] of the original returns [r] on a value
    that broadcasts against the target shape, [log_prob] of the expanded
    instance returns [r] broadcast to the shape that the value and the
    target shape have in common (the target shape itself when the value
    has no further dimensions); and [_posterior_latent_dist] of the
    expanded instance is that of the original, on every observation.
    For BetaBinomial and for GammaPoisson. *)
Theorem expand_invariance (Sc : Scalar) :
  (forall (self : BetaBinomial.t) batch_shape h,
      BetaBinomial.inv self ->
      expandable (BetaBinomial._batch_shape self) batch_shape = true ->
      exists self',
        BetaBinomial.expand self batch_shape h = Ok (self', h)
        /\ (forall value r out,
              wf value ->
              broadcast_shapes (tshape value) batch_shape = Some out ->
              BetaBinomial.log_prob self value = Ok r ->
              BetaBinomial.log_prob self' value = Ok (expand_to out r))
        /\ (forall (Df : Defaults) obs,
              BetaBinomial._posterior_latent_dist self' obs h
              = BetaBinomial._posterior_latent_dist self obs h))
  /\ (forall (self : GammaPoisson.t) batch_shape h,
        GammaPoisson.inv self ->
        expandable (GammaPoisson._batch_shape self) batch_shape = true ->
        exists self',
          GammaPoisson.expand self batch_shape h = Ok (self', h)
          /\ (forall value r out,
                wf value ->
                broadcast_shapes (tshape value) batch_shape = Some out ->
                GammaPoisson.log_prob self value = Ok r ->
                GammaPoisson.log_prob self' value = Ok (expand_to out r))
          /\ (forall (Df : Defaults) obs,
                GammaPoisson._posterior_latent_dist self' obs h
                = GammaPoisson._posterior_latent_dist self obs h)).
Proof.
  split.
  - intros self bs h Hinv Hexp.
    pose proof Hinv as (Hs1 & Hs0 & Hst & _).
    pose proof (BetaBinomial_expand_decided self bs h Hs1 Hs0 Hst) as Hdec.
    rewrite Hexp in Hdec. eexists. split; [exact Hdec|]. split.
    + intros value r out Hwv Hout Hlp.
      by apply (BetaBinomial_expand_log_prob self _ bs h h value r out).
    + intros Df obs.
      by apply (BetaBinomial_expand_posterior self _ bs h h obs).
  - intros self bs h Hinv Hexp.
    pose proof Hinv as (Hsc & Hsr & _).
    pose proof (GammaPoisson_expand_decided self bs h Hsc Hsr) as Hdec.
    rewrite Hexp in Hdec. eexists. split; [exact Hdec|]. split.
    + intros value r out Hwv Hout Hlp.
      by apply (GammaPoisson_expand_log_prob self _ bs h h value r out).
    + intros Df obs.
      by apply (GammaPoisson_expand_posterior self _ bs h h obs).
Qed.

Lemma expand_invariance_witness :
  (exists self' r,
      BetaBinomial.expand BetaBinomial_2_3_10 [2%nat] [] = Ok (self', [])
      /\ BetaBinomial.log_prob BetaBinomial_2_3_10 (num 3) = Ok r
      /\ BetaBinomial.log_prob self' (num 3) = Ok (expand_to [2%nat] r)
      /\ forall (Df : Defaults) obs,
           BetaBinomial._posterior_latent_dist self' obs []
           = BetaBinomial._posterior_latent_dist BetaBinomial_2_3_10 obs [])
  /\ (exists self' r,
        GammaPoisson.expand GammaPoisson_5_2 [3%nat; 2%nat] []
        = Ok (self', [])
        /\ GammaPoisson.log_prob GammaPoisson_5_2 (num 3) = Ok r
        /\ GammaPoisson.log_prob self' (num 3)
           = Ok (expand_to [3%nat; 2%nat] r)
        /\ forall (Df : Defaults) obs,
             GammaPoisson._posterior_latent_dist self' obs []
             = GammaPoisson._posterior_latent_dist GammaPoisson_5_2 obs []).
Proof.
  split.
  - destruct (proj1 (expand_invariance float32) BetaBinomial_2_3_10
                [2%nat] [] ltac:(repeat split; reflexivity) eq_refl)
      as (self' & Hexp & Hlp & Hpost).
    eexists self', _. split; [exact Hexp|]. split; [reflexivity|].
    split; [|exact Hpost].
    apply (Hlp (num 3) _ [2%nat]); reflexivity.
  - destruct (proj2 (expand_invariance float32) GammaPoisson_5_2
                [3%nat; 2%nat] [] ltac:(repeat split; reflexivity) eq_refl)
      as (self' & Hexp & Hlp & Hpost).
    eexists self', _. split; [exact Hexp|]. split; [reflexivity|].
    split; [|exact Hpost].
    apply (Hlp (num 3) _ [3%nat; 2%nat]); reflexivity.
Defined.

(** ** Support enumeration *)




(** C7, as the code has it.  On a BetaBinomial with homogeneous
    [total_count] n, the tensor returned by [enumerate_support] has shape
    (n+1,) + batch_shape when the expand flag is true, and shape
    (n+1,) + (1,) * len(batch_shape) when it is false: the singleton
    dimensions that let the values broadcast against the batch are kept. *)
Theorem enumerate_support_shape (Sc : Scalar) (P : Z -> Prop)
    (self : BetaBinomial.t) (expand : bool) (n : Z) (m : nat) :
  exact_ints P -> P n -> 0 <= n ->
  tdata (BetaBinomial.total_count self) = replicate (S m) (of_Z n) ->
  exists t,
    BetaBinomial.enumerate_support self expand = Ok t
    /\ tshape t
       = Z.to_nat (1 + n)
         :: (if expand then BetaBinomial._batch_shape self
             else replicate (length (BetaBinomial._batch_shape self)) 1%nat).
Proof.
  intros Hexact Hn Hpos Hdata. eexists. split.
  - by apply (enumerate_support_homogeneous P Hexact self expand n m).
  - done.
Qed.

Lemma enumerate_support_shape_witness :
  exists t,
    BetaBinomial.enumerate_support (BetaBinomial_batch2 [3; 3]) false = Ok t
    /\ tshape t = [4%nat; 1%nat].
Proof.
  apply (enumerate_support_shape float32 (fun z => 0 <= z <= 10)
           (BetaBinomial_batch2 [3; 3]) false 3 1%nat
           (float32_exact_small _ _)); [lia|lia|reflexivity].
Defined.

(** C7 as stated fails: with batch shape (2,) and total_count 1, the
    unexpanded support has shape (2, 1), not (2,). *)
Lemma enumerate_support_shape_counterexample :
  BetaBinomial.enumerate_support (BetaBinomial_batch2 [1; 1]) false
  = Ok (Tensor [2%nat; 1%nat] [Float32.of_Z 0; Float32.of_Z 1])
  /\ [2%nat; 1%nat] ≠ [Z.to_nat (1 + 1)].
Proof. split; [reflexivity | discriminate]. Qed.

(** ** Posterior updates *)

(** C2, on the code.  GammaPoisson([1.], [1.]) with six observations of
    shape (2, 3, 1): the claim asks for Gamma(1 + Σobs, 1 + 6), where 6 is
    the product of the leading dimensions (2, 3) of obs; the code
    multiplies the first [num_dims] = 1 dimensions of obs instead and
    returns Gamma(22, 1 + 2). *)
Theorem GammaPoisson_posterior_counts_first_dims
    (Df : Defaults) (lgamma log : spec_float -> spec_float) :
  let Sc := Float32.scalar lgamma log in
  (GammaPoisson.__init__ (Tensor [1%nat] [of_Z 1]) (Tensor [1%nat] [of_Z 1])
     None []
   ≫= fun p =>
     GammaPoisson._posterior_latent_dist p.1
       (Tensor [2%nat; 3%nat; 1%nat] (map of_Z [1; 2; 3; 4; 5; 6])) p.2)
  = Ok (Gamma.Make (Tensor [1%nat] [of_Z 22]) (Tensor [1%nat] [of_Z 3])
          [1%nat] default_validate_args)
  /\ add (of_Z 1) (of_Z 6) = of_Z 7
  /\ of_Z 3 ≠ of_Z 7.
Proof.
  intros Sc. destruct Df as [[|]]; (split; [reflexivity|split; [reflexivity|discriminate]]).
Qed.

(** C3, on the code.  BetaBinomial(2.0, 3.0, total_count=4) with the
    single observation 3: the claim asks for Beta(5.0, 4.0); the code
    takes [reduce(mul, ())] of the empty tuple of leading dimensions,
    which raises TypeError. *)
Theorem BetaBinomial_posterior_scalar_obs
    (Df : Defaults) (lgamma log : spec_float -> spec_float) :
  let Sc := Float32.scalar lgamma log in
  (BetaBinomial.__init__ (scalar_tensor (of_Z 2)) (scalar_tensor (of_Z 3))
     (scalar_tensor (of_Z 4)) None []
   ≫= fun p =>
     BetaBinomial._posterior_latent_dist p.1 (scalar_tensor (of_Z 3)) p.2)
  = Raise TypeError.
Proof.
  intros Sc. destruct Df as [[|]]; reflexivity.
Qed.


(** * Further properties of the code *)

(** ** Construction *)

(** X1.  When [BetaBinomial.__init__] returns, the three parameters are the
    arguments broadcast to their common shape, which is the batch shape;
    the instance satisfies the data-model invariant; its
    [_unexpanded_params] is a fresh reference to a dictionary of the three
    broadcast parameters, and the dictionaries already in the store are
    untouched. *)
Theorem BetaBinomial_init_result (Sc : Scalar) (Df : Defaults)
    (c1 c0 tc : tensor elt) va h self h' :
  wf c1 -> wf c0 -> wf tc ->
  BetaBinomial.__init__ c1 c0 tc va h = Ok (self, h') ->
  exists sh,
    broadcast_shapes (tshape c0) (tshape c1) ≫= broadcast_shapes (tshape tc)
    = Some sh
    /\ BetaBinomial.inv self
    /\ BetaBinomial._batch_shape self = sh
    /\ BetaBinomial.concentration1 self = expand_to sh c1
    /\ BetaBinomial.concentration0 self = expand_to sh c0
    /\ BetaBinomial.total_count self = expand_to sh tc
    /\ BetaBinomial._validate_args self = resolve_validate_args va
    /\ BetaBinomial._unexpanded_params self = length h
    /\ (forall r, (r < length h)%nat -> h' !! r = h !! r)
    /\ deref h' (BetaBinomial._unexpanded_params self)
       = <["concentration1" := expand_to sh c1]>
         (<["concentration0" := expand_to sh c0]>
         (<["total_count" := expand_to sh tc]> ∅)).
Proof.
  intros Hw1 Hw0 Hwt Hinit.
  pose proof (BetaBinomial_init_inv _ _ _ _ _ _ _ Hw1 Hw0 Hwt Hinit) as Hinv.
  destruct (broadcast_shapes (tshape c0) (tshape c1)
            ≫= broadcast_shapes (tshape tc)) as [sh|] eqn:Hsh.
  2:{ unfold BetaBinomial.__init__ in Hinit.
      by rewrite (broadcast_all_3_None c1 c0 tc Hsh) in Hinit. }
  exists sh. split; [done|]. split; [done|].
  rewrite (BetaBinomial_init_decided c1 c0 tc va h sh) in Hinit by done.
  destruct (default_validate_args && _); [done|].
  destruct (resolve_validate_args va && _); [done|].
  injection Hinit as <- <-. cbn.
  repeat split; try done.
  - intros r Hr. by apply lookup_app_l.
  - apply deref_app_new.
Qed.

Lemma BetaBinomial_init_result_witness :
  exists self h',
    BetaBinomial.__init__ (Sc := float32) (Df := validating)
      (Tensor [2%nat] [Float32.of_Z 2; Float32.of_Z 1]) (num 3) (num 10)
      None [] = Ok (self, h')
    /\ BetaBinomial.inv self
    /\ BetaBinomial._batch_shape self = [2%nat].
Proof.
  eexists _, _. split; [reflexivity|].
  destruct (BetaBinomial_init_result float32 validating
              (Tensor [2%nat] [Float32.of_Z 2; Float32.of_Z 1]) (num 3)
              (num 10) None [] _ _ eq_refl eq_refl eq_refl eq_refl)
    as (sh & Hsh & Hinv & Hbs & _).
  split; [exact Hinv|]. rewrite Hbs. by injection Hsh as <-.
Defined.

(** X2.  [BetaBinomial.__init__] raises a RuntimeError when the shapes of
    its arguments do not broadcast; on arguments that do, it raises a
    ValueError when validation is requested and a parameter violates its
    constraint (a concentration that is not positive, a total count that
    is not a non-negative integer), and it accepts whatever values it is
    given when validation is disabled. *)
Theorem BetaBinomial_init_errors (Sc : Scalar) (Df : Defaults)
    (c1 c0 tc : tensor elt) va h :
  (broadcast_shapes (tshape c0) (tshape c1) ≫= broadcast_shapes (tshape tc)
   = None ->
   BetaBinomial.__init__ c1 c0 tc va h = Raise RuntimeError)
  /\ (forall sh,
        wf c1 -> wf c0 -> wf tc ->
        broadcast_shapes (tshape c0) (tshape c1)
        ≫= broadcast_shapes (tshape tc) = Some sh ->
        (resolve_validate_args va = true ->
         forallb tall [positive_check (expand_to sh c1);
                       positive_check (expand_to sh c0);
                       nonnegative_integer_check (expand_to sh tc)] = false ->
         BetaBinomial.__init__ c1 c0 tc va h = Raise ValueError)
        /\ (resolve_validate_args va = false ->
            default_validate_args = false ->
            exists self h', BetaBinomial.__init__ c1 c0 tc va h
                            = Ok (self, h'))).
Proof.
  split.
  - intros Hnone. unfold BetaBinomial.__init__.
    by rewrite (broadcast_all_3_None c1 c0 tc Hnone).
  - intros sh Hw1 Hw0 Hwt Hsh.
    rewrite (BetaBinomial_init_decided c1 c0 tc va h sh) by done. split.
    + intros -> ->. by destruct (default_validate_args && _).
    + intros -> ->. simpl. by eexists _, _.
Qed.

Lemma BetaBinomial_init_errors_witness :
  BetaBinomial.__init__ (Sc := float32) (Df := validating)
    (Tensor [2%nat] [Float32.of_Z 2; Float32.of_Z 1])
    (Tensor [3%nat] [Float32.of_Z 3; Float32.of_Z 3; Float32.of_Z 3])
    (num 10) None [] = Raise RuntimeError
  /\ BetaBinomial.__init__ (Sc := float32) (Df := validating)
       (num 2) (num 3) (num (-1)) None [] = Raise ValueError.
Proof.
  split.
  - apply (proj1 (BetaBinomial_init_errors float32 validating _ _ _ None [])).
    reflexivity.
  - apply (proj1 (proj2 (BetaBinomial_init_errors float32 validating
                           (num 2) (num 3) (num (-1)) None [])
                    [] eq_refl eq_refl eq_refl eq_refl));
      reflexivity.
Defined.

(** X3.  When [GammaPoisson.__init__] returns, the two parameters are the
    arguments broadcast to their common shape, which is the batch shape;
    the instance satisfies the data-model invariant; its
    [_unexpanded_params] is a fresh reference to a dictionary of the two
    broadcast parameters, and the dictionaries already in the store are
    untouched. *)
Theorem GammaPoisson_init_result (Sc : Scalar) (Df : Defaults)
    (c r : tensor elt) va h self h' :
  wf c -> wf r ->
  GammaPoisson.__init__ c r va h = Ok (self, h') ->
  exists sh,
    broadcast_shapes (tshape r) (tshape c) = Some sh
    /\ GammaPoisson.inv self
    /\ GammaPoisson._batch_shape self = sh
    /\ GammaPoisson.concentration self = expand_to sh c
    /\ GammaPoisson.rate self = expand_to sh r
    /\ GammaPoisson._validate_args self = resolve_validate_args va
    /\ GammaPoisson._unexpanded_params self = length h
    /\ (forall i, (i < length h)%nat -> h' !! i = h !! i)
    /\ deref h' (GammaPoisson._unexpanded_params self)
       = <["concentration" := expand_to sh c]>
         (<["rate" := expand_to sh r]> ∅).
Proof.
  intros Hwc Hwr Hinit.
  pose proof (GammaPoisson_init_inv _ _ _ _ _ _ Hwc Hwr Hinit) as Hinv.
  destruct (broadcast_shapes (tshape r) (tshape c)) as [sh|] eqn:Hsh.
  2:{ unfold GammaPoisson.__init__ in Hinit.
      by rewrite (broadcast_all_2_None c r Hsh) in Hinit. }
  exists sh. split; [done|]. split; [done|].
  rewrite (GammaPoisson_init_decided c r va h sh) in Hinit by done.
  destruct (_ && _); [done|].
  injection Hinit as <- <-. cbn.
  repeat split; try done.
  - intros i Hi. by apply lookup_app_l.
  - apply deref_app_new.
Qed.

Lemma GammaPoisson_init_result_witness :
  exists self h',
    GammaPoisson.__init__ (Sc := float32) (Df := validating)
      (Tensor [2%nat] [Float32.of_Z 5; Float32.of_Z 1]) (num 2) None []
    = Ok (self, h')
    /\ GammaPoisson.inv self
    /\ GammaPoisson._batch_shape self = [2%nat].
Proof.
  eexists _, _. split; [reflexivity|].
  destruct (GammaPoisson_init_result float32 validating
              (Tensor [2%nat] [Float32.of_Z 5; Float32.of_Z 1]) (num 2)
              None [] _ _ eq_refl eq_refl eq_refl)
    as (sh & Hsh & Hinv & Hbs & _).
  split; [exact Hinv|]. rewrite Hbs. by injection Hsh as <-.
Defined.

(** X4.  [GammaPoisson.__init__] raises a RuntimeError when the shapes of
    its arguments do not broadcast; on arguments that do, it raises a
    ValueError when validation is in force (requested, or the class
    default) and a parameter is not positive, and it accepts whatever
    values it is given when validation is disabled. *)
Theorem GammaPoisson_init_errors (Sc : Scalar) (Df : Defaults)
    (c r : tensor elt) va h :
  (broadcast_shapes (tshape r) (tshape c) = None ->
   GammaPoisson.__init__ c r va h = Raise RuntimeError)
  /\ (forall sh,
        wf c -> wf r ->
        broadcast_shapes (tshape r) (tshape c) = Some sh ->
        (default_validate_args || resolve_validate_args va = true ->
         forallb tall [positive_check (expand_to sh c);
                       positive_check (expand_to sh r)] = false ->
         GammaPoisson.__init__ c r va h = Raise ValueError)
        /\ (default_validate_args || resolve_validate_args va = false ->
            exists self h', GammaPoisson.__init__ c r va h = Ok (self, h'))).
Proof.
  split.
  - intros Hnone. unfold GammaPoisson.__init__.
    by rewrite (broadcast_all_2_None c r Hnone).
  - intros sh Hwc Hwr Hsh.
    rewrite (GammaPoisson_init_decided c r va h sh) by done. split.
    + by intros -> ->.
    + intros ->. simpl. by eexists _, _.
Qed.

Lemma GammaPoisson_init_errors_witness :
  GammaPoisson.__init__ (Sc := float32) (Df := validating)
    (Tensor [2%nat] [Float32.of_Z 2; Float32.of_Z 1])
    (Tensor [3%nat] [Float32.of_Z 3; Float32.of_Z 3; Float32.of_Z 3])
    None [] = Raise RuntimeError
  /\ GammaPoisson.__init__ (Sc := float32) (Df := validating)
       (num 2) (num 0) None [] = Raise ValueError.
Proof.
  split.
  - apply (proj1 (GammaPoisson_init_errors float32 validating _ _ None [])).
    reflexivity.
  - apply (proj1 (proj2 (GammaPoisson_init_errors float32 validating
                           (num 2) (num 0) None [])
                    [] eq_refl eq_refl eq_refl));
      reflexivity.
Defined.

(** ** Expansion *)

(** X5.  On a BetaBinomial that satisfies the invariant, [expand] succeeds
    exactly when the target is a valid expansion of the batch shape (at
    least as many dimensions, each aligned size equal or expanded from 1);
    it then returns an instance with the target as batch shape whose
    three parameters are the original ones broadcast to it, which again
    satisfies the invariant, and it leaves the store as it is.  Otherwise
    it raises a RuntimeError. *)
Theorem BetaBinomial_expand_outcome (Sc : Scalar) (self : BetaBinomial.t)
    (batch_shape : list nat) h :
  BetaBinomial.inv self ->
  (expandable (BetaBinomial._batch_shape self) batch_shape = true ->
   exists self',
     BetaBinomial.expand self batch_shape h = Ok (self', h)
     /\ BetaBinomial.inv self'
     /\ BetaBinomial._batch_shape self' = batch_shape
     /\ BetaBinomial.concentration1 self'
        = expand_to batch_shape (BetaBinomial.concentration1 self)
     /\ BetaBinomial.concentration0 self'
        = expand_to batch_shape (BetaBinomial.concentration0 self)
     /\ BetaBinomial.total_count self'
        = expand_to batch_shape (BetaBinomial.total_count self))
  /\ (expandable (BetaBinomial._batch_shape self) batch_shape = false ->
      BetaBinomial.expand self batch_shape h = Raise RuntimeError).
Proof.
  intros Hinv. pose proof Hinv as (Hs1 & Hs0 & Hst & _).
  rewrite (BetaBinomial_expand_decided self batch_shape h) by done.
  split; intros Hexp; rewrite Hexp; [|done].
  eexists. split; [done|]. split; [|done].
  eapply (BetaBinomial_expand_inv self batch_shape h); [done|].
  rewrite (BetaBinomial_expand_decided self batch_shape h) by done.
  by rewrite Hexp.
Qed.

Lemma BetaBinomial_expand_outcome_witness :
  (exists self',
      BetaBinomial.expand BetaBinomial_2_3_10 [3%nat; 2%nat] []
      = Ok (self', [])
      /\ BetaBinomial.inv self'
      /\ BetaBinomial._batch_shape self' = [3%nat; 2%nat])
  /\ BetaBinomial.expand (BetaBinomial_batch2 [1; 1]) [3%nat] []
     = Raise RuntimeError.
Proof.
  split.
  - destruct (proj1 (BetaBinomial_expand_outcome float32 BetaBinomial_2_3_10
                       [3%nat; 2%nat] []
                       ltac:(repeat split; reflexivity)) eq_refl)
      as (self' & Hexp & Hinv & Hbs & _).
    exists self'. done.
  - apply (proj2 (BetaBinomial_expand_outcome float32
                    (BetaBinomial_batch2 [1; 1]) [3%nat] []
                    ltac:(repeat split; reflexivity)) eq_refl).
Defined.

(** X6.  The same for GammaPoisson: [expand] succeeds exactly on the valid
    expansions of the batch shape, returns the two parameters broadcast
    to the target, keeps the invariant and the store, and raises a
    RuntimeError otherwise. *)
Theorem GammaPoisson_expand_outcome (Sc : Scalar) (self : GammaPoisson.t)
    (batch_shape : list nat) h :
  GammaPoisson.inv self ->
  (expandable (GammaPoisson._batch_shape self) batch_shape = true ->
   exists self',
     GammaPoisson.expand self batch_shape h = Ok (self', h)
     /\ GammaPoisson.inv self'
     /\ GammaPoisson._batch_shape self' = batch_shape
     /\ GammaPoisson.concentration self'
        = expand_to batch_shape (GammaPoisson.concentration self)
     /\ GammaPoisson.rate self'
        = expand_to batch_shape (GammaPoisson.rate self))
  /\ (expandable (GammaPoisson._batch_shape self) batch_shape = false ->
      GammaPoisson.expand self batch_shape h = Raise RuntimeError).
Proof.
  intros Hinv. pose proof Hinv as (Hsc & Hsr & _).
  rewrite (GammaPoisson_expand_decided self batch_shape h) by done.
  split; intros Hexp; rewrite Hexp; [|done].
  eexists. split; [done|]. split; [|done].
  eapply (GammaPoisson_expand_inv self batch_shape h); [done|].
  rewrite (GammaPoisson_expand_decided self batch_shape h) by done.
  by rewrite Hexp.
Qed.

Lemma GammaPoisson_expand_outcome_witness :
  exists self',
    GammaPoisson.expand GammaPoisson_5_2 [3%nat; 2%nat] [] = Ok (self', [])
    /\ GammaPoisson.inv self'
    /\ GammaPoisson._batch_shape self' = [3%nat; 2%nat].
Proof.
  destruct (proj1 (GammaPoisson_expand_outcome float32 GammaPoisson_5_2
                     [3%nat; 2%nat] []
                     ltac:(repeat split; reflexivity)) eq_refl)
    as (self' & Hexp & Hinv & Hbs & _).
  exists self'. done.
Defined.

(** X7.  Expanding twice is expanding once: when an instance that
    satisfies the invariant is expanded to a shape and the result to a
    second shape, the outcome is the one of expanding the original to the
    second shape directly.  For BetaBinomial and for GammaPoisson. *)
Theorem expand_twice (Sc : Scalar) :
  (forall (self s1 s2 : BetaBinomial.t) a b h h1 h2,
      BetaBinomial.inv self ->
      BetaBinomial.expand self a h = Ok (s1, h1) ->
      BetaBinomial.expand s1 b h1 = Ok (s2, h2) ->
      BetaBinomial.expand self b h = Ok (s2, h2))
  /\ (forall (self s1 s2 : GammaPoisson.t) a b h h1 h2,
        GammaPoisson.inv self ->
        GammaPoisson.expand self a h = Ok (s1, h1) ->
        GammaPoisson.expand s1 b h1 = Ok (s2, h2) ->
        GammaPoisson.expand self b h = Ok (s2, h2)).
Proof.
  split.
  - intros self s1 s2 a b h h1 h2 Hinv H1 H2.
    pose proof Hinv as (Hs1 & Hs0 & Hst & Hw1 & Hw0 & Hwt).
    rewrite (BetaBinomial_expand_decided self a h) in H1 by done.
    destruct (expandable (BetaBinomial._batch_shape self) a) eqn:Ha; [|done].
    injection H1 as <- <-.
    rewrite BetaBinomial_expand_decided in H2 by done.
    cbn [BetaBinomial._batch_shape] in H2.
    destruct (expandable a b) eqn:Hb; [|done].
    injection H2 as <- <-.
    rewrite (BetaBinomial_expand_decided self b h) by done.
    rewrite (expandable_trans _ a b) by done.
    unfold BetaBinomial.concentration1, BetaBinomial.concentration0 in *.
    cbn [BetaBinomial._beta BetaBinomial.total_count
         BetaBinomial._unexpanded_params BetaBinomial._validate_args
         Beta.concentration1 Beta.concentration0 Beta._validate_args].
    unfold expandable in Hb. apply andb_prop in Hb as [Hl He].
    apply bool_decide_eq_true in Hl.
    rewrite !(expand_to_compose _ a b); try done;
      apply (proj2 (fits_expandable _ _)); (split; [done|]); congruence.
  - intros self s1 s2 a b h h1 h2 Hinv H1 H2.
    pose proof Hinv as (Hsc & Hsr & Hwc & Hwr).
    rewrite (GammaPoisson_expand_decided self a h) in H1 by done.
    destruct (expandable (GammaPoisson._batch_shape self) a) eqn:Ha; [|done].
    injection H1 as <- <-.
    rewrite GammaPoisson_expand_decided in H2 by done.
    cbn [GammaPoisson._batch_shape] in H2.
    destruct (expandable a b) eqn:Hb; [|done].
    injection H2 as <- <-.
    rewrite (GammaPoisson_expand_decided self b h) by done.
    rewrite (expandable_trans _ a b) by done.
    unfold GammaPoisson.concentration, GammaPoisson.rate in *.
    cbn [GammaPoisson._gamma GammaPoisson._unexpanded_params
         GammaPoisson._validate_args
         Gamma.concentration Gamma.rate Gamma._validate_args].
    unfold expandable in Hb. apply andb_prop in Hb as [Hl He].
    apply bool_decide_eq_true in Hl.
    rewrite !(expand_to_compose _ a b); try done;
      apply (proj2 (fits_expandable _ _)); (split; [done|]); congruence.
Qed.

Lemma expand_twice_witness :
  exists s1 s2,
    BetaBinomial.expand BetaBinomial_2_3_10 [2%nat] [] = Ok (s1, [])
    /\ BetaBinomial.expand s1 [3%nat; 2%nat] [] = Ok (s2, [])
    /\ BetaBinomial.expand BetaBinomial_2_3_10 [3%nat; 2%nat] []
       = Ok (s2, []).
Proof.
  eexists _, _. split; [reflexivity|]. split; [reflexivity|].
  apply (proj1 (expand_twice float32) BetaBinomial_2_3_10 _ _
           [2%nat] [3%nat; 2%nat] [] [] []
           ltac:(repeat split; reflexivity) eq_refl eq_refl).
Defined.

(** X8.  Expanding a freshly constructed instance to its own batch shape
    gives the instance back, unchanged, in an unchanged store.  For
    BetaBinomial and for GammaPoisson. *)
Theorem expand_to_own_batch_shape (Sc : Scalar) (Df : Defaults) :
  (forall (c1 c0 tc : tensor elt) va h self h',
      wf c1 -> wf c0 -> wf tc ->
      BetaBinomial.__init__ c1 c0 tc va h = Ok (self, h') ->
      BetaBinomial.expand self (BetaBinomial._batch_shape self) h'
      = Ok (self, h'))
  /\ (forall (c r : tensor elt) va h self h',
        wf c -> wf r ->
        GammaPoisson.__init__ c r va h = Ok (self, h') ->
        GammaPoisson.expand self (GammaPoisson._batch_shape self) h'
        = Ok (self, h')).
Proof.
  split.
  - intros c1 c0 tc va h self h' Hw1 Hw0 Hwt Hinit.
    pose proof (BetaBinomial_init_inv _ _ _ _ _ _ _ Hw1 Hw0 Hwt Hinit)
      as (Hs1 & Hs0 & Hst & Hx1 & Hx0 & Hxt).
    rewrite BetaBinomial_expand_decided, expandable_refl by done.
    destruct (BetaBinomial_init_spec _ _ _ _ _ _ _ Hw1 Hw0 Hwt Hinit)
      as (sh & Hf1 & Hf0 & Hft & -> & _).
    unfold BetaBinomial.concentration1, BetaBinomial.concentration0.
    cbn [BetaBinomial._beta BetaBinomial.total_count
         BetaBinomial._batch_shape BetaBinomial._unexpanded_params
         BetaBinomial._validate_args Beta.concentration1
         Beta.concentration0 Beta._validate_args].
    rewrite !(expand_to_compose _ sh sh); try done;
      by rewrite pad_self, expandable_dims_refl.
  - intros c r va h self h' Hwc Hwr Hinit.
    pose proof (GammaPoisson_init_inv _ _ _ _ _ _ Hwc Hwr Hinit)
      as (Hsc & Hsr & Hxc & Hxr).
    rewrite GammaPoisson_expand_decided, expandable_refl by done.
    destruct (GammaPoisson_init_spec _ _ _ _ _ _ Hwc Hwr Hinit)
      as (sh & Hfc & Hfr & -> & _).
    unfold GammaPoisson.concentration, GammaPoisson.rate.
    cbn [GammaPoisson._gamma GammaPoisson._batch_shape
         GammaPoisson._unexpanded_params GammaPoisson._validate_args
         Gamma.concentration Gamma.rate Gamma._validate_args].
    rewrite !(expand_to_compose _ sh sh); try done;
      by rewrite pad_self, expandable_dims_refl.
Qed.

Lemma expand_to_own_batch_shape_witness :
  exists self h',
    BetaBinomial.__init__ (Sc := float32) (Df := validating)
      (num 2) (num 3) (num 10) None [] = Ok (self, h')
    /\ BetaBinomial.expand self (BetaBinomial._batch_shape self) h'
       = Ok (self, h').
Proof.
  eexists _, _. split; [reflexivity|].
  apply (proj1 (expand_to_own_batch_shape float32 validating)
           (num 2) (num 3) (num 10) None [] _ _
           eq_refl eq_refl eq_refl eq_refl).
Defined.

(** ** Scoring *)

(** X9.  What [BetaBinomial.log_prob] does with a value it cannot score.
    A value whose shape does not broadcast against the batch shape raises
    ValueError when the instance validates its arguments and RuntimeError
    (from the first tensor operation) when it does not.  With validation
    enabled, every value outside the support 0 .. total_count raises
    ValueError, whatever its shape. *)
Theorem BetaBinomial_log_prob_invalid_value (Sc : Scalar)
    (self : BetaBinomial.t) (value : tensor elt) :
  BetaBinomial.inv self ->
  (broadcast_shapes (tshape value) (BetaBinomial._batch_shape self) = None ->
   BetaBinomial.log_prob self value
   = Raise (if BetaBinomial._validate_args self then ValueError
            else RuntimeError))
  /\ (BetaBinomial._validate_args self = true ->
      ~ BetaBinomial.in_support self value ->
      BetaBinomial.log_prob self value = Raise ValueError).
Proof.
  intros (_ & _ & Hst & _). split.
  - intros Hnone. by apply BetaBinomial_log_prob_shape_error.
  - intros Hva Hnot.
    destruct (broadcast_shapes (tshape value) (BetaBinomial._batch_shape self))
      as [sh|] eqn:Hsh.
    + by apply (BetaBinomial_log_prob_support_error self value sh).
    + rewrite (BetaBinomial_log_prob_shape_error self value) by done.
      by rewrite Hva.
Qed.

Lemma BetaBinomial_log_prob_invalid_value_witness :
  BetaBinomial.log_prob BetaBinomial_2_3_10 (num 11) = Raise ValueError.
Proof.
  apply (proj2 (BetaBinomial_log_prob_invalid_value float32
                  BetaBinomial_2_3_10 (num 11)
                  ltac:(repeat split; reflexivity)) eq_refl).
  intros (ok & Hok & Hall).
  assert (integer_interval_check (Sc := float32)
            (BetaBinomial.total_count BetaBinomial_2_3_10) (num 11)
          = Ok (Tensor [] [false])) as Hchk by reflexivity.
  rewrite Hchk in Hok. injection Hok as <-. discriminate Hall.
Defined.

(** X10.  What [GammaPoisson.log_prob] does with a value it cannot score.
    A value whose shape does not broadcast against the batch shape raises
    ValueError when the instance validates its arguments and RuntimeError
    when it does not.  With validation enabled, every value that is not a
    tensor of nonnegative integers raises ValueError. *)
Theorem GammaPoisson_log_prob_invalid_value (Sc : Scalar)
    (self : GammaPoisson.t) (value : tensor elt) :
  GammaPoisson.inv self ->
  (broadcast_shapes (tshape value) (GammaPoisson._batch_shape self) = None ->
   GammaPoisson.log_prob self value
   = Raise (if GammaPoisson._validate_args self then ValueError
            else RuntimeError))
  /\ (GammaPoisson._validate_args self = true ->
      ~ GammaPoisson.in_support value ->
      GammaPoisson.log_prob self value = Raise ValueError).
Proof.
  intros (Hsc & _). split.
  - intros Hnone. by apply GammaPoisson_log_prob_shape_error.
  - intros Hva Hnot.
    destruct (broadcast_shapes (tshape value) (GammaPoisson._batch_shape self))
      as [sh|] eqn:Hsh.
    + by apply (GammaPoisson_log_prob_support_error self value sh).
    + rewrite (GammaPoisson_log_prob_shape_error self value) by done.
      by rewrite Hva.
Qed.

Lemma GammaPoisson_log_prob_invalid_value_witness :
  GammaPoisson.log_prob GammaPoisson_5_2 (num (-1)) = Raise ValueError.
Proof.
  apply (proj2 (GammaPoisson_log_prob_invalid_value float32
                  GammaPoisson_5_2 (num (-1))
                  ltac:(repeat split; reflexivity)) eq_refl).
  unfold GammaPoisson.in_support.
  assert (tall (nonnegative_integer_check (Sc := float32) (num (-1)))
          = false) as -> by reflexivity.
  discriminate.
Defined.

(** X11.  Every value that [enumerate_support] lists is accepted by
    [log_prob]: for a batch whose total counts all equal n (an integer the
    element type represents exactly, as all of 0 .. n), the enumerated
    values lie in the support, and [log_prob] of them returns a tensor of
    shape (n+1,) + batch_shape, with and without [expand]. *)
Theorem enumerate_support_then_log_prob (Sc : Scalar) (P : Z -> Prop)
    (self : BetaBinomial.t) (expand : bool) (n : Z) (m : nat) :
  exact_ints P -> exact_order P ->
  BetaBinomial.inv self ->
  (forall k, 0 <= k <= n -> P k) -> 0 <= n ->
  tdata (BetaBinomial.total_count self) = replicate (S m) (of_Z n) ->
  exists values r,
    BetaBinomial.enumerate_support self expand = Ok values
    /\ BetaBinomial.in_support self values
    /\ BetaBinomial.log_prob self values = Ok r
    /\ tshape r = Z.to_nat (1 + n) :: BetaBinomial._batch_shape self.
Proof.
  intros Hexact Horder Hinv HP Hn Hdata.
  by apply (enumerate_support_log_prob P Hexact Horder self expand n m).
Qed.

Lemma enumerate_support_then_log_prob_witness :
  exists values r,
    BetaBinomial.enumerate_support (BetaBinomial_batch2 [3; 3]) false
    = Ok values
    /\ BetaBinomial.in_support (BetaBinomial_batch2 [3; 3]) values
    /\ BetaBinomial.log_prob (BetaBinomial_batch2 [3; 3]) values = Ok r
    /\ tshape r = [4%nat; 2%nat].
Proof.
  apply (enumerate_support_then_log_prob float32 (fun z => 0 <= z <= 10)
           (BetaBinomial_batch2 [3; 3]) false 3 1
           (float32_exact_small _ _) (float32_order_small _ _)
           ltac:(repeat split; reflexivity)
           ltac:(intros k Hk; simpl; lia) ltac:(lia) eq_refl).
Defined.

(** ** Moments of the compound distributions *)

(** X12.  For every BetaBinomial(concentration1 = a, concentration0 = b,
    total_count = n), [mean] is a / (a + b) · n and [variance] is
    a·b / ((a + b)² · (a + b + 1)) · n · (b + a + n), entry by entry, in
    this order of operations; neither raises. *)
Theorem BetaBinomial_mean_variance (Sc : Scalar) (self : BetaBinomial.t) :
  BetaBinomial.inv self ->
  BetaBinomial.mean self
  = Ok (Tensor (BetaBinomial._batch_shape self)
          (zip_with3 (fun a b n => mul (div a (add a b)) n)
             (tdata (BetaBinomial.concentration1 self))
             (tdata (BetaBinomial.concentration0 self))
             (tdata (BetaBinomial.total_count self))))
  /\ BetaBinomial.variance self
     = Ok (Tensor (BetaBinomial._batch_shape self)
             (zip_with3
                (fun a b n =>
                   mul (mul (div (mul a b)
                                 (mul (pow (add a b) 2)
                                      (add (add a b) (of_Z 1))))
                            n)
                       (add (add b a) n))
                (tdata (BetaBinomial.concentration1 self))
                (tdata (BetaBinomial.concentration0 self))
                (tdata (BetaBinomial.total_count self)))).
Proof.
  intros Hinv. split.
  - by apply BetaBinomial_mean_data.
  - by apply BetaBinomial_variance_data.
Qed.

Lemma BetaBinomial_mean_variance_witness :
  BetaBinomial.mean BetaBinomial_2_3_10 = Ok (num 4)
  /\ BetaBinomial.variance BetaBinomial_2_3_10
     = Ok (scalar_tensor (Float32.lit 12582911 (-21))).
Proof.
  destruct (BetaBinomial_mean_variance float32 BetaBinomial_2_3_10
              ltac:(repeat split; reflexivity)) as [Hmean Hvar].
  split.
  - rewrite Hmean. reflexivity.
  - rewrite Hvar. reflexivity.
Defined.

(** X13.  The moments of an expanded instance are the expanded moments:
    when [expand] succeeds on an instance that satisfies the invariant,
    [mean] and [variance] of the new instance are [mean] and [variance] of
    the original, expanded to the new batch shape.  For BetaBinomial and
    for GammaPoisson. *)
Theorem moments_of_expanded (Sc : Scalar) :
  (forall (self self' : BetaBinomial.t) bs h h',
      BetaBinomial.inv self ->
      BetaBinomial.expand self bs h = Ok (self', h') ->
      BetaBinomial.mean self'
      = (m ← BetaBinomial.mean self; Ok (expand_to bs m))
      /\ BetaBinomial.variance self'
         = (v ← BetaBinomial.variance self; Ok (expand_to bs v)))
  /\ (forall (self self' : GammaPoisson.t) bs h h',
        GammaPoisson.inv self ->
        GammaPoisson.expand self bs h = Ok (self', h') ->
        GammaPoisson.mean self'
        = (m ← GammaPoisson.mean self; Ok (expand_to bs m))
        /\ GammaPoisson.variance self'
           = (v ← GammaPoisson.variance self; Ok (expand_to bs v))).
Proof.
  split.
  - intros self self' bs h h' Hinv Hexp.
    pose proof (BetaBinomial_expand_inv _ _ _ _ _ Hinv Hexp) as Hinv'.
    rewrite (BetaBinomial_mean_data self'), (BetaBinomial_variance_data self'),
      (BetaBinomial_mean_data self), (BetaBinomial_variance_data self)
      by done.
    rewrite !bind_Ok.
    destruct (BetaBinomial_expand_spec _ _ _ _ _ Hinv Hexp)
      as ((_ & Hlen & Hexpd) & -> & _).
    destruct Hinv as (Hs1 & Hs0 & Hst & Hw1 & Hw0 & Hwt).
    rewrite Hst in Hexpd.
    unfold BetaBinomial.concentration1, BetaBinomial.concentration0 in *.
    cbn [BetaBinomial._beta BetaBinomial.total_count
         BetaBinomial._batch_shape Beta.concentration1
         Beta.concentration0].
    by rewrite !expand_to_zip_with3.
  - intros self self' bs h h' Hinv Hexp.
    pose proof (GammaPoisson_expand_inv _ _ _ _ _ Hinv Hexp) as Hinv'.
    rewrite (GammaPoisson_mean_data self'), (GammaPoisson_variance_data self'),
      (GammaPoisson_mean_data self), (GammaPoisson_variance_data self)
      by done.
    rewrite !bind_Ok.
    destruct (GammaPoisson_expand_spec _ _ _ _ _ Hinv Hexp)
      as ((_ & Hlen & Hexpd) & -> & _).
    destruct Hinv as (Hsc & Hsr & Hwc & Hwr).
    rewrite Hsr in Hexpd.
    unfold GammaPoisson.concentration, GammaPoisson.rate in *.
    cbn [GammaPoisson._gamma GammaPoisson._batch_shape
         Gamma.concentration Gamma.rate].
    by rewrite !expand_to_zip_with.
Qed.

Lemma moments_of_expanded_witness :
  exists self',
    BetaBinomial.expand BetaBinomial_2_3_10 [2%nat] [] = Ok (self', [])
    /\ BetaBinomial.mean self'
       = Ok (Tensor [2%nat] [Float32.of_Z 4; Float32.of_Z 4]).
Proof.
  eexists. split; [reflexivity|].
  destruct (proj1 (moments_of_expanded float32) BetaBinomial_2_3_10 _
              [2%nat] [] [] ltac:(repeat split; reflexivity) eq_refl)
    as [Hmean _].
  rewrite Hmean. reflexivity.
Defined.

(** ** The log-beta helper *)

(** X14.  [_log_beta(x, y)] is lgamma(x) + lgamma(y) - lgamma(x + y) entry
    by entry of the two arguments broadcast to their common shape, and
    raises RuntimeError when the two shapes do not broadcast. *)
Theorem log_beta_broadcast (Sc : Scalar) (x y : tensor elt) :
  wf x -> wf y ->
  _log_beta x y
  = match broadcast_shapes (tshape x) (tshape y) with
    | Some sh =>
        Ok (Tensor sh (zip_with spec_log_beta (tdata (expand_to sh x))
                                              (tdata (expand_to sh y))))
    | None => Raise RuntimeError
    end.
Proof.
  intros Hwx Hwy.
  destruct (broadcast_shapes (tshape x) (tshape y)) as [sh|] eqn:Hsh.
  - destruct (broadcast_fits x y sh Hwx Hwy Hsh) as [Hfx Hfy].
    destruct (_log_beta_fits x y sh Hfx Hfy) as (r & -> & Hfr & Hshr & Hdr).
    rewrite Hsh in Hshr. injection Hshr as Hshr.
    destruct r as [shr dr]. simpl in Hshr. subst shr.
    destruct Hfr as (Hwr & _). rewrite expand_to_id in Hdr by exact Hwr.
    simpl in Hdr. by rewrite Hdr.
  - unfold _log_beta.
    by rewrite (tmap2_Raise add (tmap lgamma x) (tmap lgamma y)).
Qed.

Lemma log_beta_broadcast_witness :
  _log_beta (Sc := float32) (num 2) (Tensor [2%nat] [Float32.of_Z 3; Float32.of_Z 4])
  = Ok (Tensor [2%nat]
          [spec_log_beta (Sc := float32) (Float32.of_Z 2) (Float32.of_Z 3);
           spec_log_beta (Sc := float32) (Float32.of_Z 2) (Float32.of_Z 4)]).
Proof.
  rewrite (log_beta_broadcast float32 (num 2)
             (Tensor [2%nat] [Float32.of_Z 3; Float32.of_Z 4])
             eq_refl eq_refl).
  reflexivity.
Defined.

(** ** Posterior updates *)

(** X15.  The validation setting of a posterior.  The Beta that
    [BetaBinomial._posterior_latent_dist] returns carries the instance's
    own validate_args, and has positive concentrations whenever that flag
    is set.  The Gamma that [GammaPoisson._posterior_latent_dist] returns
    is built without a validate_args argument: it carries the class-level
    default, whatever the instance's flag, and its parameters are checked
    only when that default is set. *)
Theorem posterior_validate_args (Sc : Scalar) (Df : Defaults) :
  (forall (self : BetaBinomial.t) obs h beta,
      BetaBinomial._posterior_latent_dist self obs h = Ok beta ->
      Beta._validate_args beta = BetaBinomial._validate_args self
      /\ (BetaBinomial._validate_args self = true ->
          tall (positive_check (Beta.concentration1 beta)) = true
          /\ tall (positive_check (Beta.concentration0 beta)) = true))
  /\ (forall (self : GammaPoisson.t) obs h gamma,
        GammaPoisson._posterior_latent_dist self obs h = Ok gamma ->
        Gamma._validate_args gamma = default_validate_args
        /\ (default_validate_args = true ->
            tall (positive_check (Gamma.concentration gamma)) = true
            /\ tall (positive_check (Gamma.rate gamma)) = true)).
Proof.
  split.
  - intros self obs h beta Hpost.
    apply BetaBinomial_posterior_Ok in Hpost as (a & b & Hinit).
    apply Beta_init_Ok in Hinit as [Hva Hpos]. simpl in Hva, Hpos.
    split; [done|]. intros Hflag. apply Hpos. rewrite Hflag.
    apply orb_true_r.
  - intros self obs h gamma Hpost.
    apply GammaPoisson_posterior_Ok in Hpost as (a & b & Hinit).
    by apply Gamma_init_Ok in Hinit as [Hva Hpos].
Qed.

Lemma posterior_validate_args_witness :
  exists self h' beta,
    BetaBinomial.__init__ (Sc := float32) (Df := validating)
      (Tensor [1%nat] [Float32.of_Z 2]) (Tensor [1%nat] [Float32.of_Z 3])
      (Tensor [1%nat] [Float32.of_Z 4]) None [] = Ok (self, h')
    /\ BetaBinomial._posterior_latent_dist (Df := validating) self
         (Tensor [2%nat; 1%nat] [Float32.of_Z 3; Float32.of_Z 1]) h'
       = Ok beta
    /\ Beta._validate_args beta = true
    /\ tall (positive_check (Beta.concentration1 beta)) = true.
Proof.
  eexists _, _, _. split; [reflexivity|].
  match goal with |- ?P /\ _ => assert P as Hpost by reflexivity end.
  split; [exact Hpost|].
  destruct (proj1 (posterior_validate_args float32 validating)
              _ _ _ _ Hpost) as [Hva Hpos].
  split; [exact Hva|]. exact (proj1 (Hpos eq_refl)).
Defined.

(** X16.  Errors of [BetaBinomial._posterior_latent_dist] on an instance
    made by the constructor and any chain of [expand] calls.  When obs has
    as many dimensions as the parameters had at construction, or at most
    half as many, the slice [obs.size()[:len(obs.size()) - num_dims]] is
    empty and [reduce(mul, ...)] raises TypeError.  When obs has more
    dimensions than the parameters, the only errors are RuntimeError (obs
    does not broadcast against the parameters) and ValueError (the updated
    concentrations fail validation): the three dictionary lookups never
    raise KeyError. *)
Theorem BetaBinomial_posterior_errors (Sc : Scalar) (Df : Defaults)
    (c1 c0 tc : tensor elt) va h (s0 self : BetaBinomial.t) h0 shapes h'
    (obs : tensor elt) :
  wf c1 -> wf c0 -> wf tc ->
  BetaBinomial.__init__ c1 c0 tc va h = Ok (s0, h0) ->
  BetaBinomial.expand_chain s0 shapes h0 = Ok (self, h') ->
  (ndim obs = length (BetaBinomial._batch_shape s0)
   \/ (2 * ndim obs <= length (BetaBinomial._batch_shape s0))%nat ->
   BetaBinomial._posterior_latent_dist self obs h' = Raise TypeError)
  /\ ((length (BetaBinomial._batch_shape s0) < ndim obs)%nat ->
      forall e, BetaBinomial._posterior_latent_dist self obs h' = Raise e ->
                e = RuntimeError \/ e = ValueError).
Proof.
  intros Hw1 Hw0 Hwt Hinit Hchain.
  apply BetaBinomial_expand_chain_fields in Hchain as (Href & _ & ->).
  destruct (BetaBinomial_init_spec _ _ _ _ _ _ _ Hw1 Hw0 Hwt Hinit)
    as (sh & _ & _ & _ & -> & ->).
  cbn [BetaBinomial._unexpanded_params BetaBinomial._batch_shape] in *.
  unfold BetaBinomial._posterior_latent_dist. rewrite Href, deref_app_new.
  unfold getitem. simplify_map_eq. rewrite ?bind_Ok.
  cbn [expand_to tshape]. unfold ndim. split.
  - intros Hle. unfold slice_to.
    destruct (_ <? 0) eqn:Hneg.
    + apply Z.ltb_lt in Hneg.
      replace (Z.to_nat _) with 0%nat by lia. by rewrite take_0.
    + apply Z.ltb_ge in Hneg.
      replace (Z.to_nat _) with 0%nat by lia. by rewrite take_0.
  - intros Hlt e. unfold slice_to.
    rewrite (proj2 (Z.ltb_ge _ 0)) by lia.
    rewrite reduce_mul_numel.
    2:{ intros Hnil. apply (f_equal length) in Hnil.
        rewrite length_take in Hnil. simpl in Hnil. lia. }
    rewrite bind_Ok.
    destruct (tmap2 add (expand_to sh c1) _) as [a|e1] eqn:Ha.
    2:{ apply tmap2_exn in Ha as ->. intros [= <-]. by left. }
    rewrite bind_Ok.
    destruct (tmap2 add _ (expand_to sh c0)) as [b|e1] eqn:Hb.
    2:{ apply tmap2_exn in Hb as ->. intros [= <-]. by left. }
    rewrite bind_Ok.
    destruct (tmap2 sub b _) as [b'|e1] eqn:Hb'.
    2:{ apply tmap2_exn in Hb' as ->. intros [= <-]. by left. }
    rewrite bind_Ok. apply Beta_init_exn.
Qed.

Lemma BetaBinomial_posterior_errors_witness :
  exists s0 h0 self h',
    BetaBinomial.__init__ (Sc := float32) (Df := validating)
      (Tensor [1%nat] [Float32.of_Z 2]) (Tensor [1%nat] [Float32.of_Z 3])
      (Tensor [1%nat] [Float32.of_Z 4]) None [] = Ok (s0, h0)
    /\ BetaBinomial.expand_chain s0 [[2%nat; 1%nat]] h0 = Ok (self, h')
    /\ BetaBinomial._posterior_latent_dist (Df := validating) self
         (Tensor [1%nat] [Float32.of_Z 3]) h' = Raise TypeError.
Proof.
  eexists _, _, _, _. split; [reflexivity|]. split; [reflexivity|].
  apply (proj1 (BetaBinomial_posterior_errors float32 validating
                  (Tensor [1%nat] [Float32.of_Z 2])
                  (Tensor [1%nat] [Float32.of_Z 3])
                  (Tensor [1%nat] [Float32.of_Z 4]) None [] _ _ _
                  [[2%nat; 1%nat]] _ (Tensor [1%nat] [Float32.of_Z 3])
                  eq_refl eq_refl eq_refl eq_refl eq_refl)).
  left. reflexivity.
Defined.

(** X17.  Errors of [GammaPoisson._posterior_latent_dist] on an instance
    made by the constructor and any chain of [expand] calls.  When the
    parameters were 0-dimensional at construction (as for
    GammaPoisson(5.0, 2.0)), or obs is 0-dimensional, the slice
    [obs.size()[:num_dims]] is empty and [reduce(mul, ...)] raises
    TypeError, whatever the observations are.  When the parameters had at
    least one dimension and obs has at least as many, the only errors are
    RuntimeError and ValueError: the two dictionary lookups never raise
    KeyError. *)
Theorem GammaPoisson_posterior_errors (Sc : Scalar) (Df : Defaults)
    (c r : tensor elt) va h (s0 self : GammaPoisson.t) h0 shapes h'
    (obs : tensor elt) :
  wf c -> wf r ->
  GammaPoisson.__init__ c r va h = Ok (s0, h0) ->
  GammaPoisson.expand_chain s0 shapes h0 = Ok (self, h') ->
  (GammaPoisson._batch_shape s0 = [] \/ ndim obs = 0%nat ->
   GammaPoisson._posterior_latent_dist self obs h' = Raise TypeError)
  /\ (GammaPoisson._batch_shape s0 <> [] ->
      (length (GammaPoisson._batch_shape s0) <= ndim obs)%nat ->
      forall e, GammaPoisson._posterior_latent_dist self obs h' = Raise e ->
                e = RuntimeError \/ e = ValueError).
Proof.
  intros Hwc Hwr Hinit Hchain.
  apply GammaPoisson_expand_chain_fields in Hchain as (Href & _ & ->).
  destruct (GammaPoisson_init_spec _ _ _ _ _ _ Hwc Hwr Hinit)
    as (sh & _ & _ & -> & ->).
  cbn [GammaPoisson._unexpanded_params GammaPoisson._batch_shape] in *.
  unfold GammaPoisson._posterior_latent_dist. rewrite Href, deref_app_new.
  unfold getitem. simplify_map_eq. rewrite ?bind_Ok.
  cbn [expand_to tshape]. unfold ndim, slice_to.
  rewrite (proj2 (Z.ltb_ge _ 0)) by lia. rewrite Nat2Z.id. split.
  - intros [-> | Hobs]; [done|].
    destruct (tshape obs); [|done]. by rewrite take_nil.
  - intros Hsh Hobs e.
    rewrite reduce_mul_numel.
    2:{ destruct sh; [done|].
        destruct (tshape obs); [simpl in Hobs; lia | done]. }
    rewrite bind_Ok.
    destruct (tmap2 add (expand_to sh c) _) as [a|e1] eqn:Ha.
    2:{ apply tmap2_exn in Ha as ->. intros [= <-]. by left. }
    rewrite bind_Ok. apply Gamma_init_exn.
Qed.

Lemma GammaPoisson_posterior_errors_witness :
  exists s0 h0,
    GammaPoisson.__init__ (Sc := float32) (Df := validating)
      (num 5) (num 2) None [] = Ok (s0, h0)
    /\ GammaPoisson._posterior_latent_dist (Df := validating) s0
         (Tensor [3%nat] [Float32.of_Z 1; Float32.of_Z 0; Float32.of_Z 4]) h0
       = Raise TypeError.
Proof.
  eexists _, _. split; [reflexivity|].
  apply (proj1 (GammaPoisson_posterior_errors float32 validating
                  (num 5) (num 2) None [] _ _ _ [] _
                  (Tensor [3%nat]
                     [Float32.of_Z 1; Float32.of_Z 0; Float32.of_Z 4])
                  eq_refl eq_refl eq_refl eq_refl)).
  left. reflexivity.
Defined.

(** X18.  The conjugate update of [BetaBinomial._posterior_latent_dist].
    For an instance made by the constructor with a batch shape of at least
    one dimension, and observations of shape ks + batch_shape with ks not
    empty, the posterior is Beta(concentration1 + Σobs,
    N · total_count + concentration0 - Σobs) entry by entry, where Σobs
    sums obs over its leading dimensions ks and N is their product, built
    with the instance's validate_args. *)
Theorem BetaBinomial_posterior_update (Sc : Scalar) (Df : Defaults)
    (c1 c0 tc : tensor elt) va h (self : BetaBinomial.t) h'
    (obs : tensor elt) (ks : list nat) :
  wf c1 -> wf c0 -> wf tc -> wf obs ->
  BetaBinomial.__init__ c1 c0 tc va h = Ok (self, h') ->
  BetaBinomial._batch_shape self <> [] -> ks <> [] ->
  tshape obs = ks ++ BetaBinomial._batch_shape self ->
  let bs := BetaBinomial._batch_shape self in
  let summed_obs :=
    sum_rows (numel bs) (chunks (numel bs) (numel ks) (tdata obs)) in
  BetaBinomial._posterior_latent_dist self obs h'
  = Beta.__init__
      (Tensor bs (zip_with add (tdata (BetaBinomial.concentration1 self))
                    summed_obs))
      (Tensor bs
         (zip_with3
            (fun t c s => sub (add (mul (of_Z (Z.of_nat (numel ks))) t) c) s)
            (tdata (BetaBinomial.total_count self))
            (tdata (BetaBinomial.concentration0 self)) summed_obs))
      (Some (BetaBinomial._validate_args self)).
Proof.
  intros Hw1 Hw0 Hwt Hwo Hinit Hbs Hks Hsh.
  by apply (BetaBinomial_posterior_update_data c1 c0 tc va h).
Qed.

Lemma BetaBinomial_posterior_update_witness :
  exists self h',
    BetaBinomial.__init__ (Sc := float32) (Df := validating)
      (Tensor [1%nat] [Float32.of_Z 2]) (Tensor [1%nat] [Float32.of_Z 3])
      (Tensor [1%nat] [Float32.of_Z 4]) None [] = Ok (self, h')
    /\ BetaBinomial._posterior_latent_dist (Df := validating) self
         (Tensor [2%nat; 1%nat] [Float32.of_Z 3; Float32.of_Z 1]) h'
       = Ok (Beta.Make (Sc := float32) (Tensor [1%nat] [Float32.of_Z 6])
               (Tensor [1%nat] [Float32.of_Z 7]) [1%nat] true).
Proof.
  eexists _, _. split; [reflexivity|].
  rewrite (BetaBinomial_posterior_update float32 validating
             (Tensor [1%nat] [Float32.of_Z 2])
             (Tensor [1%nat] [Float32.of_Z 3])
             (Tensor [1%nat] [Float32.of_Z 4]) None [] _ _
             (Tensor [2%nat; 1%nat] [Float32.of_Z 3; Float32.of_Z 1])
             [2%nat]
             eq_refl eq_refl eq_refl eq_refl eq_refl
             ltac:(discriminate) ltac:(discriminate) eq_refl).
  reflexivity.
Defined.
